(** * Light Finder + : version store, snapshot codec, collector and applier

    A shallow embedding of [LgtFindr+.py] (classes [VersionManager] and
    [LightFinderFunctions]) and the properties of its core.

    Conventions of the embedding
    - Python [str] values are [string]s whose characters are read as code
      points below 256 (Latin-1).  In that range [str.isdigit] accepts the
      ASCII digits and the superscripts U+00B2, U+00B3, U+00B9, whereas
      [int] accepts ASCII digits only.
    - Python [int] is [Z]; a [float] is carried by its [repr] text.
    - Exceptions are values of [exn]; a computation is a function from a
      state to an [outcome] and the next state, so that what was mutated
      before a [raise] stays mutated inside the handler.
    - The file system is a tree of directories; a path is the list of its
      segments below the root.  [..] and symbolic links are not interpreted;
      the process working directory is the root.
    - The text of a JSON file is represented by its syntax tree
      ([Document]); any text that [json.load] rejects is [Malformed]. *)

From stdpp Require Import gmap strings list sorting.
From Stdlib Require Import DecimalString DecimalPos DecimalN ZArith Ascii.

Set Default Proof Using "Type".
Set Warnings "-register-all,-notation-for-abbreviation".
Local Open Scope Z_scope.
Local Open Scope string_scope.

(* ================================================================== *)
(** ** Exceptions and the state/exception monad *)

Module Py.

Inductive exn_kind :=
  | ValueError | TypeError | AttributeError
  | FileExistsError | FileNotFoundError | NotADirectoryError | IsADirectoryError
  | JSONDecodeError | RuntimeError.

(** An exception with the text [str(e)] that the handlers print. *)
Record exn := Exn { exn_kind_of : exn_kind; exn_msg : string }.

Inductive outcome (A : Type) :=
  | Ret (a : A)
  | Raise (e : exn).
Arguments Ret {A} a.
Arguments Raise {A} e.

Definition M (St A : Type) : Type := St -> outcome A * St.

Definition ret {St A} (a : A) : M St A := fun s => (Ret a, s).
Definition raise {St A} (e : exn) : M St A := fun s => (Raise e, s).
Definition bind {St A B} (m : M St A) (k : A -> M St B) : M St B :=
  fun s => match m s with
           | (Ret a, s') => k a s'
           | (Raise e, s') => (Raise e, s')
           end.
(** [try: m except Exception as e: h e] *)
Definition try_except {St A} (m : M St A) (h : exn -> M St A) : M St A :=
  fun s => match m s with
           | (Ret a, s') => (Ret a, s')
           | (Raise e, s') => h e s'
           end.
Definition modify {St} (f : St -> St) : M St unit := fun s => (Ret tt, f s).
(** Lifting of an operation that either fails or gives a value. *)
Definition lift {St A} (o : outcome A) : M St A := fun s => (o, s).

End Py.
Import Py.

Declare Scope py_scope.
Delimit Scope py_scope with py.
Notation "'do' x <- m ; k" := (bind m (fun x => k))
  (at level 10, x name, m at level 99, k at level 200,
   format "'[v' 'do'  x  <-  m ; '/' k ']'") : py_scope.
Notation "'do' ' p <- m ; k" := (bind m (fun x => match x with p => k end))
  (at level 10, p pattern, m at level 99, k at level 200) : py_scope.
Notation "'run' m ; k" := (bind m (fun _ => k))
  (at level 10, m at level 99, k at level 200,
   format "'[v' 'run'  m ; '/' k ']'") : py_scope.
Local Open Scope py_scope.

(* ================================================================== *)
(** ** Strings: the [str] methods the program uses *)

Module Str.

Definition code (c : ascii) : N := N_of_ascii c.

Definition is_ascii_digit (c : ascii) : bool :=
  (48 <=? code c)%N && (code c <=? 57)%N.

(** [c.isdigit()] for a code point below 256. *)
Definition isdigit_char (c : ascii) : bool :=
  is_ascii_digit c
  || (code c =? 178)%N || (code c =? 179)%N || (code c =? 185)%N.

Fixpoint all_chars (p : ascii -> bool) (s : string) : bool :=
  match s with
  | EmptyString => true
  | String c s' => p c && all_chars p s'
  end.

(** [s.isdigit()]: non-empty and every character is a digit. *)
Definition isdigit (s : string) : bool :=
  match s with
  | EmptyString => false
  | _ => all_chars isdigit_char s
  end.

Definition digit_val (c : ascii) : Z := Z.of_N (code c) - 48.

Fixpoint int_acc (acc : Z) (s : string) : option Z :=
  match s with
  | EmptyString => Some acc
  | String c s' =>
      if is_ascii_digit c then int_acc (10 * acc + digit_val c) s' else None
  end.

(** [int(s)] on a string that passed [isdigit]: the decimal value, or
    [ValueError] when a character is not a decimal digit. *)
Definition int (s : string) : outcome Z :=
  match s with
  | EmptyString => Raise (Exn ValueError "invalid literal for int()")
  | _ => match int_acc 0 s with
         | Some z => Ret z
         | None => Raise (Exn ValueError "invalid literal for int()")
         end
  end.

(** [str(n)] for an [int]. *)
Definition str (z : Z) : string :=
  match z with
  | Zneg p => "-" ++ NilZero.string_of_uint (N.to_uint (Npos p))
  | _ => NilZero.string_of_uint (N.to_uint (Z.to_N z))
  end.

(** [c.lower()] for a code point below 256. *)
Definition lower_char (c : ascii) : ascii :=
  let n := code c in
  if ((65 <=? n) && (n <=? 90))%N
     || ((192 <=? n) && (n <=? 222) && negb (n =? 215))%N
  then ascii_of_N (n + 32) else c.

Fixpoint lower (s : string) : string :=
  match s with
  | EmptyString => EmptyString
  | String c s' => String (lower_char c) (lower s')
  end.

Fixpoint starts_with (p s : string) : bool :=
  match p, s with
  | EmptyString, _ => true
  | String a p', String b s' => bool_decide (a = b) && starts_with p' s'
  | String _ _, EmptyString => false
  end.

(** [needle in hay] for two [str]. *)
Fixpoint contains (needle hay : string) : bool :=
  starts_with needle hay ||
  match hay with
  | EmptyString => false
  | String _ hay' => contains needle hay'
  end.

Definition not_slash (c : ascii) : bool := negb (bool_decide (c = "/"%char)).

(** Splitting on ["/"]: [cur] is the segment being read. *)
Fixpoint split_slash (cur : string) (s : string) : list string :=
  match s with
  | EmptyString => [cur]
  | String c s' =>
      if bool_decide (c = "/"%char) then cur :: split_slash "" s'
      else split_slash (cur ++ String c "") s'
  end.

End Str.

(* ================================================================== *)
(** ** Paths ([pathlib.PurePosixPath]) *)

Module Path.

Definition path := list string.

Definition keep_segment (s : string) : bool :=
  negb (bool_decide (s = "")) && negb (bool_decide (s = ".")).

(** [Path(s)]: empty and ["."] segments are dropped. *)
Definition of_string (s : string) : path :=
  List.filter keep_segment (Str.split_slash "" s).

(** [p / s]: an absolute [s] replaces [p]. *)
Definition join (p : path) (s : string) : path :=
  if Str.starts_with "/" s then of_string s else (p ++ of_string s)%list.

(** A name that is one path segment: what [join] appends unchanged. *)
Definition plain_name (s : string) : bool :=
  keep_segment s && negb (Str.contains "/" s).

End Path.
Notation path := Path.path.
Infix "//" := Path.join (at level 40, left associativity).

(* ================================================================== *)
(** ** Python values and JSON documents *)

Module Value.

(** A [dict] with [str] keys, in insertion order. *)
Definition dict (V : Type) := list (string * V).

Fixpoint dict_get {V} (d : dict V) (k : string) : option V :=
  match d with
  | [] => None
  | (k', v) :: d' => if bool_decide (k' = k) then Some v else dict_get d' k
  end.

(** [d[k] = v]: an existing key keeps its place. *)
Fixpoint dict_set {V} (d : dict V) (k : string) (v : V) : dict V :=
  match d with
  | [] => [(k, v)]
  | (k', v') :: d' =>
      if bool_decide (k' = k) then (k', v) :: d' else (k', v') :: dict_set d' k v
  end.

Inductive pyval :=
  | PyNone
  | PyBool (b : bool)
  | PyInt (z : Z)
  | PyFloat (repr : string)
  | PyStr (s : string)
  | PyList (l : list pyval)
  | PyTuple (l : list pyval)
  | PyDict (d : list (string * pyval))
  | PyObject (type_name : string).
  (** [PyObject]: any other object (a set, bytes, a class instance). *)

Inductive json :=
  | JNull
  | JBool (b : bool)
  | JInt (z : Z)
  | JFloat (repr : string)
  | JStr (s : string)
  | JArr (items : list json)
  | JObj (members : list (string * json)).

(** Truth value of an object, as [if x:] tests it. *)
Definition truthy (v : pyval) : bool :=
  match v with
  | PyNone => false
  | PyBool b => b
  | PyInt z => negb (z =? 0)%Z
  | PyFloat r => negb (bool_decide (r = "0.0")) && negb (bool_decide (r = "-0.0"))
  | PyStr s => negb (bool_decide (s = ""))
  | PyList l | PyTuple l => negb (bool_decide (l = []))
  | PyDict d => negb (bool_decide (d = []))
  | PyObject _ => true
  end.

(** [v.get(k)]: only a [dict] has the method. *)
Definition py_get (v : pyval) (k : string) : outcome pyval :=
  match v with
  | PyDict d => Ret (default PyNone (dict_get d k))
  | _ => Raise (Exn AttributeError "object has no attribute 'get'")
  end.

(** What [json.dump] writes for a value: tuples become arrays, and an
    object outside the JSON types raises [TypeError]. *)
Fixpoint to_json (v : pyval) : outcome json :=
  match v with
  | PyNone => Ret JNull
  | PyBool b => Ret (JBool b)
  | PyInt z => Ret (JInt z)
  | PyFloat r => Ret (JFloat r)
  | PyStr s => Ret (JStr s)
  | PyList l | PyTuple l =>
      match (fix items (l : list pyval) : outcome (list json) :=
               match l with
               | [] => Ret []
               | x :: l' =>
                   match to_json x with
                   | Raise e => Raise e
                   | Ret j => match items l' with
                              | Raise e => Raise e
                              | Ret js => Ret (j :: js)
                              end
                   end
               end) l with
      | Raise e => Raise e
      | Ret js => Ret (JArr js)
      end
  | PyDict d =>
      match (fix members (d : list (string * pyval)) : outcome (list (string * json)) :=
               match d with
               | [] => Ret []
               | (k, x) :: d' =>
                   match to_json x with
                   | Raise e => Raise e
                   | Ret j => match members d' with
                              | Raise e => Raise e
                              | Ret ms => Ret ((k, j) :: ms)
                              end
                   end
               end) d with
      | Raise e => Raise e
      | Ret ms => Ret (JObj ms)
      end
  | PyObject t =>
      Raise (Exn TypeError ("Object of type " ++ t ++ " is not JSON serializable"))
  end.

(** [dict(pairs)]: a later pair with the same key replaces the value. *)
Definition dict_of_pairs {V} (ps : list (string * V)) : dict V :=
  fold_left (fun d kv => dict_set d kv.1 kv.2) ps [].

(** What [json.load] builds from a document. *)
Fixpoint of_json (j : json) : pyval :=
  match j with
  | JNull => PyNone
  | JBool b => PyBool b
  | JInt z => PyInt z
  | JFloat r => PyFloat r
  | JStr s => PyStr s
  | JArr js => PyList (List.map of_json js)
  | JObj ms =>
      PyDict (dict_of_pairs
                ((fix members (ms : list (string * json)) : list (string * pyval) :=
                    match ms with
                    | [] => []
                    | (k, x) :: ms' => (k, of_json x) :: members ms'
                    end) ms))
  end.


End Value.
Import Value.

(* ================================================================== *)
(** ** The file system *)

Module FS.

Inductive content :=
  | Document (j : json)
  | Malformed.

Inductive node :=
  | File (c : content)
  | Dir (children : gmap string node).

Definition oserror (k : exn_kind) (p : path) : exn :=
  Exn k (String.concat "/" p).

Fixpoint lookup (n : node) (p : path) : option node :=
  match p with
  | [] => Some n
  | s :: p' =>
      match n with
      | Dir m => match m !! s with
                 | Some c => lookup c p'
                 | None => None
                 end
      | File _ => None
      end
  end.

(** [p.exists()] / [os.path.exists(p)] *)
Definition exists_ (n : node) (p : path) : bool :=
  match lookup n p with Some _ => true | None => false end.

(** [p.is_dir()] *)
Definition is_dir (n : node) (p : path) : bool :=
  match lookup n p with Some (Dir _) => true | _ => false end.

(** [p.is_file()] *)
Definition is_file (n : node) (p : path) : bool :=
  match lookup n p with Some (File _) => true | _ => false end.

Definition node_is_dir (n : node) : bool :=
  match n with Dir _ => true | File _ => false end.

(** [p.mkdir(parents=True, exist_ok=True)]: every missing directory on the
    way is created; a regular file on the way, or at [p], is an error. *)
Fixpoint mkdir_at (whole : path) (n : node) (p : path) : outcome node :=
  match p with
  | [] => match n with
          | Dir _ => Ret n
          | File _ => Raise (oserror FileExistsError whole)
          end
  | s :: p' =>
      match n with
      | File _ => Raise (oserror NotADirectoryError whole)
      | Dir m =>
          match mkdir_at whole (default (Dir ∅) (m !! s)) p' with
          | Ret c => Ret (Dir (<[s := c]> m))
          | Raise e => Raise e
          end
      end
  end.
Definition mkdir_p (n : node) (p : path) : outcome node := mkdir_at p n p.

(** [p.iterdir()]: the entries of a directory, in the order the system
    gives them. *)
Definition iterdir (n : node) (p : path) : outcome (list (string * node)) :=
  match lookup n p with
  | Some (Dir m) => Ret (map_to_list m)
  | Some (File _) => Raise (oserror NotADirectoryError p)
  | None => Raise (oserror FileNotFoundError p)
  end.

(** [open(p, 'w')] followed by writing [c] and closing. *)
Fixpoint write_at (whole : path) (n : node) (p : path) (c : content) : outcome node :=
  match p with
  | [] => match n with
          | File _ => Ret (File c)
          | Dir _ => Raise (oserror IsADirectoryError whole)
          end
  | s :: p' =>
      match n with
      | File _ => Raise (oserror NotADirectoryError whole)
      | Dir m =>
          match m !! s with
          | Some ch =>
              match write_at whole ch p' c with
              | Ret r => Ret (Dir (<[s := r]> m))
              | Raise e => Raise e
              end
          | None =>
              match p' with
              | [] => Ret (Dir (<[s := File c]> m))
              | _ => Raise (oserror FileNotFoundError whole)
              end
          end
      end
  end.
Definition write_file (n : node) (p : path) (c : content) : outcome node :=
  write_at p n p c.

(** [open(p, 'r')] and reading the whole file. *)
Definition read_file (n : node) (p : path) : outcome content :=
  match lookup n p with
  | Some (File c) => Ret c
  | Some (Dir _) => Raise (oserror IsADirectoryError p)
  | None => Raise (oserror FileNotFoundError p)
  end.

(** [json.load(f)] *)
Definition json_load (c : content) : outcome pyval :=
  match c with
  | Document j => Ret (of_json j)
  | Malformed => Raise (Exn JSONDecodeError "Expecting value")
  end.

End FS.

(* ================================================================== *)
(** ** The world the store runs in *)

Definition loc := positive.

(** The file tree, the [dict] objects callers hold references to, and what
    was printed. *)
Record world := World {
  fs : FS.node;
  heap : gmap loc (dict pyval);
  stdout : list string
}.

Definition set_fs (n : FS.node) (w : world) : world :=
  World n (heap w) (stdout w).
Definition set_heap (h : gmap loc (dict pyval)) (w : world) : world :=
  World (fs w) h (stdout w).

(** [print(line)] *)
Definition print (line : string) : M world unit :=
  modify (fun w => World (fs w) (heap w) (stdout w ++ [line])).

(** A file-system operation that changes the tree on success. *)
Definition fs_update (op : FS.node -> outcome FS.node) : M world unit :=
  fun w => match op (fs w) with
           | Ret n => (Ret tt, set_fs n w)
           | Raise e => (Raise e, w)
           end.

(** A file-system operation that only reads. *)
Definition fs_query {A} (op : FS.node -> A) : M world A :=
  fun w => (Ret (op (fs w)), w).

(** [r[k] = v] on the [dict] that [r] refers to. *)
Definition heap_setitem (r : loc) (k : string) (v : pyval) : M world unit :=
  fun w => match heap w !! r with
           | Some d => (Ret tt, set_heap (<[r := dict_set d k v]> (heap w)) w)
           | None => (Raise (Exn TypeError "object does not support item assignment"), w)
           end.

Definition heap_read (r : loc) : M world (dict pyval) :=
  fun w => match heap w !! r with
           | Some d => (Ret d, w)
           | None => (Raise (Exn TypeError "not a dict"), w)
           end.

(* ================================================================== *)
(** ** The numbering rule as the specification words it *)

Module Spec.

(** "[max(existing)+1], or [1] if none exist" *)
Definition max_plus_one (existing : list Z) : Z :=
  match existing with
  | [] => 1
  | v :: rest => foldr Z.max v rest + 1
  end.

(** The versions [N, ..., 1], newest first. *)
Fixpoint countdown (n : nat) : list Z :=
  match n with
  | O => []
  | S k => Z.of_nat (S k) :: countdown k
  end.

End Spec.

(* ================================================================== *)
(** ** class VersionManager *)

Module VersionManager.

Record t := Make { base_path : path }.

(** [str(Path.home() / "LgtFindr_maya")] for the home directory [home]. *)
Definition home_default (home : string) : string :=
  String.concat "/" (""  :: Path.of_string home ++ ["LgtFindr_maya"])%list.

(** [Path(x)]: [x] must be a [str]. *)
Definition Path_of (x : pyval) : outcome path :=
  match x with
  | PyStr s => Ret (Path.of_string s)
  | _ => Raise (Exn TypeError "expected str, bytes or os.PathLike object")
  end.

(** [__init__(self, base_path=None)] *)
Definition init (home : string) (base_path : option string) : M world t :=
  let default_path := match base_path with
                      | None => home_default home
                      | Some b => b
                      end in
  let env_path := (Path.of_string default_path ++ ["env.json"])%list in
  do env_exists <- fs_query (fun n => FS.exists_ n env_path);
  do custom_path <-
    (if env_exists then
       try_except
         (do c <- (do n <- fs_query id; lift (FS.read_file n env_path));
          do data <- lift (FS.json_load c);
          lift (py_get data "custom_path"))
         (fun e =>
            run print ("Warning: Could not read env.json: " ++ exn_msg e);
            ret PyNone)
     else ret PyNone);
  if truthy custom_path then
    do p <- lift (Path_of custom_path);
    let published_lights_path := p // "Published_lights" in
    run fs_update (fun n => FS.mkdir_p n published_lights_path);
    ret (Make published_lights_path)
  else
    let p := Path.of_string default_path in
    run fs_update (fun n => FS.mkdir_p n p);
    ret (Make p).

(** [custom_path] is absent, [null] or the empty string. *)
Definition no_custom_path (d : dict pyval) : Prop :=
  dict_get d "custom_path" = None
  \/ dict_get d "custom_path" = Some PyNone
  \/ dict_get d "custom_path" = Some (PyStr "").

(** The loop of [get_versions]: directories whose name [isdigit]. *)
Fixpoint version_numbers (items : list (string * FS.node)) : outcome (list Z) :=
  match items with
  | [] => Ret []
  | (name, item) :: items' =>
      if FS.node_is_dir item && Str.isdigit name then
        match Str.int name with
        | Raise e => Raise e
        | Ret v => match version_numbers items' with
                   | Raise e => Raise e
                   | Ret vs => Ret (v :: vs)
                   end
        end
      else version_numbers items'
  end.

(** [sorted(versions, reverse=True)] *)
Definition sorted_reverse (versions : list Z) : list Z :=
  @merge_sort Z (flip Z.le) (fun x y => decide (y <= x)%Z) versions.

(** [get_versions(self, asset_name)] *)
Definition get_versions (self : t) (asset_name : string) : M world (list Z) :=
  let asset_path := base_path self // asset_name in
  do asset_exists <- fs_query (fun n => FS.exists_ n asset_path);
  do versions <-
    (if asset_exists then
       do items <- (do n <- fs_query id; lift (FS.iterdir n asset_path));
       lift (version_numbers items)
     else ret []);
  ret (sorted_reverse versions).

(** [get_latest_version(self, asset_name)] *)
Definition get_latest_version (self : t) (asset_name : string) : M world (option Z) :=
  do versions <- get_versions self asset_name;
  ret (match versions with
       | v :: _ => Some v
       | [] => None
       end).

(** [latest or 0] *)
Definition or_zero (latest : option Z) : Z :=
  match latest with
  | Some v => if (v =? 0)%Z then 0 else v
  | None => 0
  end.

(** [create_new_version(self, asset_name)] *)
Definition create_new_version (self : t) (asset_name : string) : M world path :=
  let asset_path := base_path self // asset_name in
  run fs_update (fun n => FS.mkdir_p n asset_path);
  do latest <- get_latest_version self asset_name;
  let new_version := (or_zero latest + 1)%Z in
  let version_path := asset_path // Str.str new_version in
  run fs_update (fun n => FS.mkdir_p n version_path);
  ret version_path.

(** [get_version_path(self, asset_name, version)] *)
Definition get_version_path (self : t) (asset_name : string) (version : Z) : path :=
  base_path self // asset_name // Str.str version.

(** [json.dump(value, f, indent=2)] into the file just opened at [p]: when
    the value cannot be encoded the file keeps the text written so far. *)
Definition json_dump (value : pyval) (p : path) : M world unit :=
  match to_json value with
  | Ret j => fs_update (fun n => FS.write_file n p (FS.Document j))
  | Raise e => raise e
  end.

(** [publish_file(self, asset_name, file_data)]; [file_data] is the
    reference the caller passes, [now] is [datetime.now().isoformat()]. *)
Definition publish_file (now : string) (self : t) (asset_name : string)
    (file_data : loc) : M world bool :=
  try_except
    (do version_path <- create_new_version self asset_name;
     let file_path := version_path // (asset_name ++ ".json") in
     run heap_setitem file_data "_published" (PyStr now);
     run heap_setitem file_data "_asset_name" (PyStr asset_name);
     (* open(file_path, 'w'): the file exists, empty, from here on *)
     run fs_update (fun n => FS.write_file n file_path FS.Malformed);
     do d <- heap_read file_data;
     run json_dump (PyDict d) file_path;
     ret true)
    (fun e =>
       run print ("Error publishing file: " ++ exn_msg e);
       ret false).

(** [load_file(self, asset_name, version)] *)
Definition load_file (self : t) (asset_name : string) (version : Z)
    : M world (option pyval) :=
  try_except
    (let version_path := get_version_path self asset_name version in
     let file_path := version_path // (asset_name ++ ".json") in
     do file_exists <- fs_query (fun n => FS.exists_ n file_path);
     if file_exists then
       do c <- (do n <- fs_query id; lift (FS.read_file n file_path));
       do v <- lift (FS.json_load c);
       ret (Some v)
     else ret None)
    (fun e =>
       run print ("Error loading file: " ++ exn_msg e);
       ret None).

(** A caller publishing to one asset again and again; a request is the
    clock reading and the record it passes. *)
Fixpoint publish_each (self : t) (asset_name : string)
    (requests : list (string * loc)) : M world (list bool) :=
  match requests with
  | [] => ret []
  | (now, file_data) :: rest =>
      do ok <- publish_file now self asset_name file_data;
      do oks <- publish_each self asset_name rest;
      ret (ok :: oks)
  end.

(** The record as [publish_file] stamps it. *)
Definition stamped (now asset : string) (d : dict pyval) : dict pyval :=
  dict_set (dict_set d "_published" (PyStr now)) "_asset_name" (PyStr asset).

(** What the record file holds once [publish_file] is over. *)
Definition written (v : pyval) : FS.content :=
  match to_json v with
  | Ret j => FS.Document j
  | Raise _ => FS.Malformed
  end.

(** What [asset_path.mkdir(parents=True, exist_ok=True)] leaves: the asset
    directory with entries [m]. *)
Definition asset_dir (w : world) (self : t) (asset : string)
    (m : gmap string FS.node) : Prop :=
  exists n1, FS.mkdir_p (fs w) (base_path self // asset) = Ret n1
             /\ FS.lookup n1 (base_path self // asset) = Some (FS.Dir m).

(** The state of an asset that has been published to [k] times and holds
    nothing else. *)
Definition published_times (w : world) (self : t) (asset : string)
    (k : nat) : Prop :=
  exists m vs,
    FS.lookup (fs w) (base_path self // asset) = Some (FS.Dir m)
    /\ version_numbers (map_to_list m) = Ret vs
    /\ vs ≡ₚ Spec.countdown k
    /\ (forall s c, m !! s <> Some (FS.File c)).

(** A store in which a publish to [asset] can allocate its directory: the
    asset is new under an existing root, or it is a directory whose listing
    is [existing] and no regular file sits on the next version's name.
    [next] is the number the publish will get. *)
Definition publishable (w : world) (self : t) (asset : string) (next : Z) : Prop :=
  (FS.is_dir (fs w) (base_path self) = true
   /\ FS.exists_ (fs w) (base_path self // asset) = false
   /\ next = 1%Z)
  \/ (FS.is_dir (fs w) (base_path self // asset) = true
      /\ exists existing,
          get_versions self asset w = (Ret existing, w)
          /\ next = Spec.max_plus_one existing
          /\ FS.is_file (fs w) (base_path self // asset // Str.str next) = false).

End VersionManager.

(* ================================================================== *)
(** ** The scene API ([maya.cmds]) as the core uses it *)

Module Scene.

(** The four ways the applier creates a node. *)
Inductive creation :=
  | CreateNode (node_type name : string)  (** [cmds.createNode(t, name=n)] *)
  | DirectionalLight (name : string)      (** [cmds.directionalLight(name=n)] *)
  | PointLight (name : string)            (** [cmds.pointLight(name=n)] *)
  | SpotLight (name : string).            (** [cmds.spotLight(name=n)] *)

(** The [name=] argument of a creation call. *)
Definition requested_name (c : creation) : string :=
  match c with
  | CreateNode _ n | DirectionalLight n | PointLight n | SpotLight n => n
  end.

(** The calls that change the scene, as the core issues them, each with
    what it returned. *)
Inductive call :=
  | Create (c : creation) (result : outcome string)
  | SetAttr (attr_path : string) (args : list pyval) (type_kw : option string)
      (result : outcome unit)
  | Select (objects : list string) (result : outcome unit).

(** The scene behind the API: queries are functions of the scene, commands
    return the next scene and may raise.  [objects] is the finite set of
    names for which [cmds.objExists] answers [True]. *)
Class api (St : Type) := {
  objects : St -> gset string;
  listRelatives_shapes : St -> string -> outcome (option (list string));
  listRelatives_parent : St -> string -> outcome (option (list string));
  objectType : St -> string -> outcome string;
  listAttr_keyable : St -> string -> outcome (option (list string));
  listAttr : St -> list string -> outcome (option (list string));
  getAttr : St -> string -> outcome pyval;
  create : creation -> M St string;
  setAttr : string -> list pyval -> option string -> M St unit;
  select : list string -> M St unit
}.

(** [cmds.objExists(name)] *)
Definition objExists `{api St} (s : St) (name : string) : bool :=
  bool_decide (name ∈ objects s).

(** A run of the core against a scene: the scene, the commands issued so
    far (newest last) and what was printed. *)
Record session (St : Type) := Session {
  scene : St;
  calls : list call;
  printed : list string
}.
Arguments Session {St} _ _ _.
Arguments scene {St} _.
Arguments calls {St} _.
Arguments printed {St} _.

Section Session.
Context `{api St}.

(** Issue a command: it is run on the scene and recorded with its
    result. *)
Definition command {A} (c : outcome A -> call) (op : M St A) : M (session St) A :=
  fun st =>
    let (r, s') := op (scene st) in
    (r, Session s' (calls st ++ [c r]) (printed st)).

Definition query {A} (q : St -> outcome A) : M (session St) A :=
  fun st => (q (scene st), st).

Definition say (line : string) : M (session St) unit :=
  fun st => (Ret tt, Session (scene st) (calls st) (printed st ++ [line])).

End Session.

(** The names returned by the creation calls of a trace that made an
    object. *)
Fixpoint created_objects (cs : list call) : list string :=
  match cs with
  | [] => []
  | Create _ (Ret n) :: rest =>
      if bool_decide (n = "") then created_objects rest
      else n :: created_objects rest
  | _ :: rest => created_objects rest
  end.

Definition is_setattr (c : call) : bool :=
  match c with SetAttr _ _ _ _ => true | _ => false end.

(** The creation requests of a trace, in order. *)
Fixpoint creation_requests (cs : list call) : list creation :=
  match cs with
  | [] => []
  | Create c _ :: rest => c :: creation_requests rest
  | _ :: rest => creation_requests rest
  end.

End Scene.

(* ================================================================== *)
(** ** class LightFinderFunctions *)

Module LightFinderFunctions.

Import Scene.

(** One entry of [lights] in a record. *)
Record light_entry := LightEntry {
  le_name : string;
  le_type : string;
  le_attributes : dict pyval;
  le_transform : dict pyval
}.

(** The value stored for what [cmds.getAttr] returned: the branches under
    "Handle different data types", the same in the three loops. *)
Definition stored_value (attr_value : pyval) : pyval :=
  match attr_value with
  | PyList l | PyTuple l =>
      match l with
      | [x] => x
      | _ => PyList l
      end
  | _ => attr_value
  end.

(** [any(keyword in attr.lower() for keyword in [...])] *)
Definition is_transform_attr (attr : string) : bool :=
  existsb (fun keyword => Str.contains keyword (Str.lower attr))
    ["translate"; "rotate"; "scale"; "shear"].

(** [x or []] for the result of [cmds.listAttr]. *)
Definition or_empty (x : option (list string)) : list string :=
  match x with Some l => l | None => [] end.

Section Functions.
Context `{api St}.

(** One turn of a reading loop: [try: ... d[attr] = ... except: pass]. *)
Definition read_into (s : St) (node : string) (d : dict pyval) (attr : string)
    : dict pyval :=
  match getAttr s (node ++ "." ++ attr) with
  | Ret attr_value => dict_set d attr (stored_value attr_value)
  | Raise _ => d
  end.

Definition read_attributes (s : St) (node : string) (attrs : list string)
    (d : dict pyval) : dict pyval :=
  fold_left (read_into s node) attrs d.

(** [get_arnold_attributes(self, shapes)] *)
Definition get_arnold_attributes (s : St) (shapes : list string) : list string :=
  match shapes with
  | [] => []
  | _ => match listAttr s shapes with
         | Ret all_attrs => List.filter (Str.contains "ai") (or_empty all_attrs)
         | Raise _ => []
         end
  end.

(** The body of the loop of [collect_light_properties] for one light:
    [None] when the light adds nothing to [lights]. *)
Definition collect_light (s : St) (light : string) : option light_entry :=
  match listRelatives_shapes s light with
  | Ret (Some (shape :: rest)) =>
      let shapes := shape :: rest in
      match objectType s shape with
      | Raise _ => None
      | Ret shape_type =>
          match listAttr_keyable s light with
          | Raise _ => None
          | Ret transform_attrs =>
              let transform :=
                read_attributes s light
                  (List.filter is_transform_attr (or_empty transform_attrs)) [] in
              match listAttr_keyable s shape with
              | Raise _ => None
              | Ret all_attrs =>
                  let attributes := read_attributes s shape (or_empty all_attrs) [] in
                  let arnold_attrs := get_arnold_attributes s shapes in
                  let attributes := read_attributes s shape arnold_attrs attributes in
                  Some (LightEntry light shape_type attributes transform)
              end
          end
      end
  | _ => None
  end.

(** [collect_light_properties(self, lights)]: the [lights] list of the
    result. *)
Definition collect_light_properties (s : St) (lights : list string)
    : list light_entry :=
  omap (collect_light s) lights.

(** The [while cmds.objExists(light_name)] loop, for at most [fuel] tests;
    [existing] is the set of names for which [objExists] answers [True]. *)
Fixpoint unique_name_loop (fuel : nat) (existing : gset string) (name : string)
    (light_name : string) (counter : Z) : option string :=
  match fuel with
  | O => None
  | S fuel' =>
      if bool_decide (light_name ∈ existing)
      then unique_name_loop fuel' existing name
             (name ++ "_" ++ Str.str counter) (counter + 1)
      else Some light_name
  end.

(** The loop from [light_name = name], [counter = 1].  One more test than
    there are objects is always enough ([unique_name_loop_terminates]). *)
Definition unique_name (existing : gset string) (name : string) : string :=
  default name (unique_name_loop (S (size existing)) existing name name 1).

(** The [if]/[elif] cascade on the stored type. *)
Definition creation_for (light_type light_name : string) : creation :=
  if Str.contains "aiAreaLight" light_type then
    CreateNode "aiAreaLight" (light_name ++ "Shape")
  else if Str.contains "aiMesh" light_type then
    CreateNode "mesh" light_name
  else if Str.contains "directional" (Str.lower light_type) then
    DirectionalLight light_name
  else if Str.contains "point" (Str.lower light_type) then
    PointLight light_name
  else if Str.contains "spot" (Str.lower light_type) then
    SpotLight light_name
  else
    CreateNode "areaLight" light_name.

(** [cmds.setAttr(attr_path, *attr_value)] for a list, else
    [cmds.setAttr(attr_path, attr_value)]. *)
Definition setAttr_args (attr_value : pyval) : list pyval :=
  match attr_value with
  | PyList l => l
  | _ => [attr_value]
  end.

(** [light_transform + "." + attr_name]: [light_transform] may be [None]. *)
Definition attr_path_of (node : option string) (attr_name : string)
    : outcome string :=
  match node with
  | Some n => Ret (n ++ "." ++ attr_name)
  | None => Raise (Exn TypeError "unsupported operand type(s) for +")
  end.

Definition set_attribute (attr_path : string) (attr_value : pyval)
    (type_kw : option string) : M (session St) unit :=
  command (SetAttr attr_path (setAttr_args attr_value) type_kw)
          (setAttr attr_path (setAttr_args attr_value) type_kw).

(** One turn of the transform loop; the result is the new count. *)
Definition apply_transform_attr (light_transform : option string)
    (transform_applied : Z) (item : string * pyval) : M (session St) Z :=
  let (attr_name, attr_value) := item in
  try_except
    (do attr_path <- lift (attr_path_of light_transform attr_name);
     run set_attribute attr_path attr_value None;
     ret (transform_applied + 1)%Z)
    (fun e =>
       run say ("Warning: Could not set transform " ++ attr_name ++ ": " ++ exn_msg e);
       ret transform_applied).

(** One turn of the shape-attribute loop. *)
Definition apply_shape_attr (shape_node : string) (applied_count : Z)
    (item : string * pyval) : M (session St) Z :=
  let (attr_name, attr_value) := item in
  try_except
    (let attr_path := shape_node ++ "." ++ attr_name in
     try_except
       (run set_attribute attr_path attr_value None;
        ret (applied_count + 1)%Z)
       (fun _ =>
          try_except
            (match attr_value with
             | PyStr _ =>
                 run set_attribute attr_path attr_value (Some "string");
                 ret applied_count
             | _ =>
                 run say ("Skipped " ++ attr_name ++ ": unsupported attribute type");
                 ret applied_count
             end)
            (fun e2 =>
               run say ("Warning: Could not set " ++ attr_name ++ ": " ++ exn_msg e2);
               ret applied_count)))
    (fun e =>
       run say ("Error processing attribute " ++ attr_name ++ ": " ++ exn_msg e);
       ret applied_count).

(** A loop that threads a counter. *)
Fixpoint counting {A} (body : Z -> A -> M (session St) Z) (count : Z)
    (items : list A) : M (session St) Z :=
  match items with
  | [] => ret count
  | x :: rest => do count' <- body count x; counting body count' rest
  end.

(** The first element of a list that is neither [None] nor empty. *)
Definition first_of (x : option (list string)) : option string :=
  match x with
  | Some (a :: _) => Some a
  | _ => None
  end.

(** "Get the shape node": the node made is a transform with shapes, or it
    is the shape and its parent, if any, the transform. *)
Definition resolve_nodes (new_light : string)
    : M (session St) (string * option string) :=
  do shapes <- query (fun s => listRelatives_shapes s new_light);
  match first_of shapes with
  | None =>
      do light_transform <- query (fun s => listRelatives_parent s new_light);
      ret (new_light, first_of light_transform)
  | Some shape => ret (shape, Some new_light)
  end.

(** What follows [if new_light:]. *)
Definition finish_light (created_lights : list string) (light_data : light_entry)
    (new_light : string) : M (session St) (list string) :=
  do nodes <- resolve_nodes new_light;
  let shape_node := nodes.1 in
  let light_transform := nodes.2 in
  do transform_applied <-
    counting (apply_transform_attr light_transform) 0%Z (le_transform light_data);
  do applied_count <-
    counting (apply_shape_attr shape_node) 0%Z (le_attributes light_data);
  run say ("Created light '" ++ default shape_node light_transform
           ++ "' with " ++ Str.str transform_applied
           ++ " transform and " ++ Str.str applied_count
           ++ " shape attributes applied");
  ret (created_lights ++ [default shape_node light_transform])%list.

(** The body of the loop of [apply_light_properties] for one light;
    [created_lights] is threaded through. *)
Definition apply_light (created_lights : list string) (light_data : light_entry)
    : M (session St) (list string) :=
  try_except
    (let name := le_name light_data in
     let light_type := le_type light_data in
     do existing <- query (fun s => Ret (objects s));
     let light_name := unique_name existing name in
     try_except
       (let c := creation_for light_type light_name in
        do new_light <- command (Create c) (create c);
        if bool_decide (new_light = "") then ret created_lights
        else finish_light created_lights light_data new_light)
       (fun e =>
          run say ("Warning: Failed to create light " ++ light_name ++ ": " ++ exn_msg e);
          ret created_lights))
    (fun e =>
       run say ("Error processing light data: " ++ exn_msg e);
       ret created_lights).

(** The [for light_data in ...] loop. *)
Fixpoint apply_lights (created_lights : list string) (lights : list light_entry)
    : M (session St) (list string) :=
  match lights with
  | [] => ret created_lights
  | light_data :: rest =>
      do created_lights' <- apply_light created_lights light_data;
      apply_lights created_lights' rest
  end.

(** [apply_light_properties(self, properties)]; [lights] is
    [properties.get("lights", [])] of a record that follows the data model. *)
Definition apply_light_properties (lights : list light_entry)
    : M (session St) bool :=
  try_except
    (do created_lights <- apply_lights [] lights;
     match created_lights with
     | [] => ret false
     | _ =>
         run command (Select created_lights) (select created_lights);
         ret true
     end)
    (fun e =>
       run say ("Error applying properties: " ++ exn_msg e);
       ret false).

(** The contract the applier relies on: the scene answers when asked for
    the shapes and the parent of a node it has just made. *)
Definition relatives_answer : Prop :=
  forall c s n s',
    create c s = (Ret n, s') -> n <> "" ->
    (exists r1, listRelatives_shapes s' n = Ret r1)
    /\ (exists r2, listRelatives_parent s' n = Ret r2).

(** Running something that returns and only sets attributes. *)
Definition sets_attributes_only {A} (m : M (session St) A) : Prop :=
  forall st, exists a st' more,
    m st = (Ret a, st') /\ calls st' = (calls st ++ more)%list
    /\ forallb is_setattr more = true.

End Functions.

(** The applier's type rule as the specification words it: an ordered
    table, first match wins. *)
Inductive pattern :=
  | Contains (needle : string)
  | ContainsAnyCase (needle : string).

Definition matches (p : pattern) (light_type : string) : bool :=
  match p with
  | Contains needle => Str.contains needle light_type
  | ContainsAnyCase needle => Str.contains needle (Str.lower light_type)
  end.

Definition rule_table : list (pattern * (string -> creation)) :=
  [ (Contains "aiAreaLight", fun n => CreateNode "aiAreaLight" (n ++ "Shape"));
    (Contains "aiMesh", CreateNode "mesh");
    (ContainsAnyCase "directional", DirectionalLight);
    (ContainsAnyCase "point", PointLight);
    (ContainsAnyCase "spot", SpotLight) ].

Fixpoint first_match (rules : list (pattern * (string -> creation)))
    (fallback : string -> creation) (light_type light_name : string) : creation :=
  match rules with
  | [] => fallback light_name
  | (p, action) :: rest =>
      if matches p light_type then action light_name
      else first_match rest fallback light_type light_name
  end.

(** The [k]-th name the collision loop tries: [name], [name_1], ... *)
Definition candidate (name : string) (k : nat) : string :=
  match k with
  | O => name
  | S _ => name ++ "_" ++ Str.str (Z.of_nat k)
  end.

End LightFinderFunctions.

(* ================================================================== *)
(** ** A small scene, to run the core on *)

Module ToyScene.

Import Scene.

Record node_info := NodeInfo {
  node_type : string;
  parent : option string;
  shapes : list string;
  keyable : list string;     (** what [listAttr(keyable=True)] gives *)
  attrs : list string        (** what [listAttr] gives *)
}.

(** Nodes by name, attribute values by ["node.attr"], attributes that
    refuse a value, the plug-in node types that can be created, and the
    selection. *)
Record t := Make {
  nodes : gmap string node_info;
  values : gmap string pyval;
  locked : gset string;
  plugin_types : gset string;
  selection : list string
}.

Definition no_object (name : string) : exn :=
  Exn ValueError ("No object matches name: " ++ name).

Definition non_empty (l : list string) : option (list string) :=
  match l with [] => None | _ => Some l end.

Definition node_query {A} (s : t) (name : string) (f : node_info -> A) : outcome A :=
  match nodes s !! name with
  | Some nd => Ret (f nd)
  | None => Raise (no_object name)
  end.

Fixpoint all_attrs (s : t) (names : list string) : outcome (list string) :=
  match names with
  | [] => Ret []
  | n :: rest =>
      match nodes s !! n, all_attrs s rest with
      | Some nd, Ret l => Ret (attrs nd ++ l)%list
      | None, _ => Raise (no_object n)
      | _, Raise e => Raise e
      end
  end.

Definition add_node (name : string) (nd : node_info) (s : t) : t :=
  Make (<[name := nd]> (nodes s)) (values s) (locked s) (plugin_types s) (selection s).

Definition builtin_types : list string :=
  ["mesh"; "areaLight"; "transform"; "directionalLight"; "pointLight"; "spotLight"].

(** A light command makes the transform [name] and the shape [nameShape],
    and returns the shape. *)
Definition make_light (shape_type name : string) : M t string :=
  fun s =>
    if bool_decide (name ∈ dom (nodes s)) || bool_decide ((name ++ "Shape")%string ∈ dom (nodes s))
    then (Raise (Exn RuntimeError ("name is taken: " ++ name)), s)
    else (Ret (name ++ "Shape")%string,
          add_node (name ++ "Shape") (NodeInfo shape_type (Some name) [] [] [])
            (add_node name (NodeInfo "transform" None [(name ++ "Shape")%string] [] []) s)).

(** [createNode] makes the one node it is asked for. *)
Definition make_node (type name : string) : M t string :=
  fun s =>
    if negb (bool_decide (type ∈ builtin_types)) && negb (bool_decide (type ∈ plugin_types s))
    then (Raise (Exn RuntimeError ("Unknown object type: " ++ type)), s)
    else if bool_decide (name ∈ dom (nodes s))
    then (Raise (Exn RuntimeError ("name is taken: " ++ name)), s)
    else (Ret name, add_node name (NodeInfo type None [] [] []) s).

Definition toy_create (c : creation) : M t string :=
  match c with
  | CreateNode type name => make_node type name
  | DirectionalLight name => make_light "directionalLight" name
  | PointLight name => make_light "pointLight" name
  | SpotLight name => make_light "spotLight" name
  end.

Definition toy_setAttr (attr_path : string) (args : list pyval)
    (type_kw : option string) : M t unit :=
  fun s =>
    if bool_decide (attr_path ∈ locked s)
    then (Raise (Exn RuntimeError ("setAttr: cannot set " ++ attr_path)), s)
    else (Ret tt,
          Make (nodes s)
               (<[attr_path := match args with [v] => v | _ => PyList args end]> (values s))
               (locked s) (plugin_types s) (selection s)).

Definition toy_select (names : list string) : M t unit :=
  fun s =>
    if forallb (fun n => bool_decide (n ∈ dom (nodes s))) names
    then (Ret tt, Make (nodes s) (values s) (locked s) (plugin_types s) names)
    else (Raise (Exn ValueError "No object matches name"), s).

#[export] Instance toy_api : api t := {
  objects s := dom (nodes s);
  listRelatives_shapes s name := node_query s name (fun nd => non_empty (shapes nd));
  listRelatives_parent s name :=
    node_query s name (fun nd => match parent nd with
                                 | Some p => Some [p]
                                 | None => None
                                 end);
  objectType s name := node_query s name node_type;
  listAttr_keyable s name := node_query s name (fun nd => non_empty (keyable nd));
  listAttr s names := match all_attrs s names with
                      | Ret l => Ret (non_empty l)
                      | Raise e => Raise e
                      end;
  getAttr s attr_path := match values s !! attr_path with
                         | Some v => Ret v
                         | None => Raise (no_object attr_path)
                         end;
  create := toy_create;
  setAttr := toy_setAttr;
  select := toy_select
}.

Definition empty : t := Make ∅ ∅ ∅ ∅ [].

(** A scene that already holds an object called [name]. *)
Definition with_object (name : string) (s : t) : t :=
  add_node name (NodeInfo "transform" None [] [] []) s.

(** A scene with the plug-in that provides the node type [type]. *)
Definition with_plugin (type : string) (s : t) : t :=
  Make (nodes s) (values s) (locked s) ({[type]} ∪ plugin_types s) (selection s).

(** A scene in which [attr_path] reads as [v]. *)
Definition with_value (attr_path : string) (v : pyval) (s : t) : t :=
  Make (nodes s) (<[attr_path := v]> (values s)) (locked s) (plugin_types s)
       (selection s).

Definition start (s : t) : session t := Session s [] [].

(** One point light: [translateX] reads [5.0], [scale] reads [(1, 1, 1)],
    the shape has a keyable [intensity] that reads [[2.0]] and an Arnold
    attribute [aiExposure]. *)
Definition studio : t :=
  with_value "key.translateX" (PyFloat "5.0")
    (with_value "key.scale" (PyTuple [PyFloat "1.0"; PyFloat "1.0"; PyFloat "1.0"])
       (with_value "keyShape.intensity" (PyList [PyFloat "2.0"])
          (with_value "keyShape.aiExposure" (PyFloat "1.5")
             (add_node "key"
                (NodeInfo "transform" None ["keyShape"]
                   ["visibility"; "translateX"; "scale"] ["visibility"])
                (add_node "keyShape"
                   (NodeInfo "pointLight" (Some "key") [] ["intensity"]
                      ["intensity"; "aiExposure"; "caching"])
                   empty))))).

End ToyScene.

(* ================================================================== *)
(** ** Stores and records to run the store on *)

Module Examples.

Import VersionManager.

Definition store : t := Make ["store"].

Definition record : dict pyval :=
  [("lights", PyList [PyDict [("name", PyStr "key1"); ("type", PyStr "pointLight");
                              ("attributes", PyDict [("intensity", PyFloat "2.0")]);
                              ("transform", PyDict [("translateX", PyFloat "5.0")])]]);
   ("description", PyStr "first pass");
   ("_asset_name", PyStr "stale")].

(** A record that [json.dump] cannot encode. *)
Definition bad_record : dict pyval :=
  [("lights", PyList []); ("selection", PyObject "set")].

Definition file_tree (entries : list (string * FS.node)) : FS.node :=
  FS.Dir (list_to_map entries).

(** An empty store; the caller holds [record] at 1 and [bad_record] at 2. *)
Definition new_store : world :=
  World (file_tree [("store", file_tree [])])
        (list_to_map [(1%positive, record); (2%positive, bad_record)]) [].

(** The asset [rig] with versions 1, 3 and 5, a directory that is not a
    version, and a stray record file. *)
Definition rig_135 : world :=
  World (file_tree
           [("store",
             file_tree
               [("rig",
                 file_tree [("1", file_tree []); ("3", file_tree []);
                            ("5", file_tree [("rig.json", FS.File FS.Malformed)]);
                            ("notes", file_tree []);
                            ("9", FS.File FS.Malformed)])])])
        (list_to_map [(1%positive, record)]) [].

(** A store whose [env.json] redirects to [/mnt/show]. *)
Definition redirected : world :=
  World (file_tree
           [("home",
             file_tree
               [("u",
                 file_tree
                   [("LgtFindr_maya",
                     file_tree
                       [("env.json",
                         FS.File (FS.Document
                                    (JObj [("custom_path", JStr "/mnt/show")])))])])])])
        ∅ [].

(** The same with an [env.json] that is not JSON. *)
Definition broken_env : world :=
  World (file_tree
           [("home",
             file_tree
               [("u",
                 file_tree
                   [("LgtFindr_maya",
                     file_tree [("env.json", FS.File FS.Malformed)])])])])
        ∅ [].

(** The superscript two: a digit for [isdigit], not for [int]. *)
Definition superscript_two : string := String (ascii_of_nat 178) "".

(** An asset with version 1 and a directory called superscript two. *)
Definition with_superscript : world :=
  World (file_tree
           [("store",
             file_tree [("rig", file_tree [("1", file_tree []);
                                           (superscript_two, file_tree [])])])])
        (list_to_map [(1%positive, record)]) [].

(** An asset with version 1 and a regular file called [2]. *)
Definition blocked_by_file : world :=
  World (file_tree
           [("store",
             file_tree [("rig", file_tree [("1", file_tree []);
                                           ("2", FS.File FS.Malformed)])])])
        (list_to_map [(1%positive, record)]) [].

(** An override record whose [custom_path] is a number. *)
Definition numeric_override : world :=
  World (file_tree
           [("store",
             file_tree [("env.json",
                         FS.File (FS.Document (JObj [("custom_path", JInt 5)])))])])
        ∅ [].

(** A record file outside the store. *)
Definition outside_record : world :=
  World (file_tree [("x.json", FS.File (FS.Document (JObj [("lights", JArr [])])));
                    ("store", file_tree [])])
        ∅ [].

End Examples.

(* ================================================================== *)
(** ** The rest of class VersionManager *)

Module Listing.

Import VersionManager.

(** [a <= b] for two [str]: code point by code point, a prefix first. *)
Fixpoint str_leb (a b : string) : bool :=
  match a, b with
  | EmptyString, _ => true
  | String _ _, EmptyString => false
  | String x a', String y b' =>
      if (Str.code x <? Str.code y)%N then true
      else if (Str.code x =? Str.code y)%N then str_leb a' b'
      else false
  end.

Definition str_le (a b : string) : Prop := str_leb a b = true.

(** [sorted(assets)] *)
Definition sorted_names (assets : list string) : list string :=
  @merge_sort string str_le (fun a b => decide (str_leb a b = true)) assets.

(** A name [iterdir] can give for an entry: one path segment other than
    [..], which names the parent and is never listed. *)
Definition entry_name (s : string) : bool :=
  Path.plain_name s && negb (bool_decide (s = "..")).

(** The loop of [get_all_assets]: the names of the entries that are
    directories. *)
Fixpoint directory_names (items : list (string * FS.node)) : list string :=
  match items with
  | [] => []
  | (name, item) :: rest =>
      if FS.node_is_dir item then name :: directory_names rest
      else directory_names rest
  end.

(** [get_all_assets(self)] *)
Definition get_all_assets (self : t) : M world (list string) :=
  do base_exists <- fs_query (fun n => FS.exists_ n (base_path self));
  do assets <-
    (if base_exists then
       do items <- (do n <- fs_query id; lift (FS.iterdir n (base_path self)));
       ret (directory_names items)
     else ret []);
  ret (sorted_names assets).

End Listing.

(* ================================================================== *)
(** ** Paths that part ways *)

Module Frame.

(** [r] leaves [p] at some segment: after a common start they go on with
    different names. *)
Definition diverges (r p : path) : Prop :=
  exists common a b r' p',
    r = (common ++ a :: r')%list /\ p = (common ++ b :: p')%list /\ a <> b.

(** A computation that leaves the file tree as it was outside [p]. *)
Definition keeps_outside {A} (p : path) (m : M world A) : Prop :=
  forall w r, diverges r p -> FS.lookup (fs (m w).2) r = FS.lookup (fs w) r.

End Frame.

(* ================================================================== *)
(** ** A store with several assets *)

Module Shelf.

Import VersionManager Examples.

(** What the asset [rig] of [rig_135] holds. *)
Definition rig_entries : list (string * FS.node) :=
  [("1", file_tree []); ("3", file_tree []);
   ("5", file_tree [("rig.json", FS.File FS.Malformed)]);
   ("notes", file_tree []); ("9", FS.File FS.Malformed)].

(** A root with three assets, an override record and a stray file. *)
Definition shelf_entries : list (string * FS.node) :=
  [("rig", file_tree [("1", file_tree
                              [("rig.json",
                                FS.File (FS.Document (JObj [("lights", JArr [])])))])]);
   ("Car", file_tree []);
   ("bike", file_tree [("2", file_tree [])]);
   ("env.json", FS.File (FS.Document (JObj [("custom_path", JStr "/mnt/show")])));
   ("readme", FS.File FS.Malformed)].

Definition shelf : world :=
  World (file_tree [("store", file_tree shelf_entries)])
        (list_to_map [(1%positive, record); (2%positive, bad_record)]) [].



End Shelf.

(* ================================================================== *)
(** ** class LightFinderWindow: the store root and the asset lists *)

Module LightFinderWindow.

Import VersionManager.

(** A message box that was shown. *)
Inductive box :=
  | Warning (title text : string)
  | Information (title text : string).

Record t := Make { version_manager : VersionManager.t }.

(** What the window runs on: the store, the two widgets that list the
    assets, and the boxes shown so far (newest last). *)
Record gui := Gui {
  store : world;
  loader_list : list string;
  pub_name_combo : list string;
  shown : list box
}.

(** A call into the store from the window. *)
Definition in_store {A} (m : M world A) : M gui A :=
  fun g =>
    let (r, w) := m (store g) in
    (r, Gui w (loader_list g) (pub_name_combo g) (shown g)).

(** [QMessageBox.warning(self, title, text)] and the like. *)
Definition show (b : box) : M gui unit :=
  modify (fun g => Gui (store g) (loader_list g) (pub_name_combo g) (shown g ++ [b])).

(** [self.loader_list.clear()] and [self.pub_name_combo.clear()] *)
Definition clear_lists : M gui unit :=
  modify (fun g => Gui (store g) [] [] (shown g)).

(** One turn of the loop of [refresh_assets]. *)
Definition add_asset (asset : string) : M gui unit :=
  modify (fun g => Gui (store g) (loader_list g ++ [asset])
                       (pub_name_combo g ++ [asset]) (shown g)).

Fixpoint add_assets (assets : list string) : M gui unit :=
  match assets with
  | [] => ret tt
  | asset :: rest => run add_asset asset; add_assets rest
  end.

(** [refresh_assets(self)] *)
Definition refresh_assets (self : t) : M gui unit :=
  run clear_lists;
  do assets <- in_store (Listing.get_all_assets (version_manager self));
  add_assets assets.

(** [str(p)] for a path. *)
Definition str_of_path (p : path) : string :=
  match p with
  | [] => "/"
  | _ => String.concat "/" ("" :: p)
  end.

Fixpoint ends_with_slash (s : string) : bool :=
  match s with
  | EmptyString => false
  | String c EmptyString => bool_decide (c = "/"%char)
  | String _ s' => ends_with_slash s'
  end.

(** [os.path.join(a, b)] for a [b] that does not start with a slash. *)
Definition os_path_join (a b : string) : string :=
  if bool_decide (a = "") then b
  else if ends_with_slash a then a ++ b
  else a ++ "/" ++ b.

(** [set_custom_path(self)]; [reply] is what [QInputDialog.getText]
    returns: the text and whether the dialog was accepted. *)
Definition set_custom_path (self : t) (reply : string * bool) : M gui unit :=
  let default_path := str_of_path (base_path (version_manager self)) in
  let '(new_path, ok) := reply in
  if ok && negb (bool_decide (new_path = "")) then
    let env_path := Path.of_string (os_path_join default_path "env.json") in
    run try_except
      (in_store
         ((* open(env_path, "w"): the file exists, empty, from here on *)
          run fs_update (fun n => FS.write_file n env_path FS.Malformed);
          json_dump (PyDict [("custom_path", PyStr new_path)]) env_path))
      (fun e => show (Warning "Error" ("Failed to save custom path: " ++ exn_msg e)));
    refresh_assets self
  else ret tt.

(** How much of a tree a reader at [p] can see: nothing, a directory, or a
    file with its content. *)
Definition seen (n : FS.node) (p : path) : option (option FS.content) :=
  match FS.lookup n p with
  | Some (FS.File c) => Some (Some c)
  | Some (FS.Dir _) => Some None
  | None => None
  end.

(** The override record that [VersionManager.__init__] reads when the
    window is opened for the home directory [home]. *)
Definition startup_env (home : string) : path :=
  (Path.of_string (home_default home) ++ ["env.json"])%list.

End LightFinderWindow.

(* ================================================================== *)
(** ** [get_selected_lights] *)

Module Selection.

Import Scene LightFinderFunctions.

Section Selection.
Context `{api St}.

(** The inner loop of [get_selected_lights]: is there, before any shape
    whose type cannot be read, a shape whose type names a light? *)
Fixpoint has_light_shape (s : St) (shapes : list string) : outcome bool :=
  match shapes with
  | [] => Ret false
  | shape :: rest =>
      match objectType s shape with
      | Raise e => Raise e
      | Ret shape_type =>
          if Str.contains "light" (Str.lower shape_type) then Ret true
          else has_light_shape s rest
      end
  end.

(** The outer loop. *)
Fixpoint selected_lights (s : St) (selected : list string) (lights : list string)
    : outcome (list string) :=
  match selected with
  | [] => Ret lights
  | obj :: rest =>
      match listRelatives_shapes s obj with
      | Raise e => Raise e
      | Ret shapes =>
          match has_light_shape s (or_empty shapes) with
          | Raise e => Raise e
          | Ret true => selected_lights s rest (lights ++ [obj])
          | Ret false => selected_lights s rest lights
          end
      end
  end.

(** [get_selected_lights(self)]; [selection] is what
    [cmds.ls(selection=True)] returns. *)
Definition get_selected_lights (s : St) (selection : outcome (list string))
    : list string :=
  match selection with
  | Raise _ => []
  | Ret selected =>
      match selected_lights s selected [] with
      | Ret lights => lights
      | Raise _ => []
      end
  end.

End Selection.

End Selection.

(* ================================================================== *)
(** ** Windows on small stores *)

Module WindowExamples.

Import VersionManager Examples LightFinderWindow.

(** The window of a store at its default place, with one asset. *)
Definition home_window : LightFinderWindow.t :=
  LightFinderWindow.Make (VersionManager.Make ["home"; "u"; "LgtFindr_maya"]).

Definition home_gui : gui :=
  Gui (World (file_tree
                [("home",
                  file_tree
                    [("u", file_tree
                             [("LgtFindr_maya",
                               file_tree [("rig", file_tree [])])])])])
             ∅ [])
      [] [] [].

(** The window of the store that [redirected] sends to [/mnt/show]. *)
Definition moved_window : LightFinderWindow.t :=
  LightFinderWindow.Make (VersionManager.Make ["mnt"; "show"; "Published_lights"]).

Definition moved_gui : gui :=
  Gui (init "/home/u" None redirected).2 [] [] [].

End WindowExamples.

(* ================================================================== *)
(** ** The objects the applier counts *)

Module Counted.

Import Scene LightFinderFunctions.


Section Counted.
Context `{api St}.



End Counted.

End Counted.

(* ================================================================== *)
(** ** Records as the codec sees them *)

Module Snapshot.





End Snapshot.

(* ================================================================== *)
(** * Properties *)

(** ** Decimal numerals: [str] and [int] *)

Section Numerals.

Local Ltac digit_cases d IH :=
  induction d as [|d IH|d IH|d IH|d IH|d IH|d IH|d IH|d IH|d IH|d IH].

Lemma all_digits_uint (d : Decimal.uint) :
  Str.all_chars Str.is_ascii_digit (NilEmpty.string_of_uint d) = true.
Proof. digit_cases d IH; simpl; auto. Qed.

Lemma int_acc_pos (d : Decimal.uint) (acc : positive) :
  Str.int_acc (Z.pos acc) (NilEmpty.string_of_uint d)
  = Some (Z.pos (Pos.of_uint_acc d acc)).
Proof.
  revert acc; digit_cases d IH; intros acc; simpl; [done|..];
    rewrite <- IH; f_equal; unfold Str.digit_val, Str.code;
    simpl N_of_ascii; lia.
Qed.

Lemma int_acc_zero (d : Decimal.uint) :
  Str.int_acc 0 (NilEmpty.string_of_uint d) = Some (Z.of_N (Pos.of_uint d)).
Proof.
  digit_cases d IH; simpl; [done|apply IH|..]; apply int_acc_pos.
Qed.

Lemma to_uint_nonnil (n : N) : N.to_uint n <> Decimal.Nil.
Proof. destruct n; [done|apply DecimalPos.Unsigned.to_uint_nonnil]. Qed.

Lemma str_nonneg (z : Z) :
  (0 <= z)%Z -> Str.str z = NilEmpty.string_of_uint (N.to_uint (Z.to_N z)).
Proof.
  intros Hz. unfold Str.str, NilZero.string_of_uint.
  pose proof (to_uint_nonnil (Z.to_N z)) as Hn.
  destruct z; [done| |lia]; destruct (N.to_uint _); done.
Qed.

Lemma str_nonempty (z : Z) : Str.str z <> "".
Proof.
  destruct z as [|p|p]; [done| |done].
  rewrite str_nonneg by lia. pose proof (to_uint_nonnil (Z.to_N (Z.pos p))).
  destruct (N.to_uint _); done.
Qed.

Lemma all_digits_str (z : Z) :
  (0 <= z)%Z -> Str.all_chars Str.is_ascii_digit (Str.str z) = true.
Proof. intros. rewrite str_nonneg by done. apply all_digits_uint. Qed.

Lemma all_chars_impl (p q : ascii -> bool) (s : string) :
  (forall c, p c = true -> q c = true) ->
  Str.all_chars p s = true -> Str.all_chars q s = true.
Proof.
  intros Hpq. induction s as [|c s IH]; simpl; [done|].
  intros [? ?]%andb_true_iff. rewrite Hpq, IH; done.
Qed.

(** The name of a version directory is a digit string... *)
Lemma isdigit_str (z : Z) : (0 <= z)%Z -> Str.isdigit (Str.str z) = true.
Proof.
  intros Hz. pose proof (str_nonempty z) as Hne.
  pose proof (all_digits_str z Hz) as Hall.
  unfold Str.isdigit. destruct (Str.str z); [done|].
  eapply all_chars_impl; [|done].
  intros c Hc. unfold Str.isdigit_char. by rewrite Hc.
Qed.

(** ... that [int] reads back. *)
Lemma int_str (z : Z) : (0 <= z)%Z -> Str.int (Str.str z) = Ret z.
Proof.
  intros Hz. pose proof (str_nonempty z) as Hne. unfold Str.int.
  destruct (Str.str z) eqn:Hs; [done|]. rewrite <- Hs.
  rewrite str_nonneg by done. rewrite int_acc_zero.
  change (Pos.of_uint ?d) with (N.of_uint d).
  rewrite DecimalN.Unsigned.of_to. f_equal. lia.
Qed.

Lemma str_inj (x y : Z) :
  (0 <= x)%Z -> (0 <= y)%Z -> Str.str x = Str.str y -> x = y.
Proof.
  intros Hx Hy Heq. pose proof (int_str x Hx) as H1.
  rewrite Heq, (int_str y Hy) in H1. congruence.
Qed.

End Numerals.

(** ** Paths *)

Section Paths.

Lemma contains_slash (s : string) :
  Str.contains "/" s = negb (Str.all_chars Str.not_slash s).
Proof.
  induction s as [|c s IH]; [done|].
  cbn [Str.contains Str.starts_with Str.all_chars]. rewrite IH.
  unfold Str.not_slash. destruct s; simpl;
    repeat case_bool_decide; simplify_eq; done.
Qed.

Lemma append_cons (c : ascii) (a b : string) :
  String c a ++ b = String c (a ++ b).
Proof. reflexivity. Qed.

Lemma append_nil_l (b : string) : "" ++ b = b.
Proof. reflexivity. Qed.

Lemma string_app_assoc (a b c : string) : (a ++ b) ++ c = a ++ (b ++ c).
Proof.
  induction a as [|x a IH]; [done|]. rewrite !append_cons. by rewrite IH.
Qed.

Lemma string_app_empty_r (a : string) : a ++ "" = a.
Proof. induction a as [|x a IH]; [done|]. rewrite append_cons. by rewrite IH. Qed.

Lemma all_chars_app (p : ascii -> bool) (a b : string) :
  Str.all_chars p (a ++ b) = Str.all_chars p a && Str.all_chars p b.
Proof.
  induction a as [|c a IH]; [done|]. rewrite append_cons. simpl.
  rewrite IH. by rewrite andb_assoc.
Qed.

Lemma split_no_slash (cur s : string) :
  Str.all_chars Str.not_slash s = true -> Str.split_slash cur s = [cur ++ s].
Proof.
  revert cur. induction s as [|c s IH]; intros cur; simpl.
  - by rewrite string_app_empty_r.
  - intros [Hc Hs]%andb_true_iff. unfold Str.not_slash in Hc.
    case_bool_decide; [done|]. rewrite IH by done.
    by rewrite string_app_assoc, append_cons, append_nil_l.
Qed.

Lemma of_string_plain (s : string) :
  Path.plain_name s = true -> Path.of_string s = [s].
Proof.
  unfold Path.plain_name, Path.of_string.
  intros [Hk Hs]%andb_true_iff. rewrite contains_slash, negb_involutive in Hs.
  rewrite split_no_slash, append_nil_l by done. simpl. by rewrite Hk.
Qed.

(** Joining a plain name appends one segment. *)
Lemma join_plain (p : path) (s : string) :
  Path.plain_name s = true -> p // s = (p ++ [s])%list.
Proof.
  intros Hp. unfold Path.join. rewrite of_string_plain by done.
  apply andb_true_iff in Hp as [Hk Hs].
  destruct s as [|c s]; [done|].
  rewrite contains_slash, negb_involutive in Hs. simpl in Hs.
  apply andb_true_iff in Hs as [Hc _]. unfold Str.not_slash in Hc.
  assert (Str.starts_with "/" (String c s) = false) as ->; [|done].
  simpl. rewrite andb_true_r. apply bool_decide_eq_false. intros <-.
  by apply negb_true_iff, bool_decide_eq_false in Hc.
Qed.

Lemma digit_not_slash (c : ascii) :
  Str.is_ascii_digit c = true -> Str.not_slash c = true.
Proof.
  unfold Str.not_slash. case_bool_decide; [subst; vm_compute; done|done].
Qed.

Lemma plain_name_str (z : Z) : (0 <= z)%Z -> Path.plain_name (Str.str z) = true.
Proof.
  intros Hz. unfold Path.plain_name, Path.keep_segment.
  pose proof (all_digits_str z Hz) as Hd.
  rewrite contains_slash, negb_involutive.
  rewrite (all_chars_impl _ _ _ digit_not_slash Hd).
  pose proof (str_nonempty z).
  repeat case_bool_decide; try done.
  exfalso. match goal with H : Str.str z = "." |- _ => rewrite H in Hd end.
  vm_compute in Hd. done.
Qed.

Lemma plain_name_json (s : string) :
  Path.plain_name s = true -> Path.plain_name (s ++ ".json") = true.
Proof.
  unfold Path.plain_name, Path.keep_segment.
  rewrite !contains_slash, !negb_involutive, all_chars_app.
  intros [_ ->]%andb_true_iff.
  destruct s as [|c [|c' s]]; simpl; repeat case_bool_decide; done.
Qed.

End Paths.

(** ** The file tree *)

Local Open Scope list_scope.

Section FileTree.

Implicit Types (n sub : FS.node) (p q whole : path) (m : gmap string FS.node).

Lemma lookup_app n p q :
  FS.lookup n (p ++ q) =
  match FS.lookup n p with Some c => FS.lookup c q | None => None end.
Proof.
  revert n. induction p as [|s p IH]; intros n; simpl; [done|].
  destruct n as [c|m]; [done|]. destruct (m !! s); [apply IH|done].
Qed.

(** [mkdir] below an existing node only changes the subtree at that node. *)
Lemma mkdir_at_app whole n p q sub :
  FS.lookup n p = Some sub ->
  match FS.mkdir_at whole sub q with
  | Ret sub' => exists n', FS.mkdir_at whole n (p ++ q) = Ret n'
                           /\ FS.lookup n' p = Some sub'
  | Raise e => FS.mkdir_at whole n (p ++ q) = Raise e
  end.
Proof.
  revert n. induction p as [|s p IH]; intros n Hl; simpl in *.
  - simplify_eq. destruct (FS.mkdir_at whole sub q); eauto.
  - destruct n as [c|m]; [done|]. destruct (m !! s) as [ch|] eqn:Hs; [|done].
    simpl. specialize (IH ch Hl).
    destruct (FS.mkdir_at whole sub q) as [sub'|e].
    + destruct IH as (n' & -> & Hn'). eexists; split; [done|].
      simpl. by rewrite lookup_insert_eq.
    + by rewrite IH.
Qed.

(** The same for writing a file. *)
Lemma write_at_app whole n p q sub c :
  FS.lookup n p = Some sub ->
  match FS.write_at whole sub q c with
  | Ret sub' => exists n', FS.write_at whole n (p ++ q) c = Ret n'
                           /\ FS.lookup n' p = Some sub'
  | Raise e => FS.write_at whole n (p ++ q) c = Raise e
  end.
Proof.
  revert n. induction p as [|s p IH]; intros n Hl; simpl in *.
  - simplify_eq. destruct (FS.write_at whole sub q c); eauto.
  - destruct n as [c0|m]; [done|]. destruct (m !! s) as [ch|] eqn:Hs; [|done].
    specialize (IH ch Hl).
    destruct (FS.write_at whole sub q c) as [sub'|e].
    + destruct IH as (n' & -> & Hn'). eexists; split; [done|].
      simpl. by rewrite lookup_insert_eq.
    + by rewrite IH.
Qed.

(** [mkdir(exist_ok=True)] on a directory that exists changes nothing. *)
Lemma mkdir_existing whole n p m :
  FS.lookup n p = Some (FS.Dir m) -> FS.mkdir_at whole n p = Ret n.
Proof.
  revert n. induction p as [|s p IH]; intros n Hl; simpl in *.
  - by simplify_eq.
  - destruct n as [c0|m0]; [done|]. destruct (m0 !! s) as [ch|] eqn:Hs; [|done].
    simpl. rewrite (IH ch Hl). by rewrite insert_id.
Qed.

(** What [mkdir] returns is a tree in which the path is a directory. *)
Lemma mkdir_at_is_dir whole n p n' :
  FS.mkdir_at whole n p = Ret n' -> FS.is_dir n' p = true.
Proof.
  unfold FS.is_dir. revert n n'. induction p as [|s p IH]; intros n n'; simpl.
  - destruct n; intros; simplify_eq; done.
  - destruct n as [c|m]; [done|].
    destruct (FS.mkdir_at whole _ p) as [ch|] eqn:Hm; [|done].
    intros; simplify_eq. simpl. rewrite lookup_insert_eq. eauto.
Qed.

End FileTree.

(** ** Listing the versions of an asset *)

Section Versions.

Import VersionManager.

Lemma int_acc_nonneg (s : string) (acc z : Z) :
  (0 <= acc)%Z -> Str.int_acc acc s = Some z -> (0 <= z)%Z.
Proof.
  revert acc. induction s as [|c s IH]; intros acc Hacc; simpl.
  - intros; simplify_eq; done.
  - destruct (Str.is_ascii_digit c) eqn:Hc; [|done]. apply IH.
    unfold Str.is_ascii_digit in Hc.
    apply andb_true_iff in Hc as [H1%N.leb_le H2%N.leb_le].
    unfold Str.digit_val. lia.
Qed.

Lemma int_nonneg (s : string) (z : Z) : Str.int s = Ret z -> (0 <= z)%Z.
Proof.
  unfold Str.int. destruct s; [done|].
  destruct (Str.int_acc 0 _) eqn:Hi; [|done].
  intros; simplify_eq. by eapply int_acc_nonneg.
Qed.

Lemma version_numbers_nonneg items vs :
  version_numbers items = Ret vs -> Forall (fun v => 0 <= v)%Z vs.
Proof.
  revert vs. induction items as [|[name item] items IH]; intros vs; simpl.
  - intros; simplify_eq; constructor.
  - destruct (FS.node_is_dir item && Str.isdigit name); [|by apply IH].
    destruct (Str.int name) as [v|] eqn:Hv; [|done].
    destruct (version_numbers items) as [vs'|]; [|done].
    intros; simplify_eq. constructor; [by eapply int_nonneg|by apply IH].
Qed.

(** The order in which the system lists a directory does not matter. *)
Lemma version_numbers_perm items items' vs :
  items ≡ₚ items' -> version_numbers items = Ret vs ->
  exists vs', version_numbers items' = Ret vs' /\ vs ≡ₚ vs'.
Proof.
  intros Hp. revert vs.
  induction Hp as [|[name item] l l' Hp IH|[n1 i1] [n2 i2] l|l1 l2 l3 _ IH1 _ IH2];
    intros vs; simpl.
  - eauto.
  - destruct (FS.node_is_dir item && Str.isdigit name); [|by apply IH].
    destruct (Str.int name) as [v|]; [|done].
    destruct (version_numbers l) as [vs0|]; [|done].
    intros; simplify_eq. destruct (IH _ eq_refl) as (vs' & -> & Hvs).
    eexists; split; [done|]. by constructor.
  - destruct (FS.node_is_dir i1 && Str.isdigit n1),
      (FS.node_is_dir i2 && Str.isdigit n2);
      repeat (match goal with
              | |- context [Str.int ?n] => destruct (Str.int n); [|done]
              | |- context [version_numbers ?n] =>
                  destruct (version_numbers n); [|done]
              end);
      intros; simplify_eq; eexists; split; try done. apply perm_swap.
  - intros H1. destruct (IH1 _ H1) as (vs1 & H2 & Hp1).
    destruct (IH2 _ H2) as (vs2 & H3 & Hp2).
    eexists; split; [done|]. by etrans.
Qed.

(** A directory with a digit name is listed under its number. *)
Lemma version_numbers_listed items vs name m :
  version_numbers items = Ret vs ->
  (name, FS.Dir m) ∈ items -> Str.isdigit name = true ->
  exists v, Str.int name = Ret v /\ v ∈ vs.
Proof.
  revert vs. induction items as [|[name' item] items IH]; intros vs; simpl.
  - intros _ Hin. by apply elem_of_nil in Hin.
  - intros Hv Hin Hd. apply elem_of_cons in Hin as [Heq|Hin].
    + simplify_eq. simpl in Hv. rewrite Hd in Hv.
      destruct (Str.int _) as [v|]; [|done].
      destruct (version_numbers items); [|done].
      simplify_eq. eexists; split; [done|]. by left.
    + destruct (FS.node_is_dir item && Str.isdigit name').
      * destruct (Str.int name') as [v'|]; [|done].
        destruct (version_numbers items) as [vs'|]; [|done].
        simplify_eq. destruct (IH _ eq_refl Hin Hd) as (v & ? & ?).
        exists v; split; [done|]. by right.
      * by apply IH.
Qed.

#[local] Instance flip_le_total : Total (flip Z.le).
Proof. intros x y. unfold flip. lia. Qed.
#[local] Instance flip_le_trans : Transitive (flip Z.le).
Proof. intros x y z. unfold flip. lia. Qed.
#[local] Instance flip_le_antisymm : AntiSymm eq (flip Z.le).
Proof. intros x y. unfold flip. lia. Qed.

Lemma sorted_reverse_sorted vs : StronglySorted (flip Z.le) (sorted_reverse vs).
Proof. apply (StronglySorted_merge_sort (flip Z.le)). Qed.

Lemma sorted_reverse_perm_self vs : sorted_reverse vs ≡ₚ vs.
Proof. apply (merge_sort_Permutation (flip Z.le)). Qed.

Lemma sorted_reverse_perm vs vs' :
  vs ≡ₚ vs' -> sorted_reverse vs = sorted_reverse vs'.
Proof.
  intros Hp. apply (StronglySorted_unique (flip Z.le));
    [apply sorted_reverse_sorted..|].
  by rewrite !sorted_reverse_perm_self.
Qed.

Lemma sorted_reverse_nil : sorted_reverse [] = [].
Proof. apply Permutation_nil_r. by rewrite sorted_reverse_perm_self. Qed.

(** The first element of the descending list is the greatest. *)
Lemma sorted_reverse_head vs h t :
  sorted_reverse vs = h :: t -> h ∈ vs /\ Forall (fun v => v <= h)%Z vs.
Proof.
  intros Hs. pose proof (sorted_reverse_sorted vs) as Hsorted.
  pose proof (sorted_reverse_perm_self vs) as Hp. rewrite Hs in Hsorted, Hp.
  split; [rewrite <- Hp; by left|]. rewrite <- Hp.
  apply StronglySorted_inv in Hsorted as [_ Ht].
  constructor; [lia|]. eapply Forall_impl; [done|]. unfold flip. auto.
Qed.

(** A number above all the others goes in front. *)
Lemma sorted_reverse_cons_max x vs :
  Forall (fun v => v <= x)%Z vs ->
  sorted_reverse (x :: vs) = x :: sorted_reverse vs.
Proof.
  intros Hx. apply (StronglySorted_unique (flip Z.le)).
  - apply sorted_reverse_sorted.
  - constructor; [apply sorted_reverse_sorted|].
    rewrite sorted_reverse_perm_self. eapply Forall_impl; [done|]. auto.
  - rewrite sorted_reverse_perm_self. constructor.
    by rewrite sorted_reverse_perm_self.
Qed.

End Versions.

(** ** Allocating a version *)

Section Allocation.

Import VersionManager.

Implicit Types (w : world) (self : t) (m : gmap string FS.node).

Lemma set_fs_same w : set_fs (fs w) w = w.
Proof. by destruct w. Qed.

Lemma get_versions_at self asset w m :
  FS.lookup (fs w) (base_path self // asset) = Some (FS.Dir m) ->
  get_versions self asset w =
  (match version_numbers (map_to_list m) with
   | Ret vs => Ret (sorted_reverse vs)
   | Raise e => Raise e
   end, w).
Proof.
  intros Hl. unfold get_versions, bind, fs_query, lift, ret, FS.exists_, FS.iterdir.
  simpl. rewrite Hl. simpl. rewrite Hl. by destruct (version_numbers _).
Qed.

Lemma get_versions_absent self asset w :
  FS.lookup (fs w) (base_path self // asset) = None ->
  get_versions self asset w = (Ret [], w).
Proof.
  intros Hl. unfold get_versions, bind, fs_query, lift, ret, FS.exists_.
  simpl. rewrite Hl. by rewrite sorted_reverse_nil.
Qed.

Lemma foldr_max_spec (v : Z) (l : list Z) :
  foldr Z.max v l ∈ v :: l /\ Forall (fun x => x <= foldr Z.max v l)%Z (v :: l).
Proof.
  induction l as [|a l [IHin IHall]]; simpl.
  - split; [by left|]. by constructor.
  - apply Forall_cons in IHall as [Hv Hl]. split.
    + destruct (Z.max_spec a (foldr Z.max v l)) as [[_ ->]|[_ ->]].
      * apply elem_of_cons in IHin as [->|?]; [by left|]. by do 2 right.
      * right; by left.
    + repeat constructor; [lia..|]. eapply Forall_impl; [done|]. simpl. lia.
Qed.

(** The number the code computes, [(latest or 0) + 1], is the one the
    specification names. *)
Lemma next_is_max_plus_one (vs : list Z) :
  Forall (fun v => 0 <= v)%Z vs ->
  (or_zero (head (sorted_reverse vs)) + 1)%Z = Spec.max_plus_one vs
  /\ Forall (fun v => v < or_zero (head (sorted_reverse vs)) + 1)%Z vs.
Proof.
  intros Hpos. destruct (sorted_reverse vs) as [|h t] eqn:Hs.
  - assert (vs = []) as ->; [|done].
    apply Permutation_nil_r. by rewrite <- (sorted_reverse_perm_self vs), Hs.
  - apply sorted_reverse_head in Hs as [Hin Hmax]. cbn [head].
    assert (or_zero (Some h) = h) as ->.
    { unfold or_zero. destruct (Z.eqb_spec h 0); congruence. }
    split; [|eapply Forall_impl; [done|]; simpl; lia].
    destruct vs as [|v rest]; [by apply elem_of_nil in Hin|]. simpl.
    destruct (foldr_max_spec v rest) as [Hfin Hfall].
    rewrite Forall_forall in Hmax, Hfall.
    specialize (Hmax _ Hfin). specialize (Hfall _ Hin). lia.
Qed.

Lemma asset_dir_existing w self asset m :
  FS.lookup (fs w) (base_path self // asset) = Some (FS.Dir m) ->
  asset_dir w self asset m.
Proof. intros Hl. exists (fs w). split; [by eapply mkdir_existing|done]. Qed.

Lemma asset_dir_fresh w self asset :
  FS.is_dir (fs w) (base_path self) = true ->
  Path.plain_name asset = true ->
  FS.lookup (fs w) (base_path self // asset) = None ->
  asset_dir w self asset ∅.
Proof.
  unfold FS.is_dir, asset_dir. intros Hb Hp Hl. rewrite join_plain in * by done.
  destruct (FS.lookup (fs w) (base_path self)) as [[c|mb]|] eqn:Hbase; [done| |done].
  rewrite lookup_app, Hbase in Hl. simpl in Hl.
  assert (mb !! asset = None) as Hfree by (by destruct (mb !! asset)).
  pose proof (mkdir_at_app (base_path self ++ [asset]) _ _ [asset] _ Hbase) as Hmk.
  simpl in Hmk. rewrite Hfree in Hmk. simpl in Hmk.
  destruct Hmk as (n' & Hmk & Hn'). exists n'. split; [done|].
  rewrite lookup_app, Hn'. simpl. by rewrite lookup_insert_eq.
Qed.

(** In an asset directory whose next name is not taken by a regular file,
    [create_new_version] makes the directory [max+1], which did not exist
    before. *)
Lemma create_new_version_at self asset w m vs :
  let asset_path := base_path self // asset in
  let next := Spec.max_plus_one vs in
  asset_dir w self asset m ->
  version_numbers (map_to_list m) = Ret vs ->
  (forall c, m !! Str.str next <> Some (FS.File c)) ->
  (1 <= next)%Z /\ Forall (fun v => v < next)%Z vs /\
  m !! Str.str next = None /\
  exists w', create_new_version self asset w = (Ret (asset_path ++ [Str.str next]), w')
    /\ FS.lookup (fs w') asset_path = Some (FS.Dir (<[Str.str next := FS.Dir ∅]> m))
    /\ heap w' = heap w /\ stdout w' = stdout w.
Proof.
  intros asset_path next (n1 & Hmk1 & Hl) Hvs Hfile.
  pose proof (version_numbers_nonneg _ _ Hvs) as Hpos.
  destruct (next_is_max_plus_one vs Hpos) as [Hnext Hlt]. fold next in Hnext.
  rewrite Hnext in Hlt.
  assert (1 <= next)%Z as Hge.
  { subst next. destruct vs as [|v rest]; simpl; [lia|].
    destruct (foldr_max_spec v rest) as [_ Hall].
    apply Forall_cons in Hall as [? _]. apply Forall_cons in Hpos as [? _]. lia. }
  assert (m !! Str.str next = None) as Hfree.
  { destruct (m !! Str.str next) as [[c|mx]|] eqn:Hm; [by destruct (Hfile c)| |done].
    exfalso. apply elem_of_map_to_list in Hm.
    destruct (version_numbers_listed _ _ _ _ Hvs Hm) as (v & Hv & Hin).
    { apply isdigit_str. lia. }
    rewrite int_str in Hv by lia. simplify_eq.
    rewrite Forall_forall in Hlt. specialize (Hlt _ Hin). lia. }
  do 3 (split; [done|]).
  unfold create_new_version, bind, fs_update, get_latest_version. fold asset_path.
  fold asset_path in Hmk1, Hl. rewrite Hmk1.
  unfold bind. rewrite (get_versions_at self asset (set_fs n1 w) m Hl), Hvs.
  unfold ret at 1.
  replace (match sorted_reverse vs with v :: _ => Some v | [] => None end)
    with (head (sorted_reverse vs)) by (by destruct (sorted_reverse vs)).
  rewrite Hnext. rewrite join_plain by (apply plain_name_str; lia).
  pose proof (mkdir_at_app (asset_path ++ [Str.str next]) n1 asset_path
                [Str.str next] _ Hl) as Hmk.
  simpl in Hmk. rewrite Hfree in Hmk. simpl in Hmk.
  destruct Hmk as (n' & Hmk & Hn'). unfold FS.mkdir_p. simpl fs. rewrite Hmk.
  eexists; split; [done|]. by destruct w.
Qed.

(** Adding the directory [k] to an asset adds the number [k] to its
    versions. *)
Lemma version_numbers_insert m vs k sub :
  version_numbers (map_to_list m) = Ret vs ->
  m !! Str.str k = None -> (0 <= k)%Z ->
  exists vs', version_numbers (map_to_list (<[Str.str k := FS.Dir sub]> m)) = Ret vs'
              /\ vs' ≡ₚ k :: vs.
Proof.
  intros Hvs Hfree Hk.
  assert (version_numbers ((Str.str k, FS.Dir sub) :: map_to_list m) = Ret (k :: vs)) as H1.
  { simpl. by rewrite isdigit_str, int_str, Hvs by done. }
  destruct (version_numbers_perm _ (map_to_list (<[Str.str k := FS.Dir sub]> m)) _
              (symmetry (map_to_list_insert m _ (FS.Dir sub) Hfree)) H1)
    as (vs' & Hvs' & Hp).
  exists vs'. split; [done|by symmetry].
Qed.

End Allocation.

(** ** Publishing and loading *)

Section Publishing.

Import VersionManager.

Implicit Types (w : world) (self : t) (m : gmap string FS.node) (d : dict pyval).

Lemma write_in_version whole asset_path n m v f sub c :
  FS.lookup n asset_path = Some (FS.Dir m) ->
  m !! v = Some (FS.Dir sub) ->
  (forall x, sub !! f <> Some (FS.Dir x)) ->
  exists n', FS.write_at whole n (asset_path ++ [v; f]) c = Ret n'
    /\ FS.lookup n' asset_path
       = Some (FS.Dir (<[v := FS.Dir (<[f := FS.File c]> sub)]> m)).
Proof.
  intros Hl Hv Hf.
  pose proof (write_at_app whole n asset_path [v; f] _ c Hl) as Hw.
  simpl in Hw. rewrite Hv in Hw.
  destruct (sub !! f) as [[c0|x]|] eqn:Hsub; simpl in Hw; [done| |done].
  by destruct (Hf x).
Qed.

Lemma publish_file_at now self asset r w m vs d :
  let asset_path := base_path self // asset in
  let next := Spec.max_plus_one vs in
  let d' := stamped now asset d in
  asset_dir w self asset m ->
  version_numbers (map_to_list m) = Ret vs ->
  (forall c, m !! Str.str next <> Some (FS.File c)) ->
  Path.plain_name asset = true ->
  heap w !! r = Some d ->
  exists w',
    publish_file now self asset r w
    = (Ret (match to_json (PyDict d') with Ret _ => true | Raise _ => false end), w')
    /\ heap w' = <[r := d']> (heap w)
    /\ FS.lookup (fs w') asset_path
       = Some (FS.Dir (<[Str.str next :=
                          FS.Dir (<[(asset ++ ".json")%string :=
                                     FS.File (written (PyDict d'))]> ∅)]> m))
    /\ stdout w' = stdout w ++
         match to_json (PyDict d') with
         | Ret _ => []
         | Raise e => [("Error publishing file: " ++ exn_msg e)%string]
         end.
Proof.
  intros asset_path next d' Hdir Hvs Hfile Hplain Hr.
  unfold written. remember (to_json (PyDict d')) as tj eqn:Htj.
  destruct (create_new_version_at self asset w m vs Hdir Hvs Hfile)
    as (Hge & _ & Hfree & w1 & Hcreate & Hl1 & Hh1 & Ho1).
  fold asset_path next in Hcreate, Hl1, Hfree.
  unfold publish_file, try_except, bind. rewrite Hcreate.
  destruct w1 as [n1 h1 o1]. simpl in Hl1, Hh1, Ho1. subst h1 o1.
  rewrite (join_plain _ _ (plain_name_json _ Hplain)), <- app_assoc. simpl app.
  unfold heap_setitem at 1. simpl heap. rewrite Hr.
  unfold heap_setitem at 1. simpl heap. rewrite lookup_insert_eq, insert_insert_eq.
  fold (stamped now asset d). fold d'.
  destruct (write_in_version (asset_path ++ [Str.str next; (asset ++ ".json")%string])
              asset_path n1 _ (Str.str next) (asset ++ ".json")%string ∅ FS.Malformed Hl1)
    as (n2 & Hw2 & Hl2).
  { by rewrite lookup_insert_eq. }
  { intros x. by rewrite lookup_empty. }
  rewrite insert_insert_eq in Hl2.
  unfold fs_update at 1, FS.write_file. simpl fs. rewrite Hw2.
  unfold heap_read, set_fs, set_heap. simpl. rewrite lookup_insert_eq.
  unfold json_dump. rewrite <- Htj.
  destruct tj as [j|e].
  - destruct (write_in_version (asset_path ++ [Str.str next; (asset ++ ".json")%string])
                asset_path n2 _ (Str.str next) (asset ++ ".json")%string
                (<[(asset ++ ".json")%string := FS.File FS.Malformed]> ∅)
                (FS.Document j) Hl2)
      as (n3 & Hw3 & Hl3).
    { by rewrite lookup_insert_eq. }
    { intros x. by rewrite lookup_insert_eq. }
    rewrite !insert_insert_eq in Hl3.
    unfold fs_update, FS.write_file, ret. simpl. rewrite Hw3. simpl.
    eexists; split; [done|]. simpl. by rewrite app_nil_r.
  - unfold raise, print, modify, ret. simpl.
    eexists; split; [done|]. done.
Qed.

End Publishing.

(** ** Dictionaries and the JSON codec *)

Section Codec.

Context {V : Type}.
Implicit Types (d : dict V) (k : string) (v : V).

Lemma dict_get_set_eq d k v : dict_get (dict_set d k v) k = Some v.
Proof.
  induction d as [|[k' v'] d IH]; simpl.
  - by rewrite bool_decide_eq_true_2.
  - case_bool_decide; simpl; [by rewrite bool_decide_eq_true_2|].
    by rewrite bool_decide_eq_false_2.
Qed.

Lemma dict_get_set_ne d k k' v :
  k <> k' -> dict_get (dict_set d k v) k' = dict_get d k'.
Proof.
  intros Hne. induction d as [|[k0 v0] d IH]; simpl.
  - by rewrite bool_decide_eq_false_2.
  - case_bool_decide; simpl; [subst|].
    + by rewrite !bool_decide_eq_false_2.
    + by rewrite IH.
Qed.






End Codec.

Section Roundtrip.

Import Snapshot.





(** ** Records with tuples *)


















End Roundtrip.

(** ** Version numbers over time *)

Section VersionHistory.

Import VersionManager.

Implicit Types (w : world) (self : t) (m : gmap string FS.node).

Lemma max_plus_one_perm (vs vs' : list Z) :
  Forall (fun v => 0 <= v)%Z vs -> vs ≡ₚ vs' ->
  Spec.max_plus_one vs = Spec.max_plus_one vs'.
Proof.
  intros Hpos Hp.
  assert (Forall (fun v => 0 <= v)%Z vs') as Hpos' by (by rewrite <- Hp).
  destruct (next_is_max_plus_one vs Hpos) as [<- _].
  destruct (next_is_max_plus_one vs' Hpos') as [<- _].
  by rewrite (sorted_reverse_perm _ _ Hp).
Qed.

Lemma countdown_bounds (k : nat) :
  Forall (fun v => 1 <= v <= Z.of_nat k)%Z (Spec.countdown k).
Proof.
  induction k as [|k IH]; [constructor|].
  cbn [Spec.countdown]. constructor; [lia|].
  eapply Forall_impl; [done|]. simpl. lia.
Qed.

Lemma max_plus_one_countdown (k : nat) :
  Spec.max_plus_one (Spec.countdown k) = (Z.of_nat k + 1)%Z.
Proof.
  destruct k as [|k]; [done|]. cbn [Spec.countdown Spec.max_plus_one].
  destruct (foldr_max_spec (Z.of_nat (S k)) (Spec.countdown k)) as [Hin Hall].
  apply Forall_cons in Hall as [Hge _].
  pose proof (countdown_bounds k) as Hb. rewrite Forall_forall in Hb.
  apply elem_of_cons in Hin as [->|Hin]; [done|].
  specialize (Hb _ Hin). lia.
Qed.

Lemma sorted_reverse_countdown (k : nat) :
  sorted_reverse (Spec.countdown k) = Spec.countdown k.
Proof.
  induction k as [|k IH]; [apply sorted_reverse_nil|].
  cbn [Spec.countdown]. rewrite sorted_reverse_cons_max, IH; [done|].
  eapply Forall_impl; [apply countdown_bounds|]. simpl. lia.
Qed.

(** After [create_new_version] the asset lists the new number first. *)
Lemma get_versions_after_create self asset w' m vs :
  let next := Spec.max_plus_one vs in
  version_numbers (map_to_list m) = Ret vs ->
  m !! Str.str next = None -> (1 <= next)%Z ->
  Forall (fun v => v < next)%Z vs ->
  forall sub,
  FS.lookup (fs w') (base_path self // asset)
  = Some (FS.Dir (<[Str.str next := FS.Dir sub]> m)) ->
  get_versions self asset w' = (Ret (next :: sorted_reverse vs), w').
Proof.
  intros next Hvs Hfree Hge Hlt sub Hl.
  rewrite (get_versions_at _ _ _ _ Hl).
  destruct (version_numbers_insert m vs next sub Hvs Hfree) as (vs' & -> & Hp);
    [lia|].
  rewrite (sorted_reverse_perm _ _ Hp), sorted_reverse_cons_max; [done|].
  eapply Forall_impl; [done|]. simpl. lia.
Qed.

Lemma publish_step now self asset r w m vs (k : nat) :
  asset_dir w self asset m ->
  version_numbers (map_to_list m) = Ret vs ->
  vs ≡ₚ Spec.countdown k ->
  (forall s c, m !! s <> Some (FS.File c)) ->
  Path.plain_name asset = true ->
  is_Some (heap w !! r) ->
  exists ok w', publish_file now self asset r w = (Ret ok, w')
    /\ published_times w' self asset (S k)
    /\ (forall r', is_Some (heap w !! r') -> is_Some (heap w' !! r')).
Proof.
  intros Hdir Hvs Hp Hnof Hplain [d Hr].
  pose proof (version_numbers_nonneg _ _ Hvs) as Hpos.
  destruct (create_new_version_at self asset w m vs Hdir Hvs (Hnof _))
    as (Hge & Hlt & Hfree & _).
  destruct (publish_file_at now self asset r w m vs d Hdir Hvs (Hnof _) Hplain Hr)
    as (w' & Hpub & Hheap & Hl & _).
  eexists _, w'. split; [done|]. split.
  - destruct (version_numbers_insert m vs (Spec.max_plus_one vs)
                (<[(asset ++ ".json")%string :=
                    FS.File (written (PyDict (stamped now asset d)))]> ∅)
                Hvs Hfree) as (vs' & Hvs' & Hp'); [lia|].
    eexists _, vs'. split; [done|]. split; [done|]. split.
    + rewrite Hp'. rewrite (max_plus_one_perm _ _ Hpos Hp), max_plus_one_countdown.
      cbn [Spec.countdown]. rewrite Hp. f_equiv. lia.
    + intros s c. destruct (decide (s = Str.str (Spec.max_plus_one vs))) as [->|Hne].
      * by rewrite lookup_insert_eq.
      * rewrite lookup_insert_ne by done. apply Hnof.
  - intros r' Hr'. rewrite Hheap. destruct (decide (r = r')) as [->|Hne].
    + rewrite lookup_insert_eq. eauto.
    + by rewrite lookup_insert_ne.
Qed.

Lemma publish_each_from self asset requests w (k : nat) :
  published_times w self asset k ->
  Path.plain_name asset = true ->
  Forall (fun req => is_Some (heap w !! req.2)) requests ->
  exists oks w', publish_each self asset requests w = (Ret oks, w')
    /\ published_times w' self asset (k + length requests).
Proof.
  intros Hk Hplain. revert w k Hk.
  induction requests as [|[now r] rest IH]; intros w k Hk Hlive.
  - exists [], w. split; [done|]. by rewrite Nat.add_0_r.
  - apply Forall_cons in Hlive as [Hr Hrest]. simpl in Hr.
    destruct Hk as (m & vs & Hl & Hvs & Hp & Hnof).
    destruct (publish_step now self asset r w m vs k
                (asset_dir_existing _ _ _ _ Hl) Hvs Hp Hnof Hplain Hr)
      as (ok & w1 & Hpub & Hk1 & Hheap).
    destruct (IH w1 (S k) Hk1) as (oks & w' & Hall & Hk').
    { eapply Forall_impl; [done|]. intros [? r']; simpl. apply Hheap. }
    exists (ok :: oks), w'. split.
    + cbn [publish_each]. unfold bind at 1. rewrite Hpub.
      unfold bind at 1. by rewrite Hall.
    + simpl length. by rewrite Nat.add_succ_r.
Qed.

Lemma published_times_versions w self asset (k : nat) :
  published_times w self asset k ->
  get_versions self asset w = (Ret (Spec.countdown k), w).
Proof.
  intros (m & vs & Hl & Hvs & Hp & _).
  rewrite (get_versions_at _ _ _ _ Hl), Hvs.
  by rewrite (sorted_reverse_perm _ _ Hp), sorted_reverse_countdown.
Qed.

End VersionHistory.

(** ** The claims about the store *)

Section StoreClaims.

Import VersionManager Snapshot.

Implicit Types (w : world) (self : t) (m : gmap string FS.node).

Lemma create_in_listed_asset self asset w existing :
  let next := Spec.max_plus_one existing in
  FS.is_dir (fs w) (base_path self // asset) = true ->
  get_versions self asset w = (Ret existing, w) ->
  FS.is_file (fs w) (base_path self // asset // Str.str next) = false ->
  exists w',
    create_new_version self asset w
    = (Ret (base_path self // asset // Str.str next), w')
    /\ Forall (fun v => v < next)%Z existing
    /\ FS.exists_ (fs w) (base_path self // asset // Str.str next) = false
    /\ FS.is_dir (fs w') (base_path self // asset // Str.str next) = true
    /\ get_versions self asset w' = (Ret (next :: existing), w').
Proof.
  intros next. unfold FS.is_dir, FS.is_file, FS.exists_.
  destruct (FS.lookup (fs w) (base_path self // asset)) as [[c|m]|] eqn:Hl; try done.
  intros _ Hget. rewrite (get_versions_at _ _ _ _ Hl) in Hget.
  destruct (version_numbers (map_to_list m)) as [vs|] eqn:Hvs; [|done].
  assert (existing = sorted_reverse vs) as Hex by congruence.
  pose proof (version_numbers_nonneg _ _ Hvs) as Hpos.
  assert (next = Spec.max_plus_one vs) as Hnext.
  { subst next existing. symmetry. apply max_plus_one_perm; [done|].
    symmetry. apply sorted_reverse_perm_self. }
  intros Hfile.
  assert (forall c, m !! Str.str (Spec.max_plus_one vs) <> Some (FS.File c)) as Hnof.
  { intros c Hm. rewrite <- Hnext in Hm.
    assert (1 <= next)%Z as Hge.
    { rewrite Hnext. destruct vs as [|v rest]; simpl; [lia|].
      destruct (foldr_max_spec v rest) as [_ Hall].
      apply Forall_cons in Hall as [? _]. apply Forall_cons in Hpos as [? _]. lia. }
    rewrite join_plain in Hfile by (apply plain_name_str; lia).
    rewrite lookup_app, Hl in Hfile. simpl in Hfile. by rewrite Hm in Hfile. }
  destruct (create_new_version_at self asset w m vs
              (asset_dir_existing _ _ _ _ Hl) Hvs Hnof)
    as (Hge & Hlt & Hfree & w' & Hcreate & Hl' & _).
  rewrite <- Hnext in Hge, Hlt, Hfree, Hcreate, Hl'.
  rewrite !join_plain by (apply plain_name_str; lia).
  exists w'. split; [done|]. split.
  { subst existing. by rewrite sorted_reverse_perm_self. }
  rewrite !lookup_app, Hl, Hl'. simpl. rewrite Hfree, lookup_insert_eq.
  do 2 (split; [done|]). subst existing.
  revert Hl' Hfree Hge Hlt. rewrite Hnext. intros.
  by apply (get_versions_after_create self asset w' m vs Hvs) with (sub := ∅).
Qed.

Lemma create_in_absent_asset self asset w :
  FS.is_dir (fs w) (base_path self) = true ->
  Path.plain_name asset = true ->
  FS.exists_ (fs w) (base_path self // asset) = false ->
  exists w',
    create_new_version self asset w
    = (Ret (base_path self // asset // Str.str 1), w')
    /\ get_versions self asset w' = (Ret [1%Z], w').
Proof.
  unfold FS.exists_. intros Hbase Hplain Hnone.
  destruct (FS.lookup (fs w) (base_path self // asset)) eqn:Hl; [done|].
  pose proof (asset_dir_fresh w self asset Hbase Hplain Hl) as Hdir.
  destruct (create_new_version_at self asset w ∅ [] Hdir)
    as (Hge & Hlt & Hfree & w' & Hcreate & Hl' & _).
  { by rewrite map_to_list_empty. }
  { intros c. by rewrite lookup_empty. }
  exists w'. rewrite (join_plain _ (Str.str 1)) by done. split; [done|].
  rewrite <- sorted_reverse_nil at 1.
  by apply (get_versions_after_create self asset w' ∅ []) with (sub := ∅);
    [rewrite map_to_list_empty|..].
Qed.

Lemma publish_each_fresh self asset w requests :
  FS.is_dir (fs w) (base_path self) = true ->
  Path.plain_name asset = true ->
  FS.exists_ (fs w) (base_path self // asset) = false ->
  Forall (fun req => is_Some (heap w !! req.2)) requests ->
  exists oks w', publish_each self asset requests w = (Ret oks, w')
    /\ get_versions self asset w' = (Ret (Spec.countdown (length requests)), w').
Proof.
  unfold FS.exists_. intros Hbase Hplain Hnone Hlive.
  destruct (FS.lookup (fs w) (base_path self // asset)) eqn:Hl; [done|].
  destruct requests as [|[now r] rest].
  - exists [], w. split; [done|]. by apply get_versions_absent.
  - apply Forall_cons in Hlive as [Hr Hrest]. simpl in Hr.
    destruct (publish_step now self asset r w ∅ [] 0
                (asset_dir_fresh w self asset Hbase Hplain Hl))
      as (ok & w1 & Hpub & Hk1 & Hheap); try done.
    destruct (publish_each_from self asset rest w1 1 Hk1 Hplain)
      as (oks & w' & Hall & Hk').
    { eapply Forall_impl; [done|]. intros [? r']; simpl. apply Hheap. }
    exists (ok :: oks), w'. split.
    + cbn [publish_each]. unfold bind at 1. rewrite Hpub.
      unfold bind at 1. by rewrite Hall.
    + by apply published_times_versions.
Qed.

(** The newest version is the first of the list. *)
Lemma get_latest_version_of self asset w vs :
  get_versions self asset w = (Ret vs, w) ->
  get_latest_version self asset w = (Ret (head vs), w).
Proof.
  intros Hv. unfold get_latest_version, bind. rewrite Hv. by destruct vs.
Qed.

(** C1. Version allocation is max-plus-one and never reuses a number.
    (1) In an asset directory whose listing is [existing], and where no
    regular file sits on the next name, [create_new_version] returns the
    directory numbered [max(existing)+1]; that number is above every
    existing one, its directory did not exist before, exists afterwards,
    and the listing becomes the new number followed by [existing].
    (2) For an asset that does not exist yet the number is [1].
    (3) After any sequence of [N] publishes to a new asset [get_versions]
    gives exactly [N, ..., 1] and [get_latest_version] gives [N].
    (4) On versions [5, 3, 1] the new version is [6]. *)
Theorem version_allocation_max_plus_one :
  (forall self asset w existing,
     FS.is_dir (fs w) (base_path self // asset) = true ->
     get_versions self asset w = (Ret existing, w) ->
     FS.is_file (fs w)
       (base_path self // asset // Str.str (Spec.max_plus_one existing)) = false ->
     exists w',
       create_new_version self asset w
       = (Ret (base_path self // asset // Str.str (Spec.max_plus_one existing)), w')
       /\ Forall (fun v => v < Spec.max_plus_one existing)%Z existing
       /\ FS.exists_ (fs w)
            (base_path self // asset // Str.str (Spec.max_plus_one existing)) = false
       /\ FS.is_dir (fs w')
            (base_path self // asset // Str.str (Spec.max_plus_one existing)) = true
       /\ get_versions self asset w'
          = (Ret (Spec.max_plus_one existing :: existing), w'))
  /\ (forall self asset w,
       FS.is_dir (fs w) (base_path self) = true ->
       Path.plain_name asset = true ->
       FS.exists_ (fs w) (base_path self // asset) = false ->
       exists w',
         create_new_version self asset w
         = (Ret (base_path self // asset // Str.str 1), w')
         /\ get_versions self asset w' = (Ret [1%Z], w'))
  /\ (forall self asset w requests,
       FS.is_dir (fs w) (base_path self) = true ->
       Path.plain_name asset = true ->
       FS.exists_ (fs w) (base_path self // asset) = false ->
       Forall (fun req => is_Some (heap w !! req.2)) requests ->
       exists oks w',
         publish_each self asset requests w = (Ret oks, w')
         /\ get_versions self asset w'
            = (Ret (Spec.countdown (length requests)), w')
         /\ get_latest_version self asset w'
            = (Ret (match requests with
                    | [] => None
                    | _ => Some (Z.of_nat (length requests))
                    end), w'))
  /\ (forall self asset w,
       FS.is_dir (fs w) (base_path self // asset) = true ->
       get_versions self asset w = (Ret [5; 3; 1]%Z, w) ->
       FS.is_file (fs w) (base_path self // asset // "6") = false ->
       exists w',
         create_new_version self asset w
         = (Ret (base_path self // asset // "6"), w')
         /\ get_versions self asset w' = (Ret [6; 5; 3; 1]%Z, w')).
Proof.
  split; [|split; [|split]].
  - intros. by apply create_in_listed_asset.
  - intros. by apply create_in_absent_asset.
  - intros self asset w requests Hbase Hplain Hnone Hlive.
    destruct (publish_each_fresh self asset w requests Hbase Hplain Hnone Hlive)
      as (oks & w' & Hall & Hvs).
    exists oks, w'. split; [done|]. split; [done|].
    rewrite (get_latest_version_of _ _ _ _ Hvs). by destruct requests.
  - intros self asset w Hdir Hvs Hfile.
    destruct (create_in_listed_asset self asset w [5; 3; 1]%Z Hdir Hvs Hfile)
      as (w' & Hcreate & _ & _ & _ & Hvs').
    by exists w'.
Qed.

Lemma max_plus_one_ge (vs : list Z) :
  Forall (fun v => 0 <= v)%Z vs -> (1 <= Spec.max_plus_one vs)%Z.
Proof.
  intros Hpos. destruct vs as [|v rest]; simpl; [lia|].
  destruct (foldr_max_spec v rest) as [_ Hall].
  apply Forall_cons in Hall as [? _]. apply Forall_cons in Hpos as [? _]. lia.
Qed.

Lemma publishable_asset_dir w self asset next :
  publishable w self asset next ->
  Path.plain_name asset = true ->
  exists m vs,
    asset_dir w self asset m
    /\ version_numbers (map_to_list m) = Ret vs
    /\ next = Spec.max_plus_one vs
    /\ (forall c, m !! Str.str next <> Some (FS.File c)).
Proof.
  intros [(Hbase & Hnone & ->)|(Hdir & existing & Hget & -> & Hfile)] Hplain.
  - unfold FS.exists_ in Hnone.
    destruct (FS.lookup (fs w) (base_path self // asset)) eqn:Hl; [done|].
    exists ∅, []. split; [by apply asset_dir_fresh|].
    rewrite map_to_list_empty. do 2 (split; [done|]).
    intros c. by rewrite lookup_empty.
  - unfold FS.is_dir, FS.is_file in *.
    destruct (FS.lookup (fs w) (base_path self // asset)) as [[c|m]|] eqn:Hl; try done.
    rewrite (get_versions_at _ _ _ _ Hl) in Hget.
    destruct (version_numbers (map_to_list m)) as [vs|] eqn:Hvs; [|done].
    assert (existing = sorted_reverse vs) as -> by congruence.
    pose proof (version_numbers_nonneg _ _ Hvs) as Hpos.
    assert (Spec.max_plus_one (sorted_reverse vs) = Spec.max_plus_one vs) as Hnext.
    { symmetry. apply max_plus_one_perm; [done|].
      symmetry. apply sorted_reverse_perm_self. }
    rewrite Hnext in *. pose proof (max_plus_one_ge vs Hpos) as Hge.
    exists m, vs. split; [by apply asset_dir_existing|]. do 2 (split; [done|]).
    intros c Hm. rewrite join_plain in Hfile by (apply plain_name_str; lia).
    rewrite lookup_app, Hl in Hfile. simpl in Hfile. by rewrite Hm in Hfile.
Qed.

Lemma starts_with_json (asset : string) :
  Str.starts_with "/" asset = false ->
  Str.starts_with "/" (asset ++ ".json") = false.
Proof. destruct asset as [|c s]; [done|]. by rewrite append_cons. Qed.

Lemma load_file_eq self asset version w :
  load_file self asset version w =
  match FS.lookup (fs w) (get_version_path self asset version // (asset ++ ".json")%string) with
  | Some (FS.File (FS.Document j)) => (Ret (Some (of_json j)), w)
  | Some (FS.File FS.Malformed) =>
      (Ret None, (print "Error loading file: Expecting value" w).2)
  | Some (FS.Dir _) =>
      (Ret None,
       (print ("Error loading file: " ++
               String.concat "/" (get_version_path self asset version
                                  // (asset ++ ".json")%string))%string w).2)
  | None => (Ret None, w)
  end.
Proof.
  unfold load_file, try_except, bind, fs_query, lift, FS.exists_, FS.read_file.
  unfold id. cbn beta.
  destruct (FS.lookup (fs w) _) as [[[j|]|m]|] eqn:Hl; rewrite ?Hl; reflexivity.
Qed.

(** C3. [load_file] always returns: for every asset name and version there
    is a result and no exception; the stores are left as they were.  The
    result is [None] when the record file does not exist, when the version
    path does not exist (for an asset name that is not an absolute path),
    when the stored document does not parse (the cause is printed), and
    when a directory sits where the record file should be. *)
Theorem load_file_returns_absence self asset version w :
  let version_path := get_version_path self asset version in
  let file_path := version_path // (asset ++ ".json")%string in
  (exists r w', load_file self asset version w = (Ret r, w')
                /\ fs w' = fs w /\ heap w' = heap w)
  /\ (FS.exists_ (fs w) file_path = false ->
      load_file self asset version w = (Ret None, w))
  /\ (Str.starts_with "/" asset = false ->
      FS.exists_ (fs w) version_path = false ->
      load_file self asset version w = (Ret None, w))
  /\ (FS.read_file (fs w) file_path = Ret FS.Malformed ->
      exists w', load_file self asset version w = (Ret None, w')
                 /\ stdout w' = stdout w ++ ["Error loading file: Expecting value"])
  /\ (FS.is_dir (fs w) file_path = true ->
      exists w' line, load_file self asset version w = (Ret None, w')
                      /\ stdout w' = stdout w ++ [line]).
Proof.
  intros version_path file_path. rewrite load_file_eq.
  fold version_path file_path.
  unfold FS.exists_, FS.read_file, FS.is_dir.
  split; [|split; [|split; [|split]]].
  - destruct (FS.lookup (fs w) file_path) as [[[j|]|m]|]; by eexists _, _.
  - by destruct (FS.lookup (fs w) file_path).
  - intros Hrel Hnone. subst file_path. unfold Path.join at 1.
    rewrite (starts_with_json _ Hrel), lookup_app.
    by destruct (FS.lookup (fs w) version_path).
  - destruct (FS.lookup (fs w) file_path) as [[[j|]|m]|]; try done.
    intros _. by eexists.
  - destruct (FS.lookup (fs w) file_path) as [[[j|]|m]|]; try done.
    intros _. by eexists _, _.
Qed.


Lemma stamped_published now asset (d : dict pyval) :
  dict_get (stamped now asset d) "_published" = Some (PyStr now).
Proof. unfold stamped. by rewrite dict_get_set_ne, dict_get_set_eq. Qed.

Lemma stamped_asset_name now asset (d : dict pyval) :
  dict_get (stamped now asset d) "_asset_name" = Some (PyStr asset).
Proof. unfold stamped. by rewrite dict_get_set_eq. Qed.

(** What a publish leaves behind, whether the write succeeded or not. *)
Lemma publish_file_outcome now self asset r w d next :
  publishable w self asset next ->
  Path.plain_name asset = true ->
  heap w !! r = Some d ->
  (1 <= next)%Z /\
  exists w',
    publish_file now self asset r w
    = (Ret (match to_json (PyDict (stamped now asset d)) with
            | Ret _ => true
            | Raise _ => false
            end), w')
    /\ heap w' = <[r := stamped now asset d]> (heap w)
    /\ FS.read_file (fs w')
         (get_version_path self asset next // (asset ++ ".json")%string)
       = Ret (written (PyDict (stamped now asset d)))
    /\ get_latest_version self asset w' = (Ret (Some next), w')
    /\ stdout w' = stdout w ++
         match to_json (PyDict (stamped now asset d)) with
         | Ret _ => []
         | Raise e => [("Error publishing file: " ++ exn_msg e)%string]
         end.
Proof.
  intros Hpub Hplain Hr.
  destruct (publishable_asset_dir _ _ _ _ Hpub Hplain)
    as (m & vs & Hdir & Hvs & -> & Hnof).
  destruct (create_new_version_at self asset w m vs Hdir Hvs Hnof)
    as (Hge & Hlt & Hfree & _).
  split; [done|].
  destruct (publish_file_at now self asset r w m vs d Hdir Hvs Hnof Hplain Hr)
    as (w' & Hres & Hheap & Hl & Hout).
  exists w'. do 2 (split; [done|]). split; [|split; [|done]].
  - unfold FS.read_file, get_version_path.
    rewrite (join_plain _ (Str.str _)) by (apply plain_name_str; lia).
    rewrite (join_plain _ (asset ++ ".json")%string) by (by apply plain_name_json).
    rewrite !lookup_app, Hl. simpl. by rewrite !lookup_insert_eq.
  - rewrite (get_latest_version_of _ _ _ (Spec.max_plus_one vs :: sorted_reverse vs));
      [done|].
    by eapply get_versions_after_create.
Qed.


(** C10. [publish_file] changes the caller's record in place: once the
    version directory is allocated, the object the caller's reference
    denotes holds [_published] and [_asset_name], no other object is
    touched, and this is so also when the write that follows fails, in
    which case [publish_file] returns [False], the error is printed and the
    record keeps the two keys. *)
Theorem publish_mutates_record_in_place now self asset r w d next :
  publishable w self asset next ->
  Path.plain_name asset = true ->
  heap w !! r = Some d ->
  exists ok w',
    publish_file now self asset r w = (Ret ok, w')
    /\ heap w' !! r = Some (stamped now asset d)
    /\ dict_get (stamped now asset d) "_published" = Some (PyStr now)
    /\ dict_get (stamped now asset d) "_asset_name" = Some (PyStr asset)
    /\ (forall r', r' <> r -> heap w' !! r' = heap w !! r')
    /\ (forall e, to_json (PyDict (stamped now asset d)) = Raise e ->
          ok = false
          /\ stdout w' = stdout w ++ [("Error publishing file: " ++ exn_msg e)%string]).
Proof.
  intros Hpub Hplain Hr.
  destruct (publish_file_outcome now self asset r w d next Hpub Hplain Hr)
    as (Hge & w' & Hres & Hheap & _ & _ & Hout).
  eexists _, w'. split; [done|]. rewrite Hheap. split; [by rewrite lookup_insert_eq|].
  split; [apply stamped_published|]. split; [apply stamped_asset_name|]. split.
  - intros r' Hne. by rewrite lookup_insert_ne.
  - intros e He. rewrite He in Hout |- *. done.
Qed.

End StoreClaims.

(** ** Resolving the store root *)

Section StoreRoot.

Import VersionManager.

Local Ltac run_monad :=
  unfold init, bind, try_except, fs_query, fs_update, lift, ret, raise, print,
    modify, id, FS.exists_, FS.read_file in *;
  cbn beta zeta.

(** C9. The store root at construction.  With [default_path] the per-user
    path (or the [base_path] argument) and [env.json] the override record
    under it:
    (1) if the record is a JSON object whose [custom_path] is a non-empty
    string [s], the root is [s/Published_lights], created if missing;
    (2) if there is no record, or its [custom_path] is absent, [null] or
    empty, the root is the default path, created if missing;
    (3) if the record cannot be read (a directory is in its place, its text
    is not JSON, or the document is not an object), a warning is printed
    and the root is the default path, created if missing. *)
Theorem store_root_resolution home base_arg w :
  let default_path := match base_arg with
                      | None => home_default home
                      | Some b => b
                      end in
  let env_path := Path.of_string default_path ++ ["env.json"] in
  (forall j d s root n',
     FS.read_file (fs w) env_path = Ret (FS.Document j) ->
     of_json j = PyDict d ->
     dict_get d "custom_path" = Some (PyStr s) -> s <> ""%string ->
     root = Path.of_string s // "Published_lights" ->
     FS.mkdir_p (fs w) root = Ret n' ->
     init home base_arg w = (Ret (Make root), set_fs n' w)
     /\ FS.is_dir n' root = true)
  /\ (forall n',
       FS.exists_ (fs w) env_path = false
       \/ (exists j d, FS.read_file (fs w) env_path = Ret (FS.Document j)
                       /\ of_json j = PyDict d /\ no_custom_path d) ->
       FS.mkdir_p (fs w) (Path.of_string default_path) = Ret n' ->
       init home base_arg w = (Ret (Make (Path.of_string default_path)), set_fs n' w)
       /\ FS.is_dir n' (Path.of_string default_path) = true)
  /\ (forall n',
       FS.is_dir (fs w) env_path = true
       \/ FS.read_file (fs w) env_path = Ret FS.Malformed
       \/ (exists j, FS.read_file (fs w) env_path = Ret (FS.Document j)
                     /\ forall d, of_json j <> PyDict d) ->
       FS.mkdir_p (fs w) (Path.of_string default_path) = Ret n' ->
       exists cause,
         init home base_arg w
         = (Ret (Make (Path.of_string default_path)),
            World n' (heap w)
              (stdout w ++ [("Warning: Could not read env.json: " ++ cause)%string]))
         /\ FS.is_dir n' (Path.of_string default_path) = true).
Proof.
  intros default_path env_path. subst env_path default_path. split; [|split].
  - intros j d s root n' Hread Hj Hd Hs -> Hmk.
    split; [|by eapply mkdir_at_is_dir].
    run_monad.
    destruct (FS.lookup (fs w) _) as [[c|?]|] eqn:Hl; rewrite ?Hl; simplify_eq.
    simpl. rewrite Hj. simpl. rewrite Hd. simpl.
    rewrite bool_decide_eq_false_2 by done. simpl. by rewrite Hmk.
  - intros n' Hcase Hmk. split; [|by eapply mkdir_at_is_dir].
    run_monad.
    destruct Hcase as [Hnone|(j & d & Hread & Hj & Hd)].
    + destruct (FS.lookup (fs w) _) eqn:Hl; rewrite ?Hl; [done|]. simpl. by rewrite Hmk.
    + destruct (FS.lookup (fs w) _) as [[c|?]|] eqn:Hl; rewrite ?Hl; simplify_eq.
      simpl. rewrite Hj. simpl.
      destruct Hd as [->|[->| ->]]; simpl; by rewrite Hmk.
  - intros n' Hcase Hmk.
    enough (exists cause,
      init home base_arg w
      = (Ret (Make (Path.of_string
                      match base_arg with
                      | None => home_default home
                      | Some b => b
                      end)),
         World n' (heap w)
           (stdout w ++ [("Warning: Could not read env.json: " ++ cause)%string])))
      as (cause & ?).
    { exists cause. split; [done|by eapply mkdir_at_is_dir]. }
    run_monad. unfold FS.is_dir in Hcase.
    destruct Hcase as [Hdir|[Hread|(j & Hread & Hj)]].
    + destruct (FS.lookup (fs w) _) as [[c|?]|] eqn:Hl; rewrite ?Hl; try done.
      simpl. rewrite Hmk. by eexists.
    + destruct (FS.lookup (fs w) _) as [[c|?]|] eqn:Hl; rewrite ?Hl; simplify_eq.
      simpl. rewrite Hmk. by eexists.
    + destruct (FS.lookup (fs w) _) as [[c|?]|] eqn:Hl; rewrite ?Hl; simplify_eq.
      simpl. destruct (of_json j) eqn:Hv; simpl; try (rewrite Hmk; by eexists).
      by destruct (Hj d).
Qed.

End StoreRoot.

(** ** The collision loop *)

Section UniqueName.

Import Scene LightFinderFunctions.

Implicit Types (existing : gset string) (name : string) (k j fuel : nat).

Lemma candidate_succ name k :
  (name ++ "_" ++ Str.str (Z.of_nat k + 1))%string = candidate name (S k).
Proof. unfold candidate. do 3 f_equal. lia. Qed.

Lemma candidate_inj name : Inj (=) (=) (candidate name).
Proof.
  assert (forall j, name <> candidate name (S j)) as Hne.
  { intros j Heq. unfold candidate in Heq.
    rewrite <- (string_app_empty_r name) in Heq at 1.
    by apply (inj (String.app name)) in Heq. }
  intros [|i] [|j] Heq; [done|by destruct (Hne j)|by destruct (Hne i)|].
  unfold candidate in Heq.
  apply (inj (String.app name)), (inj (String.app "_")) in Heq.
  apply str_inj in Heq; lia.
Qed.

Lemma unique_name_loop_some fuel existing name k r :
  unique_name_loop fuel existing name (candidate name k) (Z.of_nat k + 1) = Some r ->
  exists j, (k <= j)%nat /\ r = candidate name j /\ (r ∉ existing)
            /\ forall i, (k <= i < j)%nat -> candidate name i ∈ existing.
Proof.
  revert k. induction fuel as [|fuel IH]; intros k; simpl; [done|].
  case_bool_decide as Hin.
  - rewrite candidate_succ. replace (Z.of_nat k + 1 + 1)%Z with (Z.of_nat (S k) + 1)%Z by lia.
    intros (j & Hj & -> & Hnot & Hall)%IH.
    exists j. split; [lia|]. do 2 (split; [done|]).
    intros i Hi. destruct (decide (i = k)) as [->|]; [done|]. apply Hall. lia.
  - intros; simplify_eq. exists k. split; [lia|]. do 2 (split; [done|]). lia.
Qed.

Lemma unique_name_loop_none fuel existing name k :
  unique_name_loop fuel existing name (candidate name k) (Z.of_nat k + 1) = None ->
  forall i, (k <= i < k + fuel)%nat -> candidate name i ∈ existing.
Proof.
  revert k. induction fuel as [|fuel IH]; intros k; simpl; [lia|].
  case_bool_decide as Hin; [|done].
  rewrite candidate_succ. replace (Z.of_nat k + 1 + 1)%Z with (Z.of_nat (S k) + 1)%Z by lia.
  intros Hnone i Hi. destruct (decide (i = k)) as [->|]; [done|].
  apply (IH _ Hnone). lia.
Qed.

(** One more test than there are objects is enough: the loop stops. *)
Lemma unique_name_loop_terminates existing name :
  exists r, unique_name_loop (S (size existing)) existing name name 1 = Some r.
Proof.
  destruct (unique_name_loop (S (size existing)) existing name name 1) as [r|] eqn:Hloop;
    [by exists r|].
  exfalso. pose proof (unique_name_loop_none _ existing name 0 Hloop) as Hall.
  set (tried := candidate name <$> seq 0 (S (size existing))).
  assert (NoDup tried) as Hnd.
  { pose proof (candidate_inj name). apply (NoDup_fmap_2 _). apply NoDup_seq. }
  assert (list_to_set tried ⊆ existing) as Hsub.
  { intros x Hx. apply elem_of_list_to_set, list_elem_of_fmap in Hx as (i & -> & Hi).
    apply elem_of_seq in Hi. apply Hall. lia. }
  apply subseteq_size in Hsub. rewrite size_list_to_set in Hsub by done.
  unfold tried in Hsub. rewrite length_fmap, length_seq in Hsub. lia.
Qed.

(** The name chosen is the first of [name], [name_1], [name_2], ... that
    the scene does not hold. *)
Lemma unique_name_first_free existing name :
  exists j, unique_name existing name = candidate name j
            /\ (unique_name existing name ∉ existing)
            /\ forall i, (i < j)%nat -> candidate name i ∈ existing.
Proof.
  destruct (unique_name_loop_terminates existing name) as (r & Hr).
  unfold unique_name. rewrite Hr. simpl.
  destruct (unique_name_loop_some _ existing name 0 r Hr) as (j & _ & -> & Hnot & Hall).
  exists j. do 2 (split; [done|]). intros i Hi. apply Hall. lia.
Qed.

End UniqueName.

(** ** The applier *)

Section Applier.

Import Scene LightFinderFunctions.
Context `{api St}.

Implicit Types (st : session St) (cs more : list call).



Lemma setattr_only_created more :
  forallb is_setattr more = true ->
  created_objects more = [] /\ creation_requests more = [].
Proof.
  induction more as [|[c r|? ? ? ?|? ?] more IH]; simpl; try done.
Qed.

Lemma set_attribute_calls attr_path attr_value type_kw st :
  exists r s', set_attribute attr_path attr_value type_kw st
    = (r, Session s' (calls st ++ [SetAttr attr_path (setAttr_args attr_value) type_kw r])
                  (printed st)).
Proof.
  unfold set_attribute, command.
  destruct (setAttr _ _ _ (scene st)) as [r s']. by eexists _, _.
Qed.

Lemma apply_transform_attr_only light_transform count item :
  sets_attributes_only (apply_transform_attr light_transform count item).
Proof.
  intros st. destruct item as [attr_name attr_value].
  unfold apply_transform_attr, try_except, bind, lift, say, ret.
  destruct (attr_path_of light_transform attr_name) as [attr_path|e]; simpl.
  - destruct (set_attribute_calls attr_path attr_value None st) as ([[]|e] & s' & ->);
      simpl; eexists _, _, [_]; split; done.
  - eexists _, _, []. by rewrite app_nil_r.
Qed.

Lemma apply_shape_attr_only shape_node count item :
  sets_attributes_only (apply_shape_attr shape_node count item).
Proof.
  intros st. destruct item as [attr_name attr_value].
  unfold apply_shape_attr, try_except, bind, lift, say, ret.
  destruct (set_attribute_calls (shape_node ++ "." ++ attr_name) attr_value None st)
    as ([[]|e] & s' & ->); simpl.
  { eexists _, _, [_]; split; done. }
  destruct attr_value; simpl;
    try (eexists _, _, [_]; split; done).
  match goal with
  | |- context [set_attribute ?p ?v ?k ?st0] =>
      destruct (set_attribute_calls p v k st0) as ([[]|e2] & s2 & ->)
  end; simpl; eexists _, _, [_; _]; rewrite <- app_assoc; split; done.
Qed.

Lemma counting_only {A} (body : Z -> A -> M (session St) Z) count items :
  (forall c x, sets_attributes_only (body c x)) ->
  sets_attributes_only (counting body count items).
Proof.
  intros Hbody. revert count.
  induction items as [|x items IH]; intros count st; simpl.
  - eexists _, _, []. by rewrite app_nil_r.
  - unfold bind. destruct (Hbody count x st) as (c' & st1 & more1 & -> & Hc1 & Hs1).
    destruct (IH c' st1) as (c2 & st2 & more2 & -> & Hc2 & Hs2).
    eexists _, _, (more1 ++ more2). split; [done|].
    rewrite Hc2, Hc1, app_assoc. split; [done|].
    rewrite forallb_app. by rewrite Hs1, Hs2.
Qed.

End Applier.

Section ApplierRun.

Import Scene LightFinderFunctions Counted.
Context `{api St}.

Implicit Types (st : session St) (cs more : list call).

Lemma resolve_nodes_run new_light st :
  exists r, resolve_nodes new_light st = (r, st)
    /\ ((exists r1, listRelatives_shapes (scene st) new_light = Ret r1)
        /\ (exists r2, listRelatives_parent (scene st) new_light = Ret r2)
        -> exists nodes, r = Ret nodes).
Proof.
  unfold resolve_nodes, bind, query, ret.
  destruct (listRelatives_shapes (scene st) new_light) as [shapes|e].
  - destruct (first_of shapes).
    + eexists; split; [done|]. by eexists.
    + destruct (listRelatives_parent (scene st) new_light) as [p|e].
      * eexists; split; [done|]. by eexists.
      * eexists; split; [done|]. by intros [_ [? ?]].
  - eexists; split; [done|]. by intros [[? ?] _].
Qed.

(** After the creation only attributes are set; the light is counted
    unless asking for its shapes or its parent raised. *)
Lemma finish_light_run created light_data new_light st :
  exists r st' more,
    finish_light created light_data new_light st = (r, st')
    /\ calls st' = calls st ++ more
    /\ forallb is_setattr more = true
    /\ ((exists x, r = Ret (created ++ [x]))
        \/ ((exists e, r = Raise e) /\ st' = st
            /\ ~ ((exists r1, listRelatives_shapes (scene st) new_light = Ret r1)
                  /\ (exists r2, listRelatives_parent (scene st) new_light = Ret r2)))).
Proof.
  unfold finish_light, bind at 1.
  destruct (resolve_nodes_run new_light st) as ([nodes|e] & -> & Hok).
  - unfold bind at 1.
    destruct (counting_only (apply_transform_attr nodes.2) 0 (le_transform light_data)
                (apply_transform_attr_only nodes.2) st)
      as (n1 & st1 & more1 & -> & Hc1 & Hs1).
    unfold bind at 1.
    destruct (counting_only (apply_shape_attr nodes.1) 0 (le_attributes light_data)
                (apply_shape_attr_only nodes.1) st1)
      as (n2 & st2 & more2 & -> & Hc2 & Hs2).
    unfold bind, say, ret. simpl.
    eexists _, _, (more1 ++ more2). split; [done|]. simpl.
    rewrite Hc2, Hc1, app_assoc. split; [done|].
    rewrite forallb_app, Hs1, Hs2. split; [done|]. left. by eexists.
  - eexists _, _, []. split; [done|]. rewrite app_nil_r. do 2 (split; [done|]).
    right. split; [by eexists|]. split; [done|].
    intros Hq. by destruct (Hok Hq).
Qed.

(** What one turn of the loop does: it never lets an exception out; it
    issues exactly one creation call, for the node the cascade chooses under
    the name the collision loop found; then it only sets attributes; and it
    counts the light when the call made an object. *)
Lemma apply_light_run created light_data st :
  let c := creation_for (le_type light_data)
             (unique_name (objects (scene st)) (le_name light_data)) in
  let result := (create c (scene st)).1 in
  exists created' st' more,
    apply_light created light_data st = (Ret created', st')
    /\ calls st' = calls st ++ Create c result :: more
    /\ forallb is_setattr more = true
    /\ (created_objects [Create c result] = [] -> created' = created)
    /\ (created' = created \/ exists x, created' = created ++ [x])
    /\ (relatives_answer -> created_objects [Create c result] <> [] ->
        exists x, created' = created ++ [x]).
Proof.
  intros c result. subst result.
  unfold apply_light, try_except, bind at 1, query. cbn beta zeta. fold c.
  unfold bind at 1, command.
  destruct (create c (scene st)) as [[new_light|e] s1] eqn:Hcreate; cbn [fst].
  2: { unfold bind, say, ret. simpl.
       eexists _, _, []. do 3 (split; [done|]). split; [done|].
       split; [by left|]. by intros _ []. }
  simpl created_objects. case_bool_decide as Hempty.
  { unfold ret. simpl. eexists _, _, []. do 3 (split; [done|]).
    split; [done|]. split; [by left|]. by intros _ []. }
  destruct (finish_light_run created light_data new_light
              (Session s1 (calls st ++ [Create c (Ret new_light)]) (printed st)))
    as (r & st' & more & -> & Hcalls & Hset & Hr).
  simpl in Hcalls. rewrite <- app_assoc in Hcalls. simpl in Hcalls.
  destruct Hr as [(x & ->)|((e & ->) & -> & Hno)].
  - eexists _, _, more. do 3 (split; [done|]). split; [done|].
    split; [right; by eexists|]. intros _ _. by eexists.
  - unfold bind, say, ret. simpl.
    eexists _, _, more. split; [done|]. simpl.
    do 2 (split; [done|]). split; [done|]. split; [by left|].
    intros Hlaw _. destruct Hno. by apply (Hlaw c (scene st)).
Qed.


(** The one creation call of an entry. *)
Lemma apply_light_request created light_data st :
  creation_requests
    (drop (length (calls st)) (calls (apply_light created light_data st).2))
  = [creation_for (le_type light_data)
       (unique_name (objects (scene st)) (le_name light_data))].
Proof.
  destruct (apply_light_run created light_data st)
    as (created' & st' & more & -> & Hcalls & Hset & _).
  simpl. rewrite Hcalls, drop_app_length. simpl.
  by destruct (setattr_only_created _ Hset) as [_ ->].
Qed.









End ApplierRun.

(** ** The type cascade and the names *)

Section Creation.

Import Scene LightFinderFunctions.

(** C5. The creation operation is the first match of the ordered table
    aiAreaLight, aiMesh, directional, point, spot (the last three tested
    on the lower-cased type), with the generic area light as fallback; a
    type that contains ["aiAreaLight"] takes the aiAreaLight path whatever
    else it contains, ["point"] included; and this operation is the one
    creation call the applier issues for the entry. *)
Theorem creation_is_first_match :
  (forall light_type light_name,
     creation_for light_type light_name
     = first_match rule_table (CreateNode "areaLight") light_type light_name)
  /\ (forall light_type light_name,
       Str.contains "aiAreaLight" light_type = true ->
       creation_for light_type light_name
       = CreateNode "aiAreaLight" (light_name ++ "Shape"))
  /\ (Str.contains "point" "aiAreaLight_point" = true
      /\ creation_for "aiAreaLight_point" "key"
         = CreateNode "aiAreaLight" "keyShape")
  /\ (forall St (A : api St) created light_data (st : session St),
       creation_requests
         (drop (length (calls st)) (calls (apply_light created light_data st).2))
       = [creation_for (le_type light_data)
            (unique_name (objects (scene st)) (le_name light_data))]).
Proof.
  split; [|split; [|split]].
  - intros light_type light_name. unfold creation_for. simpl.
    repeat match goal with |- context [if ?b then _ else _] => destruct b end; done.
  - intros light_type light_name Hc. unfold creation_for. by rewrite Hc.
  - by vm_compute.
  - intros St A created light_data st. apply apply_light_request.
Qed.

End Creation.

Section Names.

Import Scene LightFinderFunctions.
#[local] Existing Instance ToyScene.toy_api.

(** C4, as the code has it.  For every entry the identifier is the first of
    [name], [name_1], [name_2], ... that the scene does not hold; the one
    creation call of the entry asks for that identifier as the node name
    when the type does not contain ["aiAreaLight"], and then the name asked
    for is not the name of an existing object; on the aiAreaLight path the
    name asked for is the identifier followed by ["Shape"].  In a scene
    that names a light as asked, two point-light entries both called
    ["key1"] make ["key1"] and ["key1_1"] when the scene is empty, and
    ["key1_1"] and ["key1_2"] when ["key1"] exists, which is left as it
    was. *)
Theorem name_collision_resolution :
  (forall St (A : api St) created light_data (st : session St),
     let existing := objects (scene st) in
     let name := le_name light_data in
     let light_name := unique_name existing name in
     (exists j, light_name = candidate name j
                /\ (light_name ∉ existing)
                /\ forall i, (i < j)%nat -> candidate name i ∈ existing)
     /\ exists c,
         creation_requests
           (drop (length (calls st)) (calls (apply_light created light_data st).2))
         = [c]
         /\ requested_name c
            = (if Str.contains "aiAreaLight" (le_type light_data)
               then light_name ++ "Shape" else light_name)%string
         /\ (Str.contains "aiAreaLight" (le_type light_data) = false ->
             requested_name c ∉ existing))
  /\ (let entry := LightEntry "key1" "pointLight" [] [] in
      let final := (apply_light_properties [entry; entry]
                      (ToyScene.start ToyScene.empty)).2 in
      creation_requests (calls final) = [PointLight "key1"; PointLight "key1_1"]
      /\ ToyScene.selection (scene final) = ["key1"; "key1_1"])
  /\ (let entry := LightEntry "key1" "pointLight" [] [] in
      let before := ToyScene.with_object "key1" ToyScene.empty in
      let final := (apply_light_properties [entry; entry]
                      (ToyScene.start before)).2 in
      creation_requests (calls final) = [PointLight "key1_1"; PointLight "key1_2"]
      /\ ToyScene.selection (scene final) = ["key1_1"; "key1_2"]
      /\ ToyScene.nodes (scene final) !! "key1" = ToyScene.nodes before !! "key1").
Proof.
  split; [|split].
  - intros St A created light_data st existing name light_name.
    destruct (unique_name_first_free existing name) as (j & Hj & Hfree & Hall).
    split; [by exists j|].
    eexists. split; [apply apply_light_request|]. fold existing name light_name.
    unfold creation_for.
    destruct (Str.contains "aiAreaLight" (le_type light_data)); [done|].
    split; [|intros _];
      repeat match goal with |- context [if ?b then _ else _] => destruct b end;
      done.
  - by vm_compute.
  - by vm_compute.
Qed.

(** The claim as the specification words it fails on the aiAreaLight path:
    for an entry ["key1"] of type ["aiAreaLight"], in a scene that holds
    ["key1Shape"] and no ["key1"], the identifier found is ["key1"] but the
    node is asked for under ["key1Shape"], the name of an existing object;
    and two such entries in an empty scene are both asked for under
    ["key1Shape"], so that no object ["key1"] or ["key1_1"] comes to
    exist. *)
Lemma aiAreaLight_name_is_not_the_probed_one :
  let entry := LightEntry "key1" "aiAreaLight" [] [] in
  let before :=
    ToyScene.with_plugin "aiAreaLight"
      (ToyScene.with_object "key1Shape" ToyScene.empty) in
  let after := (apply_light [] entry (ToyScene.start before)).2 in
  let twice :=
    (apply_light_properties [entry; entry]
       (ToyScene.start (ToyScene.with_plugin "aiAreaLight" ToyScene.empty))).2 in
  unique_name (objects before) "key1" = "key1"
  /\ creation_requests (calls after) = [CreateNode "aiAreaLight" "key1Shape"]
  /\ bool_decide ("key1Shape" ∈ objects before) = true
  /\ creation_requests (calls twice)
     = [CreateNode "aiAreaLight" "key1Shape"; CreateNode "aiAreaLight" "key1Shape"]
  /\ elements (objects (scene twice)) = ["key1Shape"]
  /\ ~ (forall St (A : api St) light_data (st : session St),
          requested_name
            (creation_for (le_type light_data)
               (unique_name (objects (scene st)) (le_name light_data)))
          ∉ objects (scene st)).
Proof.
  intros entry before after twice.
  do 5 (split; [by vm_compute|]).
  intros Hclaim.
  specialize (Hclaim _ ToyScene.toy_api entry (ToyScene.start before)).
  apply Hclaim. apply (bool_decide_unpack _). by vm_compute.
Qed.

End Names.

(** ** The collector *)

Section Collector.

Import Scene LightFinderFunctions.
#[local] Existing Instance ToyScene.toy_api.

Lemma read_into_other `{api St} (s : St) node d attr k :
  k <> attr -> dict_get (read_into s node d attr) k = dict_get d k.
Proof.
  intros Hne. unfold read_into. destruct (getAttr s _); [|done].
  by rewrite dict_get_set_ne.
Qed.

(** Keys that a reading loop does not visit keep their value. *)
Lemma read_attributes_other `{api St} (s : St) node attrs d k :
  k ∉ attrs -> dict_get (read_attributes s node attrs d) k = dict_get d k.
Proof.
  unfold read_attributes. revert d.
  induction attrs as [|a attrs IH]; intros d Hnin; simpl; [done|].
  apply not_elem_of_cons in Hnin as [Hne Hnin].
  rewrite IH by done. by apply read_into_other.
Qed.

(** A key that a reading loop visits, and whose read succeeds, ends with
    the value read, whatever the mapping held before. *)
Lemma read_attributes_wins `{api St} (s : St) node attrs d k v :
  k ∈ attrs -> getAttr s (node ++ "." ++ k)%string = Ret v ->
  dict_get (read_attributes s node attrs d) k = Some (stored_value v).
Proof.
  unfold read_attributes. revert d.
  induction attrs as [|a attrs IH]; intros d Hin Hv; simpl.
  - by apply elem_of_nil in Hin.
  - destruct (decide (k ∈ attrs)) as [Hlater|Hlast]; [by apply IH|].
    apply elem_of_cons in Hin as [->|?]; [|done].
    fold (read_attributes s node attrs (read_into s node d a)).
    rewrite read_attributes_other by done.
    unfold read_into. rewrite Hv. apply dict_get_set_eq.
Qed.

(** A visited key whose read raises keeps its value. *)
Lemma read_attributes_failed `{api St} (s : St) node attrs d k e :
  getAttr s (node ++ "." ++ k)%string = Raise e ->
  dict_get (read_attributes s node attrs d) k = dict_get d k.
Proof.
  unfold read_attributes. revert d.
  induction attrs as [|a attrs IH]; intros d Hv; simpl; [done|].
  rewrite IH by done. destruct (decide (k = a)) as [->|Hne].
  - unfold read_into. by rewrite Hv.
  - by apply read_into_other.
Qed.

(** C7. Value normalisation.  A list or tuple of length 1 is stored as its
    element, a longer one as a list with the same elements in order, any
    other value as it is; every attribute read that succeeds is stored
    this way.  A [translateX] read of [5.0] is stored as [5.0], a [scale]
    read of [(1, 1, 1)] as the list [[1, 1, 1]]. *)
Theorem stored_value_normalises :
  (forall x, stored_value (PyList [x]) = x /\ stored_value (PyTuple [x]) = x)
  /\ (forall l, (1 < length l)%nat ->
        stored_value (PyList l) = PyList l /\ stored_value (PyTuple l) = PyList l)
  /\ (forall v, (forall l, v <> PyList l) -> (forall l, v <> PyTuple l) ->
        stored_value v = v)
  /\ (forall St (A : api St) (s : St) node d attr v,
        getAttr s (node ++ "." ++ attr)%string = Ret v ->
        read_into s node d attr = dict_set d attr (stored_value v))
  /\ (forall entry,
        collect_light_properties ToyScene.studio ["key"] = [entry] ->
        dict_get (le_transform entry) "translateX" = Some (PyFloat "5.0")
        /\ dict_get (le_transform entry) "scale"
           = Some (PyList [PyFloat "1.0"; PyFloat "1.0"; PyFloat "1.0"])
        /\ dict_get (le_attributes entry) "intensity" = Some (PyFloat "2.0")).
Proof.
  split; [done|]. split; [|split; [|split]].
  - intros [|x [|y l]] Hl; simpl in *; done || lia.
  - intros v Hl Ht. destruct v; try done; [by destruct (Hl l)|by destruct (Ht l)].
  - intros St A s node d attr v Hv. unfold read_into. by rewrite Hv.
  - intros entry. vm_compute. intros [= <-]. done.
Qed.

Lemma collect_light_attributes `{api St} (s : St) light entry :
  collect_light s light = Some entry ->
  exists shape rest keyable,
    listRelatives_shapes s light = Ret (Some (shape :: rest))
    /\ listAttr_keyable s shape = Ret keyable
    /\ le_attributes entry
       = read_attributes s shape (get_arnold_attributes s (shape :: rest))
           (read_attributes s shape (or_empty keyable) []).
Proof.
  unfold collect_light.
  destruct (listRelatives_shapes s light) as [[[|shape rest]|]|]; try done.
  destruct (objectType s shape); [|done].
  destruct (listAttr_keyable s light); [|done].
  destruct (listAttr_keyable s shape) as [keyable|] eqn:Hkey; [|done].
  intros [= <-]. by exists shape, rest, keyable.
Qed.

Lemma get_arnold_attributes_elem `{api St} (s : St) shapes all attr :
  shapes <> [] -> listAttr s shapes = Ret all ->
  attr ∈ get_arnold_attributes s shapes
  <-> attr ∈ or_empty all /\ Str.contains "ai" attr = true.
Proof.
  intros Hne Hall. unfold get_arnold_attributes.
  destruct shapes; [done|]. rewrite Hall.
  rewrite !list_elem_of_In, filter_In. done.
Qed.

(** C8. The renderer attributes.  The [attributes] of a collected light are
    the keyable attributes of its shape, read first, over which every
    attribute of the shapes whose name contains ["ai"] is read as well;
    such an attribute, when its read succeeds, ends in the mapping with the
    value of that later read, whatever the first pass had stored under the
    key; keys the later pass does not visit, or cannot read, keep the value
    of the first pass. *)
Theorem arnold_attributes_merge_last :
  (forall St (A : api St) (s : St) light entry,
     collect_light s light = Some entry ->
     exists shape rest keyable,
       listRelatives_shapes s light = Ret (Some (shape :: rest))
       /\ listAttr_keyable s shape = Ret keyable
       /\ le_attributes entry
          = read_attributes s shape (get_arnold_attributes s (shape :: rest))
              (read_attributes s shape (or_empty keyable) [])
       /\ (forall all k v,
             listAttr s (shape :: rest) = Ret all ->
             k ∈ or_empty all -> Str.contains "ai" k = true ->
             getAttr s (shape ++ "." ++ k)%string = Ret v ->
             dict_get (le_attributes entry) k = Some (stored_value v))
       /\ (forall k, k ∉ get_arnold_attributes s (shape :: rest) ->
             dict_get (le_attributes entry) k
             = dict_get (read_attributes s shape (or_empty keyable) []) k))
  /\ (forall St (A : api St) (s : St) node attrs first_pass k v,
       k ∈ attrs -> getAttr s (node ++ "." ++ k)%string = Ret v ->
       dict_get (read_attributes s node attrs first_pass) k = Some (stored_value v))
  /\ (forall St (A : api St) (s : St) node attrs first_pass k e,
       getAttr s (node ++ "." ++ k)%string = Raise e ->
       dict_get (read_attributes s node attrs first_pass) k = dict_get first_pass k)
  /\ (forall entry,
       collect_light_properties ToyScene.studio ["key"] = [entry] ->
       le_attributes entry
       = [("intensity", PyFloat "2.0"); ("aiExposure", PyFloat "1.5")]).
Proof.
  split; [|split; [|split]].
  - intros St A s light entry Hentry.
    destruct (collect_light_attributes s light entry Hentry)
      as (shape & rest & keyable & Hshapes & Hkey & Hattrs).
    exists shape, rest, keyable. do 3 (split; [done|]). rewrite Hattrs. split.
    + intros all k v Hall Hk Hai Hv. apply read_attributes_wins; [|done].
      by apply (get_arnold_attributes_elem s (shape :: rest) all).
    + intros k Hk. by apply read_attributes_other.
  - intros. by apply read_attributes_wins.
  - intros. by eapply read_attributes_failed.
  - intros entry. vm_compute. by intros [= <-].
Qed.

End Collector.

(** ** The claims at work on concrete stores and scenes *)

Section Witnesses.

Import VersionManager Examples Scene LightFinderFunctions.
#[local] Existing Instance ToyScene.toy_api.


Lemma version_allocation_witness :
  (exists w',
     create_new_version store "rig" rig_135
     = (Ret (base_path store // "rig" // Str.str (Spec.max_plus_one [5; 3; 1]%Z)), w')
     /\ Forall (fun v => v < Spec.max_plus_one [5; 3; 1]%Z)%Z [5; 3; 1]%Z
     /\ FS.exists_ (fs rig_135)
          (base_path store // "rig" // Str.str (Spec.max_plus_one [5; 3; 1]%Z)) = false
     /\ FS.is_dir (fs w')
          (base_path store // "rig" // Str.str (Spec.max_plus_one [5; 3; 1]%Z)) = true
     /\ get_versions store "rig" w'
        = (Ret (Spec.max_plus_one [5; 3; 1]%Z :: [5; 3; 1]%Z), w'))
  /\ (exists w',
     create_new_version store "rig" rig_135
     = (Ret (base_path store // "rig" // "6"), w')
     /\ get_versions store "rig" w' = (Ret [6; 5; 3; 1]%Z, w'))
  /\ (exists w',
       create_new_version store "rig" new_store
       = (Ret (base_path store // "rig" // Str.str 1), w')
       /\ get_versions store "rig" w' = (Ret [1%Z], w'))
  /\ (exists oks w',
       publish_each store "rig"
         [("t1", 1%positive); ("t2", 2%positive); ("t3", 1%positive)] new_store
       = (Ret oks, w')
       /\ get_versions store "rig" w' = (Ret [3; 2; 1]%Z, w')
       /\ get_latest_version store "rig" w' = (Ret (Some 3%Z), w')).
Proof.
  destruct version_allocation_max_plus_one as (H1 & H2 & H3 & H4).
  split; [|split; [|split]].
  - apply (H1 store "rig" rig_135 [5; 3; 1]%Z); vm_compute; reflexivity.
  - apply (H4 store "rig" rig_135); vm_compute; reflexivity.
  - apply (H2 store "rig" new_store); vm_compute; reflexivity.
  - apply (H3 store "rig" new_store
             [("t1", 1%positive); ("t2", 2%positive); ("t3", 1%positive)]);
      [vm_compute; reflexivity..|].
    repeat constructor; vm_compute; eexists; reflexivity.
Defined.

Lemma new_store_publishable : publishable new_store store "rig" 1.
Proof. left. repeat split; vm_compute; reflexivity. Defined.

Lemma rig_135_publishable : publishable rig_135 store "rig" 6.
Proof.
  right. split; [vm_compute; reflexivity|].
  exists [5; 3; 1]%Z. repeat split; vm_compute; reflexivity.
Defined.


Lemma load_file_returns_absence_witness :
  load_file store "rig" 2 rig_135 = (Ret None, rig_135)
  /\ load_file store "ghost" 1 rig_135 = (Ret None, rig_135)
  /\ (exists w', load_file store "rig" 5 rig_135 = (Ret None, w')
                 /\ stdout w' = stdout rig_135 ++ ["Error loading file: Expecting value"])
  /\ (exists w' line, load_file (Make []) "store" (-1) 
                        (World (file_tree [("store", file_tree [("-1", file_tree [("store.json", file_tree [])])])]) ∅ [])
                      = (Ret None, w')
                      /\ stdout w' = [line]).
Proof.
  split; [|split; [|split]].
  - destruct (load_file_returns_absence store "rig" 2 rig_135) as (_ & H & _).
    apply H. vm_compute; reflexivity.
  - destruct (load_file_returns_absence store "ghost" 1 rig_135) as (_ & _ & H & _).
    apply H; vm_compute; reflexivity.
  - destruct (load_file_returns_absence store "rig" 5 rig_135) as (_ & _ & _ & H & _).
    apply H. vm_compute; reflexivity.
  - destruct (load_file_returns_absence (Make []) "store" (-1)
                (World (file_tree [("store", file_tree [("-1", file_tree [("store.json", file_tree [])])])]) ∅ []))
      as (_ & _ & _ & _ & H).
    apply H. vm_compute; reflexivity.
Defined.

Lemma publish_mutates_record_witness :
  exists ok w',
    publish_file "2026-01-05T10:00:00" store "rig" 2%positive new_store = (Ret ok, w')
    /\ heap w' !! 2%positive = Some (stamped "2026-01-05T10:00:00" "rig" bad_record)
    /\ ok = false
    /\ stdout w'
       = ["Error publishing file: Object of type set is not JSON serializable"].
Proof.
  destruct (publish_mutates_record_in_place "2026-01-05T10:00:00" store "rig"
              2%positive new_store bad_record 1 new_store_publishable)
    as (ok & w' & Hpub & Hheap & _ & _ & _ & Hfail);
    [vm_compute; reflexivity..|].
  exists ok, w'. do 2 (split; [done|]).
  apply (Hfail (Exn TypeError "Object of type set is not JSON serializable")).
  vm_compute; reflexivity.
Defined.

Lemma store_root_resolution_witness :
  (exists n', init "/home/u" None redirected
              = (Ret (Make ["mnt"; "show"; "Published_lights"]), set_fs n' redirected)
              /\ FS.is_dir n' ["mnt"; "show"; "Published_lights"] = true)
  /\ (exists n', init "" (Some "/store") new_store
                 = (Ret (Make ["store"]), set_fs n' new_store)
                 /\ FS.is_dir n' ["store"] = true)
  /\ (exists n' cause,
        init "/home/u" None broken_env
        = (Ret (Make ["home"; "u"; "LgtFindr_maya"]),
           World n' (heap broken_env)
             [("Warning: Could not read env.json: " ++ cause)%string])
        /\ FS.is_dir n' ["home"; "u"; "LgtFindr_maya"] = true).
Proof.
  split; [|split].
  - destruct (store_root_resolution "/home/u" None redirected) as (H & _).
    destruct (FS.mkdir_p (fs redirected) ["mnt"; "show"; "Published_lights"])
      as [n'|] eqn:Hmk; [|by vm_compute in Hmk].
    exists n'.
    apply (H (JObj [("custom_path", JStr "/mnt/show")])
             [("custom_path", PyStr "/mnt/show")] "/mnt/show");
      try (vm_compute; reflexivity); try done.
  - destruct (store_root_resolution "" (Some "/store") new_store) as (_ & H & _).
    destruct (FS.mkdir_p (fs new_store) ["store"]) as [n'|] eqn:Hmk;
      [|by vm_compute in Hmk].
    exists n'. apply H; [left; vm_compute; reflexivity|done].
  - destruct (store_root_resolution "/home/u" None broken_env) as (_ & _ & H).
    destruct (FS.mkdir_p (fs broken_env) ["home"; "u"; "LgtFindr_maya"])
      as [n'|] eqn:Hmk; [|by vm_compute in Hmk].
    destruct (H n') as (cause & Hinit & Hdir);
      [right; left; vm_compute; reflexivity|done|].
    by exists n', cause.
Defined.

Lemma name_collision_resolution_witness :
  let entry := LightEntry "key1" "spotLight" [] [] in
  let st := ToyScene.start (ToyScene.with_object "key1" ToyScene.empty) in
  unique_name (objects (scene st)) "key1" = candidate "key1" 1
  /\ exists c,
      creation_requests (drop (length (calls st)) (calls (apply_light [] entry st).2))
      = [c]
      /\ requested_name c = "key1_1"
      /\ (requested_name c ∉ objects (scene st)).
Proof.
  intros entry st.
  destruct name_collision_resolution as (H & _).
  destruct (H _ ToyScene.toy_api [] entry st) as (_ & c & Hc & Hname & Hfree).
  split; [vm_compute; reflexivity|].
  exists c. split; [exact Hc|]. split; [exact Hname|].
  apply Hfree. vm_compute; reflexivity.
Defined.

Lemma creation_is_first_match_witness :
  creation_for "aiAreaLight with a point" "key"
  = CreateNode "aiAreaLight" ("key" ++ "Shape").
Proof.
  destruct creation_is_first_match as (_ & H & _).
  apply H. vm_compute; reflexivity.
Defined.


Lemma stored_value_normalises_witness :
  stored_value (PyTuple [PyFloat "1.0"; PyFloat "1.0"; PyFloat "1.0"])
  = PyList [PyFloat "1.0"; PyFloat "1.0"; PyFloat "1.0"]
  /\ stored_value (PyFloat "5.0") = PyFloat "5.0"
  /\ read_into ToyScene.studio "key" [] "translateX" = [("translateX", PyFloat "5.0")]
  /\ exists entry,
      collect_light_properties ToyScene.studio ["key"] = [entry]
      /\ dict_get (le_transform entry) "scale"
         = Some (PyList [PyFloat "1.0"; PyFloat "1.0"; PyFloat "1.0"]).
Proof.
  destruct stored_value_normalises as (_ & Hlong & Hother & Hread & Hstudio).
  split; [|split; [|split]].
  - apply (Hlong [PyFloat "1.0"; PyFloat "1.0"; PyFloat "1.0"]). simpl. lia.
  - apply Hother; discriminate.
  - apply (Hread _ ToyScene.toy_api ToyScene.studio "key" [] "translateX" (PyFloat "5.0")).
    vm_compute; reflexivity.
  - destruct (collect_light_properties ToyScene.studio ["key"]) as [|entry [|? ?]] eqn:Hc;
      try (vm_compute in Hc; discriminate Hc).
    exists entry. split; [reflexivity|].
    destruct (Hstudio entry) as (_ & H & _); [reflexivity|exact H].
Defined.

Lemma arnold_attributes_merge_last_witness :
  dict_get (read_attributes ToyScene.studio "keyShape" ["aiExposure"]
              [("aiExposure", PyStr "stale"); ("intensity", PyFloat "2.0")])
           "aiExposure"
  = Some (PyFloat "1.5")
  /\ exists entry,
      collect_light ToyScene.studio "key" = Some entry
      /\ dict_get (le_attributes entry) "aiExposure" = Some (PyFloat "1.5").
Proof.
  destruct arnold_attributes_merge_last as (Hlight & Hwins & _ & _).
  split.
  - apply (Hwins _ ToyScene.toy_api ToyScene.studio "keyShape" ["aiExposure"]
             [("aiExposure", PyStr "stale"); ("intensity", PyFloat "2.0")]
             "aiExposure" (PyFloat "1.5")).
    + apply (bool_decide_unpack _). vm_compute. exact I.
    + vm_compute; reflexivity.
  - destruct (collect_light ToyScene.studio "key") as [entry|] eqn:Hc;
      [|vm_compute in Hc; discriminate Hc].
    exists entry. split; [reflexivity|].
    destruct (Hlight _ ToyScene.toy_api ToyScene.studio "key" entry Hc)
      as (shape & rest & keyable & Hshapes & _ & _ & Hai & _).
    vm_compute in Hshapes. injection Hshapes as <- <-.
    apply (Hai (Some ["intensity"; "aiExposure"; "caching"]) "aiExposure" (PyFloat "1.5"));
      try (vm_compute; reflexivity).
    apply (bool_decide_unpack _). vm_compute. exact I.
Defined.

End Witnesses.

(** ** Where the hypotheses matter *)

Section Boundaries.

Import VersionManager Examples.

(** A directory whose name is a digit for [isdigit] but not for [int]
    makes the listing raise; [publish_file] then reports failure before it
    has touched the record. *)
Remark superscript_directory_raises :
  (get_versions store "rig" with_superscript).1
  = Raise (Exn ValueError "invalid literal for int()")
  /\ (publish_file "now" store "rig" 1%positive with_superscript).1 = Ret false
  /\ heap (publish_file "now" store "rig" 1%positive with_superscript).2 !! 1%positive
     = Some record.
Proof. by vm_compute. Qed.

(** A regular file on the name of the next version makes the allocation
    raise. *)
Remark file_on_next_name_raises :
  (get_versions store "rig" blocked_by_file).1 = Ret [1%Z]
  /\ (create_new_version store "rig" blocked_by_file).1
     = Raise (Exn FileExistsError "store/rig/2").
Proof. by vm_compute. Qed.

(** A [custom_path] that is true but not a string escapes the handler of
    [__init__]. *)
Remark numeric_custom_path_raises :
  (init "" (Some "store") numeric_override).1
  = Raise (Exn TypeError "expected str, bytes or os.PathLike object").
Proof. by vm_compute. Qed.

(** With an absolute asset name the record file is not looked for under
    the version path. *)
Remark absolute_asset_name_reads_outside :
  FS.exists_ (fs outside_record) (get_version_path store "/x" 1) = false
  /\ (load_file store "/x" 1 outside_record).1 = Ret (Some (PyDict [("lights", PyList [])])).
Proof. by vm_compute. Qed.

(** A tuple is written as an array and comes back as a list. *)
Remark tuple_comes_back_as_list :
  to_json (PyDict [("color", PyTuple [PyInt 1; PyInt 0; PyInt 0])])
  = Ret (JObj [("color", JArr [JInt 1; JInt 0; JInt 0])])
  /\ of_json (JObj [("color", JArr [JInt 1; JInt 0; JInt 0])])
     = PyDict [("color", PyList [PyInt 1; PyInt 0; PyInt 0])].
Proof. by vm_compute. Qed.

End Boundaries.

(** * Further properties of the store *)

(** ** The order of names *)

Section NameOrder.

Import Listing.

Lemma code_inj (x y : ascii) : Str.code x = Str.code y -> x = y.
Proof.
  unfold Str.code. intros Heq.
  by rewrite <- (ascii_N_embedding x), <- (ascii_N_embedding y), Heq.
Qed.

#[local] Instance str_le_total : Total str_le.
Proof.
  unfold str_le. intros a. induction a as [|x a IH]; intros [|y b]; simpl; auto.
  destruct (N.ltb_spec (Str.code x) (Str.code y)),
    (N.ltb_spec (Str.code y) (Str.code x)); auto; try lia.
  assert (Str.code x = Str.code y) as Heq by lia.
  rewrite Heq, N.eqb_refl. apply IH.
Qed.

#[local] Instance str_le_trans : Transitive str_le.
Proof.
  unfold str_le. intros a. induction a as [|x a IH]; intros [|y b] [|z c]; simpl; auto;
    try done.
  destruct (N.ltb_spec (Str.code x) (Str.code y)),
    (N.ltb_spec (Str.code y) (Str.code z)),
    (N.ltb_spec (Str.code x) (Str.code z)); auto; try lia;
    repeat match goal with
           | |- context [(?u =? ?v)%N] => destruct (N.eqb_spec u v)
           end; try done; try lia.
  apply IH.
Qed.

#[local] Instance str_le_antisymm : AntiSymm eq str_le.
Proof.
  unfold str_le. intros a. induction a as [|x a IH]; intros [|y b]; simpl; try done.
  destruct (N.ltb_spec (Str.code x) (Str.code y)),
    (N.ltb_spec (Str.code y) (Str.code x)); try lia; try done;
    repeat match goal with
           | |- context [(?u =? ?v)%N] => destruct (N.eqb_spec u v)
           end; try done; try lia.
  intros Hab Hba. f_equal; [by apply code_inj|by apply IH].
Qed.

Lemma sorted_names_sorted (names : list string) :
  StronglySorted str_le (sorted_names names).
Proof. apply (StronglySorted_merge_sort str_le). Qed.

Lemma sorted_names_perm (names : list string) : sorted_names names ≡ₚ names.
Proof. apply (merge_sort_Permutation str_le). Qed.

End NameOrder.

(** ** Listing assets and versions *)

Section Listings.

Import VersionManager Listing.

Implicit Types (w : world) (self : t) (m mb : gmap string FS.node).

Lemma directory_names_elem items a :
  a ∈ directory_names items <-> exists sub, (a, FS.Dir sub) ∈ items.
Proof.
  induction items as [|[name item] items IH]; simpl.
  - split; [by intros ?%elem_of_nil|]. by intros (? & ?%elem_of_nil).
  - destruct item as [c|sub0]; simpl.
    + rewrite IH. split; intros (sub & Hin); exists sub; [by right|].
      by apply elem_of_cons in Hin as [?|?]; simplify_eq.
    + rewrite elem_of_cons, IH. split.
      * intros [->|(sub & Hin)]; [exists sub0; by left|exists sub; by right].
      * intros (sub & Hin). apply elem_of_cons in Hin as [?|?]; simplify_eq; eauto.
Qed.

Lemma directory_names_sublist items : directory_names items `sublist_of` items.*1.
Proof.
  induction items as [|[name item] items IH]; simpl; [done|].
  destruct (FS.node_is_dir item); by constructor.
Qed.

Lemma get_all_assets_at self w mb :
  FS.lookup (fs w) (base_path self) = Some (FS.Dir mb) ->
  get_all_assets self w
  = (Ret (sorted_names (directory_names (map_to_list mb))), w).
Proof.
  intros Hl. unfold get_all_assets, bind, fs_query, lift, ret, FS.exists_, FS.iterdir, id.
  cbn beta. rewrite Hl. simpl. by rewrite Hl.
Qed.

(** X3. [get_all_assets] gives the names of the directories directly under
    the root, each once, in the order of [str]; regular files (the override
    record among them) are left out; a root that does not exist gives the
    empty list, a regular file in the place of the root makes it raise. *)
Theorem get_all_assets_lists_directories self w :
  (forall mb,
     FS.lookup (fs w) (base_path self) = Some (FS.Dir mb) ->
     exists assets,
       get_all_assets self w = (Ret assets, w)
       /\ StronglySorted str_le assets
       /\ NoDup assets
       /\ forall a, a ∈ assets <-> exists sub, mb !! a = Some (FS.Dir sub))
  /\ (FS.exists_ (fs w) (base_path self) = false ->
      get_all_assets self w = (Ret [], w))
  /\ (FS.is_file (fs w) (base_path self) = true ->
      get_all_assets self w
      = (Raise (FS.oserror NotADirectoryError (base_path self)), w)).
Proof.
  split; [|split].
  - intros mb Hl. rewrite (get_all_assets_at _ _ _ Hl).
    eexists. split; [done|]. split; [apply sorted_names_sorted|]. split.
    + rewrite sorted_names_perm.
      apply (sublist_NoDup _ (map_to_list mb).*1);
        [apply NoDup_fst_map_to_list|apply directory_names_sublist].
    + intros a. rewrite sorted_names_perm, directory_names_elem.
      by setoid_rewrite elem_of_map_to_list.
  - unfold get_all_assets, bind, fs_query, ret, FS.exists_. cbn beta.
    destruct (FS.lookup (fs w) (base_path self)); [done|]. intros _.
    assert (sorted_names [] = []) as ->; [|done].
    apply Permutation_nil_r. by rewrite sorted_names_perm.
  - unfold get_all_assets, bind, fs_query, lift, ret, FS.exists_, FS.is_file,
      FS.iterdir, id. cbn beta.
    destruct (FS.lookup (fs w) (base_path self)) as [[c|?]|] eqn:Hl; try done.
    intros _. simpl. by rewrite Hl.
Qed.

Lemma version_numbers_from items vs v :
  version_numbers items = Ret vs -> v ∈ vs ->
  exists name sub, (name, FS.Dir sub) ∈ items
                   /\ Str.isdigit name = true /\ Str.int name = Ret v.
Proof.
  revert vs. induction items as [|[name item] items IH]; intros vs; simpl.
  - intros; simplify_eq. by apply elem_of_nil in H0.
  - destruct (FS.node_is_dir item && Str.isdigit name) eqn:Hd.
    + destruct (Str.int name) as [v'|] eqn:Hv; [|done].
      destruct (version_numbers items) as [vs'|]; [|done].
      intros ? Hin; simplify_eq.
      apply andb_true_iff in Hd as [Hdir Hdig].
      apply elem_of_cons in Hin as [->|Hin].
      * destruct item as [|sub]; [done|]. exists name, sub. split; [by left|done].
      * destruct (IH _ eq_refl Hin) as (n & sub & ? & ? & ?).
        exists n, sub. split; [by right|done].
    + intros Hvs Hin. destruct (IH _ Hvs Hin) as (n & sub & ? & ? & ?).
      exists n, sub. split; [by right|done].
Qed.

(** The listing raises only on a directory whose digit name [int]
    rejects. *)
Lemma version_numbers_returns items :
  (forall name sub, (name, FS.Dir sub) ∈ items -> Str.isdigit name = true ->
                    exists v, Str.int name = Ret v) ->
  exists vs, version_numbers items = Ret vs.
Proof.
  induction items as [|[name item] items IH]; intros Hall; simpl; [by eexists|].
  destruct IH as (vs & ->).
  { intros n sub Hin. apply (Hall n sub). by right. }
  destruct (FS.node_is_dir item && Str.isdigit name) eqn:Hd; [|by eexists].
  apply andb_true_iff in Hd as [Hdir Hdig]. destruct item as [|sub]; [done|].
  destruct (Hall name sub) as (v & ->); [by left|done|]. by eexists.
Qed.

(** X1. [get_versions] on an asset directory: when every digit-named
    subdirectory has a name that [int] reads, the result is the list, greatest
    first, of exactly the numbers of those subdirectories; regular files
    and other names are ignored and the store is left as it was.  An asset
    that does not exist has no versions. *)
Theorem get_versions_lists_digit_directories self asset w :
  (forall m,
     FS.lookup (fs w) (base_path self // asset) = Some (FS.Dir m) ->
     (forall name sub, m !! name = Some (FS.Dir sub) -> Str.isdigit name = true ->
                       exists v, Str.int name = Ret v) ->
     exists vs,
       get_versions self asset w = (Ret vs, w)
       /\ StronglySorted (flip Z.le) vs
       /\ forall v, v ∈ vs <->
            exists name sub, m !! name = Some (FS.Dir sub)
                             /\ Str.isdigit name = true /\ Str.int name = Ret v)
  /\ (FS.exists_ (fs w) (base_path self // asset) = false ->
      get_versions self asset w = (Ret [], w)).
Proof.
  split.
  - intros m Hl Hparse. rewrite (get_versions_at _ _ _ _ Hl).
    destruct (version_numbers_returns (map_to_list m)) as (vs & Hvs).
    { intros name sub Hin. apply (Hparse name sub). by apply elem_of_map_to_list. }
    rewrite Hvs. eexists. split; [done|]. split; [apply sorted_reverse_sorted|].
    intros v. rewrite sorted_reverse_perm_self. split.
    + intros Hin. destruct (version_numbers_from _ _ _ Hvs Hin) as (n & sub & Hn & ? & ?).
      exists n, sub. by apply elem_of_map_to_list in Hn.
    + intros (n & sub & Hn & Hdig & Hv).
      apply elem_of_map_to_list in Hn.
      destruct (version_numbers_listed _ _ _ _ Hvs Hn Hdig) as (v' & Hv' & ?).
      congruence.
  - unfold FS.exists_. intros Hnone. apply get_versions_absent.
    by destruct (FS.lookup _ _).
Qed.

(** What [get_versions] returns is in descending order, and the store is
    as before. *)
Lemma get_versions_sorted self asset w vs w' :
  get_versions self asset w = (Ret vs, w') ->
  w' = w /\ StronglySorted (flip Z.le) vs.
Proof.
  unfold get_versions, bind, fs_query, lift, ret, FS.iterdir, id. cbn beta.
  destruct (FS.exists_ (fs w) _).
  - destruct (FS.lookup (fs w) _) as [[c|m]|]; simpl; try done.
    destruct (version_numbers _); [|done].
    intros; simplify_eq. split; [done|apply sorted_reverse_sorted].
  - intros; simplify_eq. split; [done|apply sorted_reverse_sorted].
Qed.

(** X2. [get_latest_version] returns the greatest number [get_versions]
    lists, and [None] exactly when the list is empty. *)
Theorem get_latest_version_is_greatest self asset w vs :
  get_versions self asset w = (Ret vs, w) ->
  exists latest,
    get_latest_version self asset w = (Ret latest, w)
    /\ (latest = None <-> vs = [])
    /\ forall v, latest = Some v -> v ∈ vs /\ Forall (fun x => x <= v)%Z vs.
Proof.
  intros Hv. destruct (get_versions_sorted _ _ _ _ _ Hv) as [_ Hsorted].
  exists (head vs). split; [by apply get_latest_version_of|].
  destruct vs as [|h t]; simpl; [done|]. split; [done|].
  intros v [= <-]. split; [by left|].
  apply StronglySorted_inv in Hsorted as [_ Ht].
  constructor; [lia|]. eapply Forall_impl; [done|]. unfold flip. auto.
Qed.

End Listings.

(** ** What an operation on one path leaves alone *)

Section TreeFrame.

Import Frame.

Implicit Types (n : FS.node) (p q r whole : path).

Lemma lookup_empty_dir r : r <> [] -> FS.lookup (FS.Dir ∅) r = None.
Proof. destruct r as [|s r]; [done|]. intros _. simpl. by rewrite lookup_empty. Qed.

Lemma diverges_app r p q : diverges r p -> diverges r (p ++ q).
Proof.
  intros (c & a & b & r' & p' & -> & -> & Hne).
  exists c, a, b, r', (p' ++ q). by rewrite <- app_assoc.
Qed.

Lemma diverges_cons s r p : diverges r p -> diverges (s :: r) (s :: p).
Proof.
  intros (c & a & b & r' & p' & -> & -> & Hne). by exists (s :: c), a, b, r', p'.
Qed.

Lemma diverges_inv s r t p :
  diverges (s :: r) (t :: p) -> s <> t \/ (s = t /\ diverges r p).
Proof.
  intros ([|x c] & a & b & r' & p' & Hr & Hp & Hne); simplify_eq/=; [by left|].
  right. split; [done|]. by exists c, a, b, r', p'.
Qed.

Lemma diverges_nonempty r p : diverges r p -> r <> [] /\ p <> [].
Proof. intros ([|x c] & a & b & r' & p' & -> & -> & Hne); done. Qed.

(** [mkdir] changes nothing on the paths that leave its own. *)
Lemma mkdir_at_frame whole n p n' r :
  FS.mkdir_at whole n p = Ret n' -> diverges r p ->
  FS.lookup n' r = FS.lookup n r.
Proof.
  revert n n' r. induction p as [|t p IH]; intros n n' r Hmk Hd.
  { by destruct (diverges_nonempty _ _ Hd). }
  destruct r as [|s r]; [by destruct (diverges_nonempty _ _ Hd)|].
  simpl in Hmk. destruct n as [c|m]; [done|].
  destruct (FS.mkdir_at whole (default (FS.Dir ∅) (m !! t)) p) as [ch|] eqn:Hch; [|done].
  simplify_eq. simpl. apply diverges_inv in Hd as [Hne|[-> Hd]].
  - by rewrite lookup_insert_ne.
  - rewrite lookup_insert_eq. rewrite (IH _ _ _ Hch Hd).
    destruct (m !! t); simpl; [done|].
    apply lookup_empty_dir. by destruct (diverges_nonempty _ _ Hd).
Qed.

(** So does writing a file. *)
Lemma write_at_frame whole n p c n' r :
  FS.write_at whole n p c = Ret n' -> diverges r p ->
  FS.lookup n' r = FS.lookup n r.
Proof.
  revert n n' r. induction p as [|t p IH]; intros n n' r Hw Hd.
  { by destruct (diverges_nonempty _ _ Hd). }
  destruct r as [|s r]; [by destruct (diverges_nonempty _ _ Hd)|].
  simpl in Hw. destruct n as [c0|m]; [done|].
  destruct (m !! t) as [ch|] eqn:Ht.
  - destruct (FS.write_at whole ch p c) as [ch'|] eqn:Hch; [|done].
    simplify_eq. simpl. apply diverges_inv in Hd as [Hne|[-> Hd]].
    + by rewrite lookup_insert_ne.
    + by rewrite lookup_insert_eq, Ht, (IH _ _ _ Hch Hd).
  - destruct p; [|done]. simplify_eq. simpl.
    apply diverges_inv in Hd as [Hne|[-> Hd]].
    + by rewrite lookup_insert_ne.
    + by destruct (diverges_nonempty _ _ Hd).
Qed.

Lemma keeps_outside_ret {A} p (a : A) : keeps_outside p (ret a).
Proof. by intros w r _. Qed.

Lemma keeps_outside_bind {A B} p (m : M world A) (k : A -> M world B) :
  keeps_outside p m -> (forall a, keeps_outside p (k a)) ->
  keeps_outside p (bind m k).
Proof.
  intros Hm Hk w r Hd. unfold bind. specialize (Hm w r Hd).
  destruct (m w) as [[a|e] w1]; simpl in *; [|done].
  by rewrite (Hk a w1 r Hd).
Qed.

Lemma keeps_outside_try {A} p (m : M world A) (h : exn -> M world A) :
  keeps_outside p m -> (forall e, keeps_outside p (h e)) ->
  keeps_outside p (try_except m h).
Proof.
  intros Hm Hh w r Hd. unfold try_except. specialize (Hm w r Hd).
  destruct (m w) as [[a|e] w1]; simpl in *; [done|].
  by rewrite (Hh e w1 r Hd).
Qed.

Lemma keeps_outside_same_fs {A} p (m : M world A) :
  (forall w, fs (m w).2 = fs w) -> keeps_outside p m.
Proof. intros Hfs w r _. by rewrite Hfs. Qed.

Lemma keeps_outside_mkdir p q :
  keeps_outside p (fs_update (fun n => FS.mkdir_p n (p ++ q))).
Proof.
  intros w r Hd. unfold fs_update.
  destruct (FS.mkdir_p (fs w) (p ++ q)) as [n'|] eqn:Hmk; simpl; [|done].
  eapply mkdir_at_frame; [done|]. by apply diverges_app.
Qed.

Lemma keeps_outside_write p q c :
  keeps_outside p (fs_update (fun n => FS.write_file n (p ++ q) c)).
Proof.
  intros w r Hd. unfold fs_update.
  destruct (FS.write_file (fs w) (p ++ q) c) as [n'|] eqn:Hw; simpl; [|done].
  eapply write_at_frame; [done|]. by apply diverges_app.
Qed.

End TreeFrame.

(** ** What a publish leaves alone *)

Section PublishFrame.

Import VersionManager Frame.

Implicit Types (w : world) (self : t).

Lemma plain_name_str_all (z : Z) : Path.plain_name (Str.str z) = true.
Proof.
  destruct z as [|p|p]; [done|by apply plain_name_str|].
  unfold Path.plain_name, Path.keep_segment, Str.str.
  rewrite contains_slash, negb_involutive, append_cons, append_nil_l.
  change (NilZero.string_of_uint (N.to_uint (N.pos p))) with (Str.str (Z.pos p)).
  pose proof (all_digits_str (Z.pos p) ltac:(lia)) as Hd.
  pose proof (all_chars_impl _ _ _ digit_not_slash Hd) as Hs.
  pose proof (str_nonempty (Z.pos p)) as Hne.
  cbn [Str.all_chars]. rewrite Hs.
  destruct (Str.str (Z.pos p)); [done|].
  by repeat case_bool_decide.
Qed.

Lemma get_versions_same_store self asset w :
  (get_versions self asset w).2 = w.
Proof.
  unfold get_versions, bind, fs_query, lift, ret, FS.iterdir, id. cbn beta.
  destruct (FS.exists_ (fs w) _); [|done].
  destruct (FS.lookup (fs w) _) as [[c|m]|]; simpl; try done.
  by destruct (version_numbers _).
Qed.

Lemma get_latest_version_same_store self asset w :
  (get_latest_version self asset w).2 = w.
Proof.
  unfold get_latest_version, bind. pose proof (get_versions_same_store self asset w).
  by destruct (get_versions self asset w) as [[vs|e] w1]; simpl in *.
Qed.

(** [create_new_version] only touches the file tree, below the asset. *)
Lemma create_new_version_keeps self asset :
  keeps_outside (base_path self // asset) (create_new_version self asset).
Proof.
  unfold create_new_version. cbv zeta. apply keeps_outside_bind.
  { pose proof (keeps_outside_mkdir (base_path self // asset) []) as Hmk.
    by rewrite app_nil_r in Hmk. }
  intros _. apply keeps_outside_bind.
  { apply keeps_outside_same_fs. intros w. by rewrite get_latest_version_same_store. }
  intros latest. apply keeps_outside_bind; [|intros; apply keeps_outside_ret].
  rewrite (join_plain _ (Str.str _)) by apply plain_name_str_all.
  apply keeps_outside_mkdir.
Qed.

Lemma create_new_version_keeps_heap self asset w :
  heap (create_new_version self asset w).2 = heap w
  /\ stdout (create_new_version self asset w).2 = stdout w.
Proof.
  unfold create_new_version, bind, fs_update.
  destruct (FS.mkdir_p (fs w) _); simpl; [|done].
  match goal with |- context [get_latest_version ?s ?a ?w0] =>
    pose proof (get_latest_version_same_store s a w0) as Hsame;
    destruct (get_latest_version s a w0) as [[latest|e] w1] end;
  simpl in *; subst w1; [|done].
  by destruct (FS.mkdir_p _ _).
Qed.

Lemma keeps_outside_bind_post {A B} p (m : M world A) (k : A -> M world B)
    (P : A -> Prop) :
  keeps_outside p m ->
  (forall w a w1, m w = (Ret a, w1) -> P a) ->
  (forall a, P a -> keeps_outside p (k a)) ->
  keeps_outside p (bind m k).
Proof.
  intros Hm Hpost Hk w r Hd. unfold bind. specialize (Hm w r Hd).
  destruct (m w) as [[a|e] w1] eqn:Hmw; simpl in *; [|done].
  by rewrite (Hk a (Hpost _ _ _ Hmw) w1 r Hd).
Qed.

(** The path [create_new_version] returns is one segment, a numeral, below
    the asset's directory. *)
Lemma create_new_version_path self asset w version_path w1 :
  create_new_version self asset w = (Ret version_path, w1) ->
  exists z, version_path = base_path self // asset ++ [Str.str z].
Proof.
  unfold create_new_version, bind, fs_update, ret. cbv zeta.
  destruct (FS.mkdir_p (fs w) _); [|done].
  destruct (get_latest_version _ _ _) as [[latest|e] w0]; [|done].
  destruct (FS.mkdir_p _ _); [|done].
  intros [= <- _]. eexists. by rewrite (join_plain _ (Str.str _)) by apply plain_name_str_all.
Qed.

(** A publish under a relative asset name changes the file tree only below
    the asset's directory, whatever its outcome. *)
Lemma publish_file_keeps now self asset r :
  Str.starts_with "/" asset = false ->
  keeps_outside (base_path self // asset) (publish_file now self asset r).
Proof.
  intros Hrel. unfold publish_file. apply keeps_outside_try.
  2: { intros e. apply keeps_outside_bind; [|intros; apply keeps_outside_ret].
       by apply keeps_outside_same_fs. }
  apply (keeps_outside_bind_post _ _ _
           (fun vp => exists z, vp = base_path self // asset ++ [Str.str z])).
  { apply create_new_version_keeps. }
  { intros w vp w1. apply create_new_version_path. }
  intros vp (z & ->). cbv zeta.
  assert (forall c, keeps_outside (base_path self // asset)
            (fs_update (fun n => FS.write_file n
               ((base_path self // asset ++ [Str.str z]) // (asset ++ ".json")%string) c)))
    as Hwrite.
  { intros c. unfold Path.join at 2. rewrite (starts_with_json _ Hrel), <- app_assoc.
    apply keeps_outside_write. }
  apply keeps_outside_bind.
  { apply keeps_outside_same_fs. intros w. unfold heap_setitem.
    by destruct (heap w !! r). }
  intros _. apply keeps_outside_bind.
  { apply keeps_outside_same_fs. intros w. unfold heap_setitem.
    by destruct (heap w !! r). }
  intros _. apply keeps_outside_bind; [apply Hwrite|].
  intros _. apply keeps_outside_bind.
  { apply keeps_outside_same_fs. intros w. unfold heap_read.
    by destruct (heap w !! r). }
  intros d. apply keeps_outside_bind; [|intros; apply keeps_outside_ret].
  unfold json_dump. destruct (to_json (PyDict d)); [apply Hwrite|].
  by apply keeps_outside_same_fs.
Qed.

End PublishFrame.

Section PublishInvariants.

Import VersionManager Listing Frame.

Implicit Types (w : world) (self : t).

Lemma plain_not_absolute (s : string) :
  Path.plain_name s = true -> Str.starts_with "/" s = false.
Proof.
  unfold Path.plain_name. intros [_ Hc]%andb_true_iff.
  apply negb_true_iff in Hc. destruct s; [done|].
  simpl in Hc. by apply orb_false_iff in Hc as [? _].
Qed.

Lemma get_versions_result_depends self asset w1 w2 :
  FS.lookup (fs w1) (base_path self // asset)
  = FS.lookup (fs w2) (base_path self // asset) ->
  (get_versions self asset w1).1 = (get_versions self asset w2).1.
Proof.
  intros Heq. unfold get_versions, bind, fs_query, lift, ret, FS.exists_, FS.iterdir, id.
  cbn beta. rewrite Heq.
  destruct (FS.lookup (fs w2) _) as [[c|m]|] eqn:Hl2; simpl;
    rewrite ?Heq, ?Hl2; simpl; try done.
  by destruct (version_numbers _).
Qed.

Lemma load_file_result_depends self asset v w1 w2 :
  FS.lookup (fs w1) (get_version_path self asset v // (asset ++ ".json")%string)
  = FS.lookup (fs w2) (get_version_path self asset v // (asset ++ ".json")%string) ->
  (load_file self asset v w1).1 = (load_file self asset v w2).1.
Proof.
  intros Heq. rewrite !load_file_eq, Heq.
  by destruct (FS.lookup (fs w2) _) as [[[j|]|m]|].
Qed.

(** X5. A publish to one asset leaves every other asset as it was: the
    versions [get_versions] lists for it and what [load_file] returns for
    any of its versions are the same after the publish as before, whether
    the publish succeeded or not. *)
Theorem publish_leaves_other_assets now self asset other r w :
  Path.plain_name asset = true -> Path.plain_name other = true ->
  asset <> other ->
  (get_versions self other (publish_file now self asset r w).2).1
  = (get_versions self other w).1
  /\ forall v,
      (load_file self other v (publish_file now self asset r w).2).1
      = (load_file self other v w).1.
Proof.
  intros Hplain Hother Hne.
  pose proof (publish_file_keeps now self asset r (plain_not_absolute _ Hplain) w)
    as Hkeep.
  rewrite (join_plain _ asset) in Hkeep by done.
  assert (forall rest, diverges (base_path self ++ other :: rest) (base_path self ++ [asset]))
    as Hd.
  { intros rest. by exists (base_path self), other, asset, rest, []. }
  split.
  - apply get_versions_result_depends. rewrite (join_plain _ other) by done.
    apply Hkeep, Hd.
  - intros v. apply load_file_result_depends. unfold get_version_path.
    rewrite (join_plain _ other), (join_plain _ (Str.str v)),
      (join_plain _ (other ++ ".json")%string)
      by (done || apply plain_name_str_all || by apply plain_name_json).
    rewrite <- !app_assoc. apply Hkeep, Hd.
Qed.

Lemma mkdir_at_below whole n p n' rest :
  FS.mkdir_at whole n p = Ret n' -> rest <> [] ->
  FS.lookup n' (p ++ rest) = FS.lookup n (p ++ rest).
Proof.
  revert n n'. induction p as [|t p IH]; intros n n' Hmk Hrest; simpl in *.
  - by destruct n; simplify_eq.
  - destruct n as [c|m]; [done|].
    destruct (FS.mkdir_at whole (default (FS.Dir ∅) (m !! t)) p) as [ch|] eqn:Hch; [|done].
    simplify_eq. simpl. rewrite lookup_insert_eq, (IH _ _ Hch Hrest).
    destruct (m !! t); simpl; [done|].
    apply lookup_empty_dir. by destruct p.
Qed.

(** X6. A publish never alters an earlier version: for every version
    number other than the one it allocates, [load_file] returns after the
    publish what it returned before. *)
Theorem publish_keeps_earlier_versions now self asset r w d next v :
  publishable w self asset next ->
  Path.plain_name asset = true ->
  heap w !! r = Some d ->
  (0 <= v)%Z -> v <> next ->
  (load_file self asset v (publish_file now self asset r w).2).1
  = (load_file self asset v w).1.
Proof.
  intros Hpub Hplain Hr Hv Hne.
  destruct (publishable_asset_dir _ _ _ _ Hpub Hplain)
    as (m & vs & Hdir & Hvs & -> & Hnof).
  destruct (create_new_version_at self asset w m vs Hdir Hvs Hnof)
    as (Hge & _ & _ & _).
  destruct (publish_file_at now self asset r w m vs d Hdir Hvs Hnof Hplain Hr)
    as (w' & Hres & _ & Hl & _).
  rewrite Hres. simpl. apply load_file_result_depends. unfold get_version_path.
  rewrite (join_plain _ (Str.str v)), (join_plain _ (asset ++ ".json")%string)
    by (apply plain_name_str_all || by apply plain_name_json).
  rewrite <- app_assoc. simpl.
  destruct Hdir as (n1 & Hmk & Hn1).
  rewrite <- (mkdir_at_below _ _ _ _ [Str.str v; (asset ++ ".json")%string] Hmk) by done.
  rewrite !lookup_app, Hl, Hn1. simpl.
  rewrite lookup_insert_ne; [done|].
  intros Heq. apply str_inj in Heq; lia.
Qed.

Lemma get_all_assets_elem self w mb :
  FS.lookup (fs w) (base_path self) = Some (FS.Dir mb) ->
  exists assets,
    get_all_assets self w = (Ret assets, w)
    /\ forall a, a ∈ assets <-> exists sub, mb !! a = Some (FS.Dir sub).
Proof.
  intros Hl. rewrite (get_all_assets_at _ _ _ Hl). eexists. split; [done|].
  intros a. rewrite sorted_names_perm, directory_names_elem.
  by setoid_rewrite elem_of_map_to_list.
Qed.

(** X4. After a publish under a name that a directory listing can give
    (one segment, not [..]) the asset is among the assets [get_all_assets]
    lists, next to exactly those that were listed before. *)
Theorem publish_adds_asset_to_listing now self asset r w d next assets :
  publishable w self asset next ->
  entry_name asset = true ->
  heap w !! r = Some d ->
  get_all_assets self w = (Ret assets, w) ->
  exists assets',
    get_all_assets self (publish_file now self asset r w).2
    = (Ret assets', (publish_file now self asset r w).2)
    /\ forall a, a ∈ assets' <-> a = asset \/ a ∈ assets.
Proof.
  intros Hpub [Hplain _]%andb_true_iff Hr Hassets.
  assert (exists mb, FS.lookup (fs w) (base_path self) = Some (FS.Dir mb)) as (mb & Hmb).
  { destruct Hpub as [(Hbase & _)|(Hdir & _)]; unfold FS.is_dir in *.
    - destruct (FS.lookup (fs w) (base_path self)) as [[c|mb]|]; try done. by exists mb.
    - rewrite join_plain, lookup_app in Hdir by done.
      destruct (FS.lookup (fs w) (base_path self)) as [[c|mb]|]; try done. by exists mb. }
  destruct (get_all_assets_elem self w mb Hmb) as (assets0 & Hassets0 & Helem).
  assert (assets0 = assets) as -> by congruence.
  pose proof (publish_file_keeps now self asset r (plain_not_absolute _ Hplain) w)
    as Hkeep.
  destruct (publishable_asset_dir _ _ _ _ Hpub Hplain)
    as (m & vs & Hdir & Hvs & -> & Hnof).
  destruct (publish_file_at now self asset r w m vs d Hdir Hvs Hnof Hplain Hr)
    as (w' & Hres & _ & Hl & _).
  rewrite Hres in *. simpl in *.
  rewrite (join_plain _ asset) in Hl, Hkeep by done.
  assert (exists mb', FS.lookup (fs w') (base_path self) = Some (FS.Dir mb')
                      /\ (exists sub, mb' !! asset = Some (FS.Dir sub))
                      /\ forall k, k <> asset -> mb' !! k = mb !! k)
    as (mb' & Hmb' & Hasset & Hothers).
  { rewrite lookup_app in Hl.
    destruct (FS.lookup (fs w') (base_path self)) as [[c|mb']|] eqn:Hb'; try done.
    exists mb'. split; [done|]. simpl in Hl. split.
    - destruct (mb' !! asset); simplify_eq. by eexists.
    - intros k Hk.
      assert (FS.lookup (fs w') (base_path self ++ [k])
              = FS.lookup (fs w) (base_path self ++ [k])) as Hsame.
      { apply Hkeep. by exists (base_path self), k, asset, [], []. }
      rewrite !lookup_app, Hb', Hmb in Hsame. simpl in Hsame.
      by destruct (mb' !! k), (mb !! k). }
  destruct (get_all_assets_elem self w' mb' Hmb') as (assets' & Hassets' & Helem').
  exists assets'. split; [done|]. intros a. rewrite Helem', Helem.
  destruct (decide (a = asset)) as [->|Hne].
  - split; [by left|done].
  - rewrite (Hothers a Hne). split; [by right|]. by intros [?|?].
Qed.

Lemma heap_setitem_run r k v w :
  heap_setitem r k v w
  = match heap w !! r with
    | Some d => (Ret tt, set_heap (<[r := dict_set d k v]> (heap w)) w)
    | None => (Raise (Exn TypeError "object does not support item assignment"), w)
    end.
Proof. done. Qed.

(** X7. [publish_file] never raises: in every store, for every name and
    record, it returns a Boolean.  When the version directory cannot be
    allocated it returns [False] with the record as it was and the cause
    printed; and it returns [True] only when the stamped record could be
    encoded. *)
Theorem publish_file_never_raises now self asset r w :
  exists ok w',
    publish_file now self asset r w = (Ret ok, w')
    /\ (forall e, (create_new_version self asset w).1 = Raise e ->
          ok = false /\ heap w' = heap w
          /\ stdout w' = stdout w ++ [("Error publishing file: " ++ exn_msg e)%string])
    /\ (ok = true ->
        exists d j, heap w !! r = Some d
                    /\ to_json (PyDict (stamped now asset d)) = Ret j
                    /\ heap w' !! r = Some (stamped now asset d)).
Proof.
  unfold publish_file, try_except, bind at 1.
  destruct (create_new_version_keeps_heap self asset w) as [Hheap Hout].
  destruct (create_new_version self asset w) as [[vp|e] w1]; simpl in Hheap, Hout.
  2: { unfold bind, print, modify, ret. simpl. eexists _, _. split; [done|]. split.
       - intros e' [= <-]. simpl. by rewrite Hheap, Hout.
       - done. }
  cbv zeta. unfold bind at 1. rewrite heap_setitem_run, Hheap.
  destruct (heap w !! r) as [d|] eqn:Hr.
  2: { unfold bind, print, modify, ret. simpl. eexists _, _. by repeat split. }
  unfold bind at 1. rewrite heap_setitem_run. simpl heap.
  rewrite lookup_insert_eq, insert_insert_eq. fold (stamped now asset d).
  unfold bind at 1, fs_update at 1. simpl fs.
  destruct (FS.write_file (fs w1) _ FS.Malformed) as [n2|e2].
  2: { unfold bind, print, modify, ret. simpl. eexists _, _. by repeat split. }
  unfold bind at 1, heap_read. simpl heap. rewrite lookup_insert_eq.
  unfold bind at 1, json_dump.
  destruct (to_json (PyDict (stamped now asset d))) as [j|e3] eqn:Hj.
  2: { unfold raise, bind, print, modify, ret. simpl. eexists _, _. by repeat split. }
  unfold fs_update. simpl fs.
  destruct (FS.write_file n2 _ (FS.Document j)) as [n3|e4].
  2: { unfold bind, print, modify, ret. simpl. eexists _, _. by repeat split. }
  unfold ret. simpl. eexists _, _. split; [done|]. split; [done|].
  intros _. exists d, j. simpl. by rewrite lookup_insert_eq.
Qed.

(** X8. A publish whose write fails still uses up its version number: the
    version directory is there, [get_latest_version] returns its number,
    and [load_file] finds no record in it. *)
Theorem failed_publish_consumes_version now self asset r w d next e :
  publishable w self asset next ->
  Path.plain_name asset = true ->
  heap w !! r = Some d ->
  to_json (PyDict (stamped now asset d)) = Raise e ->
  exists w',
    publish_file now self asset r w = (Ret false, w')
    /\ get_latest_version self asset w' = (Ret (Some next), w')
    /\ FS.is_dir (fs w') (get_version_path self asset next) = true
    /\ (load_file self asset next w').1 = Ret None.
Proof.
  intros Hpub Hplain Hr He.
  destruct (publish_file_outcome now self asset r w d next Hpub Hplain Hr)
    as (Hge & w' & Hres & _ & Hread & Hlatest & _).
  unfold written in Hread. rewrite He in Hres, Hread.
  exists w'. do 2 (split; [done|]).
  unfold FS.read_file in Hread.
  destruct (FS.lookup (fs w') _) as [[c|?]|] eqn:Hl; simplify_eq. split.
  - unfold FS.is_dir.
    rewrite (join_plain _ (asset ++ ".json")%string), lookup_app in Hl
      by (by apply plain_name_json).
    by destruct (FS.lookup (fs w') (get_version_path self asset next)) as [[?|?]|].
  - by rewrite load_file_eq, Hl.
Qed.

End PublishInvariants.

(* ================================================================== *)
(** ** The store on small trees *)

Section StoreExamples.

Import VersionManager Examples Listing Shelf.

Lemma get_versions_lists_witness :
  (exists vs,
     get_versions store "rig" rig_135 = (Ret vs, rig_135)
     /\ StronglySorted (flip Z.le) vs
     /\ forall v, v ∈ vs <->
          exists name sub,
            (list_to_map rig_entries : gmap string FS.node) !! name = Some (FS.Dir sub)
            /\ Str.isdigit name = true /\ Str.int name = Ret v)
  /\ get_versions store "ghost" rig_135 = (Ret [], rig_135).
Proof.
  destruct (get_versions_lists_digit_directories store "rig" rig_135) as [H1 _].
  destruct (get_versions_lists_digit_directories store "ghost" rig_135) as [_ H2].
  split.
  - apply (H1 (list_to_map rig_entries)).
    + vm_compute. reflexivity.
    + intros name sub Hin Hd.
      apply elem_of_list_to_map_2 in Hin.
      repeat (apply elem_of_cons in Hin as [Hin|Hin];
              [simplify_eq; first [by eexists; vm_compute|by vm_compute in Hd]|]).
      by apply elem_of_nil in Hin.
  - apply H2. vm_compute. reflexivity.
Defined.

Lemma get_latest_version_witness :
  exists latest,
    get_latest_version store "rig" rig_135 = (Ret latest, rig_135)
    /\ (latest = None <-> [5; 3; 1]%Z = [])
    /\ forall v, latest = Some v ->
                 v ∈ [5; 3; 1]%Z /\ Forall (fun x => x <= v)%Z [5; 3; 1]%Z.
Proof.
  apply (get_latest_version_is_greatest store "rig" rig_135 [5; 3; 1]%Z).
  vm_compute. reflexivity.
Defined.

Lemma get_all_assets_lists_witness :
  (exists assets,
     get_all_assets store shelf = (Ret assets, shelf)
     /\ StronglySorted str_le assets
     /\ NoDup assets
     /\ forall a, a ∈ assets <->
          exists sub,
            (list_to_map shelf_entries : gmap string FS.node) !! a = Some (FS.Dir sub))
  /\ get_all_assets (Make ["nowhere"]) shelf = (Ret [], shelf)
  /\ get_all_assets (Make ["store"; "readme"]) shelf
     = (Raise (FS.oserror NotADirectoryError ["store"; "readme"]), shelf).
Proof.
  destruct (get_all_assets_lists_directories store shelf) as (H1 & _ & _).
  destruct (get_all_assets_lists_directories (Make ["nowhere"]) shelf) as (_ & H2 & _).
  destruct (get_all_assets_lists_directories (Make ["store"; "readme"]) shelf)
    as (_ & _ & H3).
  split; [|split].
  - apply (H1 (list_to_map shelf_entries)). vm_compute. reflexivity.
  - apply H2. vm_compute. reflexivity.
  - apply H3. vm_compute. reflexivity.
Defined.

Lemma publish_adds_asset_witness :
  get_all_assets store shelf = (Ret ["Car"; "bike"; "rig"], shelf)
  /\ exists assets',
       get_all_assets store (publish_file "t" store "lamp" 1%positive shelf).2
       = (Ret assets', (publish_file "t" store "lamp" 1%positive shelf).2)
       /\ forall a, a ∈ assets' <-> a = "lamp" \/ a ∈ ["Car"; "bike"; "rig"].
Proof.
  split; [vm_compute; reflexivity|].
  apply (publish_adds_asset_to_listing "t" store "lamp" 1%positive shelf record 1).
  - left. repeat split; vm_compute; reflexivity.
  - vm_compute. reflexivity.
  - vm_compute. reflexivity.
  - vm_compute. reflexivity.
Defined.

Lemma publish_leaves_other_assets_witness :
  (get_versions store "rig" (publish_file "t" store "bike" 1%positive shelf).2).1
  = (get_versions store "rig" shelf).1
  /\ forall v,
       (load_file store "rig" v (publish_file "t" store "bike" 1%positive shelf).2).1
       = (load_file store "rig" v shelf).1.
Proof.
  apply (publish_leaves_other_assets "t" store "bike" "rig" 1%positive shelf).
  - vm_compute. reflexivity.
  - vm_compute. reflexivity.
  - discriminate.
Defined.

Lemma publish_keeps_earlier_versions_witness :
  (load_file store "rig" 1 (publish_file "t" store "rig" 1%positive shelf).2).1
  = (load_file store "rig" 1 shelf).1.
Proof.
  apply (publish_keeps_earlier_versions "t" store "rig" 1%positive shelf record 2 1).
  - right. split; [vm_compute; reflexivity|].
    exists [1]%Z. repeat split; vm_compute; reflexivity.
  - vm_compute. reflexivity.
  - vm_compute. reflexivity.
  - lia.
  - lia.
Defined.

Lemma publish_file_never_raises_witness :
  exists ok w',
    publish_file "t" store "rig" 1%positive blocked_by_file = (Ret ok, w')
    /\ ok = false /\ heap w' = heap blocked_by_file.
Proof.
  destruct (publish_file_never_raises "t" store "rig" 1%positive blocked_by_file)
    as (ok & w' & Hres & Hfail & _).
  exists ok, w'. split; [exact Hres|].
  destruct (Hfail (FS.oserror FileExistsError ["store"; "rig"; "2"]))
    as (Hok & Hheap & _); [vm_compute; reflexivity|].
  by split.
Defined.

Lemma failed_publish_consumes_version_witness :
  exists w',
    publish_file "t" store "rig" 2%positive new_store = (Ret false, w')
    /\ get_latest_version store "rig" w' = (Ret (Some 1%Z), w')
    /\ FS.is_dir (fs w') (get_version_path store "rig" 1) = true
    /\ (load_file store "rig" 1 w').1 = Ret None.
Proof.
  eapply (failed_publish_consumes_version "t" store "rig" 2%positive new_store
            bad_record 1).
  - left. repeat split; vm_compute; reflexivity.
  - vm_compute. reflexivity.
  - vm_compute. reflexivity.
  - lazy. reflexivity.
Defined.

End StoreExamples.

(* ================================================================== *)
(** ** Paths written as strings and read back *)

Section PathStrings.

Import LightFinderWindow.

Lemma split_slash_app cur a rest :
  Str.all_chars Str.not_slash a = true ->
  Str.split_slash cur (a ++ String "/" rest)
  = (cur ++ a)%string :: Str.split_slash "" rest.
Proof.
  revert cur. induction a as [|c a IH]; intros cur Ha.
  - by rewrite append_nil_l, string_app_empty_r.
  - simpl in Ha. apply andb_true_iff in Ha as [Hc Ha].
    rewrite append_cons. simpl. unfold Str.not_slash in Hc.
    destruct (bool_decide (c = "/"%char)); [done|].
    rewrite IH by done. f_equal. rewrite string_app_assoc. by rewrite append_cons, append_nil_l.
Qed.

Lemma split_slash_segments cur s :
  Str.all_chars Str.not_slash cur = true ->
  Forall (fun x => Str.all_chars Str.not_slash x = true) (Str.split_slash cur s).
Proof.
  revert cur. induction s as [|c s IH]; intros cur Hcur; simpl.
  - by constructor.
  - destruct (bool_decide (c = "/"%char)) eqn:Hc.
    + constructor; [done|]. by apply IH.
    + apply IH. rewrite all_chars_app, Hcur. simpl.
      unfold Str.not_slash. by rewrite Hc.
Qed.

Lemma of_string_segments s :
  Forall (fun x => Path.plain_name x = true) (Path.of_string s).
Proof.
  unfold Path.of_string. apply Forall_forall. intros x Hx.
  apply list_elem_of_In, filter_In in Hx as [Hx Hkeep].
  unfold Path.plain_name. rewrite Hkeep, contains_slash. simpl.
  pose proof (split_slash_segments "" s eq_refl) as Hall.
  rewrite Forall_forall in Hall. rewrite Hall; [done|]. by apply list_elem_of_In.
Qed.

Lemma plain_no_slash x :
  Path.plain_name x = true -> Str.all_chars Str.not_slash x = true.
Proof.
  unfold Path.plain_name. rewrite contains_slash.
  intros [_ H]%andb_true_iff. by destruct (Str.all_chars _ _).
Qed.

Lemma split_slash_concat cur x p :
  Str.all_chars Str.not_slash x = true ->
  Forall (fun x => Path.plain_name x = true) p ->
  Str.split_slash cur (String.concat "/" (x :: p)) = (cur ++ x)%string :: p.
Proof.
  revert cur x. induction p as [|y p IH]; intros cur x Hx Hp.
  - simpl. by apply split_no_slash.
  - apply Forall_cons in Hp as [Hy Hp].
    change (String.concat "/" (x :: y :: p))
      with (x ++ String "/" ("" ++ String.concat "/" (y :: p)))%string.
    rewrite split_slash_app by done.
    rewrite append_nil_l, IH by (done || by apply plain_no_slash).
    by rewrite append_nil_l.
Qed.

Lemma filter_plain p :
  Forall (fun x => Path.plain_name x = true) p ->
  List.filter Path.keep_segment p = p.
Proof.
  induction 1 as [|x p Hx _ IH]; [done|]. simpl.
  unfold Path.plain_name in Hx. apply andb_true_iff in Hx as [-> _].
  by rewrite IH.
Qed.

Lemma concat_snoc sep l x :
  l <> [] ->
  String.concat sep (l ++ [x]) = (String.concat sep l ++ sep ++ x)%string.
Proof.
  induction l as [|a l IH]; [done|]. intros _.
  destruct l as [|b l]; [done|].
  change (String.concat sep ((a :: b :: l) ++ [x]))
    with (a ++ sep ++ String.concat sep ((b :: l) ++ [x]))%string.
  rewrite IH by done.
  change (String.concat sep (a :: b :: l))
    with (a ++ sep ++ String.concat sep (b :: l))%string.
  by rewrite !string_app_assoc.
Qed.

Lemma ends_with_slash_app a b :
  b <> "" -> ends_with_slash (a ++ b) = ends_with_slash b.
Proof.
  intros Hb. induction a as [|c a IH]; [by rewrite append_nil_l|].
  rewrite append_cons. simpl. rewrite IH.
  destruct (a ++ b)%string eqn:Hab; [|done].
  destruct a; [by rewrite append_nil_l in Hab|by rewrite append_cons in Hab].
Qed.

Lemma no_slash_ends s :
  Str.all_chars Str.not_slash s = true -> ends_with_slash s = false.
Proof.
  induction s as [|c s IH]; [done|]. simpl.
  intros [Hc Hs]%andb_true_iff. destruct s; [|by apply IH].
  unfold Str.not_slash in Hc. by destruct (bool_decide (c = "/"%char)).
Qed.

Lemma concat_ends p :
  p <> [] -> Forall (fun x => Path.plain_name x = true) p ->
  ends_with_slash (String.concat "/" ("" :: p)) = false.
Proof.
  intros Hne Hp.
  destruct (exists_last Hne) as (q & x & ->).
  apply Forall_app in Hp as [_ Hx]. apply Forall_cons in Hx as [Hx _].
  change ("" :: q ++ [x])%list with (("" :: q) ++ [x])%list.
  rewrite concat_snoc by done.
  assert (x <> "") as Hxne by (by intros ->).
  rewrite <- string_app_assoc, ends_with_slash_app by done.
  by apply no_slash_ends, plain_no_slash.
Qed.

(** The override record of the running store, as [set_custom_path] names
    it, is the file [env.json] directly under the root. *)
Lemma env_path_of_root p :
  Forall (fun x => Path.plain_name x = true) p ->
  Path.of_string (os_path_join (str_of_path p) "env.json") = (p ++ ["env.json"])%list.
Proof.
  intros Hp. destruct p as [|x p]; [done|].
  unfold str_of_path, os_path_join.
  rewrite bool_decide_eq_false_2 by done.
  rewrite concat_ends by done.
  change ("/" ++ "env.json")%string with (String "/" "env.json").
  assert (String.concat "/" ("" :: x :: p) ++ String "/" "env.json"
          = String.concat "/" (("" :: x :: p) ++ ["env.json"]))%string as ->.
  { by rewrite concat_snoc. }
  unfold Path.of_string. simpl app.
  assert (Forall (fun x => Path.plain_name x = true) (x :: p ++ ["env.json"]))
    as Hall.
  { change (x :: p ++ ["env.json"])%list with ((x :: p) ++ ["env.json"])%list.
    apply Forall_app. split; [done|]. by repeat constructor. }
  rewrite split_slash_concat by done.
  rewrite append_nil_l.
  change (List.filter Path.keep_segment ("" :: x :: p ++ ["env.json"]))
    with (List.filter Path.keep_segment (x :: p ++ ["env.json"])).
  apply (filter_plain _ Hall).
Qed.

End PathStrings.

(* ================================================================== *)
(** ** The override record written by the window *)

Section CustomPath.

Import VersionManager Listing LightFinderWindow.

Lemma seen_exists n n' p :
  seen n p = seen n' p -> FS.exists_ n p = FS.exists_ n' p.
Proof.
  unfold seen, FS.exists_.
  by destruct (FS.lookup n p) as [[?|?]|], (FS.lookup n' p) as [[?|?]|].
Qed.

Lemma seen_read_file n n' p :
  seen n p = seen n' p -> FS.read_file n p = FS.read_file n' p.
Proof.
  unfold seen, FS.read_file.
  destruct (FS.lookup n p) as [[?|?]|], (FS.lookup n' p) as [[?|?]|]; try done.
  by intros [= ->].
Qed.

(** A write changes what a reader sees at the written path only. *)
Lemma write_at_seen whole n p c n' q :
  FS.write_at whole n p c = Ret n' -> q <> p -> seen n' q = seen n q.
Proof.
  revert n n' q. induction p as [|s p IH]; intros n n' q Hw Hq.
  - destruct n as [c0|m]; simpl in Hw; simplify_eq.
    destruct q as [|t q]; [done|]. done.
  - destruct n as [c0|m]; simpl in Hw; [done|].
    destruct (m !! s) as [ch|] eqn:Hs.
    + destruct (FS.write_at whole ch p c) as [r|] eqn:Hr; simplify_eq.
      destruct q as [|t q]; [done|]. unfold seen. simpl.
      destruct (decide (t = s)) as [->|Hne].
      * rewrite lookup_insert_eq, Hs. apply (IH ch r q Hr). congruence.
      * by rewrite lookup_insert_ne.
    + destruct p as [|? ?]; simplify_eq.
      destruct q as [|t q]; [done|]. unfold seen. simpl.
      destruct (decide (t = s)) as [->|Hne].
      * rewrite lookup_insert_eq, Hs. destruct q; [done|]. done.
      * by rewrite lookup_insert_ne.
Qed.

Lemma write_under_dir whole n p f c m :
  FS.lookup n p = Some (FS.Dir m) ->
  (forall x, m !! f <> Some (FS.Dir x)) ->
  exists n', FS.write_at whole n (p ++ [f]) c = Ret n'
             /\ FS.lookup n' p = Some (FS.Dir (<[f := FS.File c]> m)).
Proof.
  intros Hl Hf. pose proof (write_at_app whole n p [f] (FS.Dir m) c Hl) as Hw.
  simpl in Hw. destruct (m !! f) as [[c0|x]|] eqn:Hmf; simpl in Hw.
  - done.
  - by destruct (Hf x).
  - done.
Qed.

Lemma get_all_assets_same_store self w :
  (get_all_assets self w).2 = w.
Proof.
  unfold get_all_assets, bind, fs_query, lift, ret, FS.iterdir, id. cbn beta.
  destruct (FS.exists_ (fs w) _); [|done].
  by destruct (FS.lookup (fs w) _) as [[c|m]|].
Qed.

Lemma add_assets_run assets g :
  add_assets assets g
  = (Ret tt, Gui (store g) (loader_list g ++ assets) (pub_name_combo g ++ assets)
               (shown g)).
Proof.
  revert g. induction assets as [|a assets IH]; intros g.
  - simpl. unfold ret. rewrite !app_nil_r. by destruct g.
  - simpl. unfold bind, add_asset, modify. rewrite IH. simpl.
    by rewrite <- !app_assoc.
Qed.

(** [refresh_assets] fills both widgets with what [get_all_assets] returns
    and leaves them empty when it raises; the store is not touched. *)
Lemma refresh_assets_run self g :
  refresh_assets self g
  = match (get_all_assets (version_manager self) (store g)).1 with
    | Ret assets => (Ret tt, Gui (store g) assets assets (shown g))
    | Raise e => (Raise e, Gui (store g) [] [] (shown g))
    end.
Proof.
  unfold refresh_assets, bind at 1, clear_lists, modify. unfold bind, in_store.
  simpl store. pose proof (get_all_assets_same_store (version_manager self) (store g)) as Hs.
  destruct (get_all_assets _ _) as [[assets|e] w]; simpl in *; subst w; [|done].
  by rewrite add_assets_run.
Qed.


(** What one accepted dialog does: the file is opened (and emptied), the
    record written, a failure shown in a box, and the lists refreshed. *)
Lemma set_custom_path_run self new_path g :
  Forall (fun x => Path.plain_name x = true) (base_path (version_manager self)) ->
  new_path <> "" ->
  let env := (base_path (version_manager self) ++ ["env.json"])%list in
  let failed e n :=
    Gui (set_fs n (store g)) (loader_list g) (pub_name_combo g)
        (shown g ++ [Warning "Error" ("Failed to save custom path: " ++ exn_msg e)]) in
  set_custom_path self (new_path, true) g
  = refresh_assets self
      match FS.write_file (fs (store g)) env FS.Malformed with
      | Raise e => failed e (fs (store g))
      | Ret n1 =>
          match FS.write_file n1 env
                  (FS.Document (JObj [("custom_path", JStr new_path)])) with
          | Raise e => failed e n1
          | Ret n2 => Gui (set_fs n2 (store g)) (loader_list g) (pub_name_combo g)
                          (shown g)
          end
      end.
Proof.
  intros Hplain Hne env failed. unfold set_custom_path.
  rewrite (env_path_of_root _ Hplain). fold env.
  rewrite bool_decide_eq_false_2 by done. simpl andb. cbv iota.
  unfold bind at 1, try_except, in_store, bind at 1, fs_update, show, modify.
  destruct g as [[n h out] ll pc sh]. simpl store. simpl fs. subst failed. simpl.
  destruct (FS.write_file n env FS.Malformed) as [n1|e1]; simpl; [|done].
  unfold json_dump. simpl to_json. unfold fs_update. simpl.
  by destruct (FS.write_file n1 env _) as [n2|e2].
Qed.

(** X9. A path entered in the window of a store at its default place is
    what the next start uses: the override record then holds the text, and
    [__init__] returns the store at [Published_lights] under it (or raises
    because that directory cannot be made).  The running window goes on
    listing the assets of its present root. *)
Theorem custom_path_is_used_at_next_start home self new_path g :
  base_path (version_manager self) = Path.of_string (home_default home) ->
  FS.is_dir (fs (store g)) (base_path (version_manager self)) = true ->
  FS.is_dir (fs (store g)) (startup_env home) = false ->
  new_path <> "" ->
  exists r g',
    set_custom_path self (new_path, true) g = (r, g')
    /\ shown g' = shown g
    /\ FS.read_file (fs (store g')) (startup_env home)
       = Ret (FS.Document (JObj [("custom_path", JStr new_path)]))
    /\ (init home None (store g')).1
       = match FS.mkdir_p (fs (store g'))
                 (Path.of_string new_path ++ ["Published_lights"]) with
         | Ret _ => Ret (VersionManager.Make
                           (Path.of_string new_path ++ ["Published_lights"]))
         | Raise e => Raise e
         end
    /\ (get_all_assets (version_manager self) (store g')).1
       = match r with
         | Ret _ => Ret (loader_list g')
         | Raise e => Raise e
         end
    /\ pub_name_combo g' = loader_list g'.
Proof.
  intros Hbase Hdir Hfile Hne.
  assert (Forall (fun x => Path.plain_name x = true) (base_path (version_manager self)))
    as Hplain by (rewrite Hbase; apply of_string_segments).
  rewrite (set_custom_path_run self new_path g Hplain Hne). cbv zeta.
  unfold startup_env in *. rewrite <- Hbase in *.
  set (base := base_path (version_manager self)) in *.
  set (j := JObj [("custom_path", JStr new_path)]).
  unfold FS.is_dir in Hdir, Hfile.
  destruct (FS.lookup (fs (store g)) base) as [[c|m]|] eqn:Hl; try done.
  rewrite lookup_app, Hl in Hfile. simpl in Hfile.
  destruct (write_under_dir (base ++ ["env.json"]) (fs (store g)) base "env.json"
              FS.Malformed m Hl) as (n1 & Hw1 & Hl1).
  { intros x Hx. by rewrite Hx in Hfile. }
  unfold FS.write_file at 1. rewrite Hw1.
  destruct (write_under_dir (base ++ ["env.json"]) n1 base "env.json"
              (FS.Document j) _ Hl1) as (n2 & Hw2 & Hl2).
  { intros x. by rewrite lookup_insert_eq. }
  unfold FS.write_file. rewrite Hw2. rewrite insert_insert_eq in Hl2.
  rewrite refresh_assets_run. simpl store. simpl shown.
  assert (FS.lookup n2 (base ++ ["env.json"]) = Some (FS.File (FS.Document j))) as Henv.
  { rewrite lookup_app, Hl2. simpl. by rewrite lookup_insert_eq. }
  assert ((init home None (set_fs n2 (store g))).1
          = match FS.mkdir_p n2 (Path.of_string new_path ++ ["Published_lights"]) with
            | Ret _ => Ret (VersionManager.Make
                              (Path.of_string new_path ++ ["Published_lights"]))
            | Raise e => Raise e
            end) as Hinit.
  { unfold init. rewrite <- Hbase. fold base.
    unfold bind at 1, fs_query at 1. simpl fs.
    unfold FS.exists_. rewrite Henv.
    unfold bind at 1, try_except, bind at 1, bind at 1, fs_query, lift, id.
    simpl fs. unfold FS.read_file. rewrite Henv.
    assert (py_get (of_json j) "custom_path" = Ret (PyStr new_path)) as Hget
      by reflexivity.
    unfold bind. change (FS.json_load (FS.Document j)) with (Ret (of_json j)).
    cbv iota beta. rewrite Hget. cbv iota beta.
    unfold truthy. rewrite bool_decide_eq_false_2 by done. simpl negb. cbv iota beta.
    unfold Path_of. cbv iota beta.
    rewrite (join_plain _ "Published_lights") by done.
    unfold fs_update, ret. change (negb false) with true. cbv iota beta. simpl fs.
    by destruct (FS.mkdir_p n2 _). }
  destruct (get_all_assets (version_manager self) (set_fs n2 (store g)))
    as [[assets|e] w'] eqn:Hassets; simpl.
  - eexists _, _. split; [done|]. simpl. split; [done|]. split.
    { unfold FS.read_file. by rewrite Henv. }
    split; [exact Hinit|]. by rewrite Hassets.
  - eexists _, _. split; [done|]. simpl. split; [done|]. split.
    { unfold FS.read_file. by rewrite Henv. }
    split; [exact Hinit|]. by rewrite Hassets.
Qed.


(** The result of a start, read off the tree: the override is what is
    seen at the override record. *)
Lemma init_result home b w :
  let default_path := match b with None => home_default home | Some s => s end in
  let custom_path :=
    match seen (fs w) (Path.of_string default_path ++ ["env.json"]) with
    | Some (Some c) =>
        match FS.json_load c with
        | Ret v => match py_get v "custom_path" with
                   | Ret a => a
                   | Raise _ => PyNone
                   end
        | Raise _ => PyNone
        end
    | _ => PyNone
    end in
  (init home b w).1
  = if truthy custom_path then
      match Path_of custom_path with
      | Ret p => match FS.mkdir_p (fs w) (p // "Published_lights") with
                 | Ret _ => Ret (VersionManager.Make (p // "Published_lights"))
                 | Raise e => Raise e
                 end
      | Raise e => Raise e
      end
    else
      match FS.mkdir_p (fs w) (Path.of_string default_path) with
      | Ret _ => Ret (VersionManager.Make (Path.of_string default_path))
      | Raise e => Raise e
      end.
Proof.
  intros default_path. unfold init. fold default_path.
  set (env := (Path.of_string default_path ++ ["env.json"])%list).
  unfold seen, bind at 1, fs_query at 1, FS.exists_.
  unfold try_except, bind, fs_query, lift, id, print, modify, ret, fs_update,
    FS.read_file.
  cbn beta.
  destruct (FS.lookup (fs w) env) as [[c|m]|] eqn:Hl; rewrite ?Hl; simpl.
  - destruct (FS.json_load c) as [v|e]; simpl.
    + destruct (py_get v "custom_path") as [a|e]; simpl.
      * destruct (truthy a); [destruct (Path_of a) as [p|e]; simpl; [|done]|];
          by destruct (FS.mkdir_p _ _).
      * by destruct (FS.mkdir_p _ _).
    + by destruct (FS.mkdir_p _ _).
  - by destruct (FS.mkdir_p _ _).
  - by destruct (FS.mkdir_p _ _).
Qed.

(** The root a start resolves to depends on the tree only through what is
    seen at the override record. *)
Lemma init_same_root home b w w' vm vm' :
  let default_path := match b with None => home_default home | Some s => s end in
  seen (fs w) (Path.of_string default_path ++ ["env.json"])
  = seen (fs w') (Path.of_string default_path ++ ["env.json"]) ->
  (init home b w).1 = Ret vm -> (init home b w').1 = Ret vm' -> vm' = vm.
Proof.
  intros default_path Hseen. rewrite !init_result. fold default_path.
  rewrite Hseen.
  destruct (truthy _); [destruct (Path_of _); [|done]|];
    repeat destruct (FS.mkdir_p _ _); congruence.
Qed.

(** X10. In the window of a store that is not at the default place, an
    accepted path is written where no start reads it: what a start sees at
    its override record is as before, so the next start cannot resolve to
    another root than a start before the dialog did. *)
Theorem custom_path_of_moved_store_is_not_read home self reply g :
  Forall (fun x => Path.plain_name x = true) (base_path (version_manager self)) ->
  base_path (version_manager self) <> Path.of_string (home_default home) ->
  seen (fs (store (set_custom_path self reply g).2)) (startup_env home)
  = seen (fs (store g)) (startup_env home)
  /\ forall vm vm',
       (init home None (store g)).1 = Ret vm ->
       (init home None (store (set_custom_path self reply g).2)).1 = Ret vm' ->
       vm' = vm.
Proof.
  intros Hplain Hmoved.
  assert (seen (fs (store (set_custom_path self reply g).2)) (startup_env home)
          = seen (fs (store g)) (startup_env home)) as Hseen.
  { destruct reply as [new_path ok].
    destruct ok; [|done].
    destruct (decide (new_path = "")) as [->|Hne]; [done|].
    rewrite (set_custom_path_run self new_path g Hplain Hne). cbv zeta.
    rewrite refresh_assets_run.
    assert (startup_env home <> (base_path (version_manager self) ++ ["env.json"])%list)
      as Hother.
    { unfold startup_env. intros Heq. apply app_inj_tail in Heq as [Heq _]. congruence. }
    set (env := (base_path (version_manager self) ++ ["env.json"])%list) in *.
    assert (forall g1,
              fs (store (match (get_all_assets (version_manager self) (store g1)).1 with
                         | Ret assets => (Ret tt, Gui (store g1) assets assets (shown g1))
                         | Raise e => (Raise e, Gui (store g1) [] [] (shown g1))
                         end).2) = fs (store g1)) as Hrefresh.
    { intros g1. by destruct (get_all_assets _ _).1. }
    rewrite Hrefresh.
    destruct (FS.write_file (fs (store g)) env FS.Malformed) as [n1|e1] eqn:Hw1;
      [|done].
    pose proof (write_at_seen _ _ _ _ _ _ Hw1 Hother) as H1.
    destruct (FS.write_file n1 env _) as [n2|e2] eqn:Hw2; simpl; [|done].
    pose proof (write_at_seen _ _ _ _ _ _ Hw2 Hother) as H2. congruence. }
  split; [done|]. intros vm vm' Hbefore Hafter.
  by apply (init_same_root home None (store g) _ vm vm' (eq_sym Hseen)).
Qed.

End CustomPath.

Section WindowWitnesses.

Import VersionManager Examples Listing LightFinderWindow WindowExamples.

Lemma custom_path_next_start_witness :
  exists r g',
    set_custom_path home_window ("/mnt/show", true) home_gui = (r, g')
    /\ shown g' = shown home_gui
    /\ FS.read_file (fs (store g')) (startup_env "/home/u")
       = Ret (FS.Document (JObj [("custom_path", JStr "/mnt/show")]))
    /\ (init "/home/u" None (store g')).1
       = match FS.mkdir_p (fs (store g'))
                 (Path.of_string "/mnt/show" ++ ["Published_lights"]) with
         | Ret _ => Ret (VersionManager.Make
                           (Path.of_string "/mnt/show" ++ ["Published_lights"]))
         | Raise e => Raise e
         end
    /\ (get_all_assets (version_manager home_window) (store g')).1
       = match r with
         | Ret _ => Ret (loader_list g')
         | Raise e => Raise e
         end
    /\ pub_name_combo g' = loader_list g'.
Proof.
  apply (custom_path_is_used_at_next_start "/home/u" home_window "/mnt/show" home_gui).
  - vm_compute. reflexivity.
  - vm_compute. reflexivity.
  - vm_compute. reflexivity.
  - discriminate.
Defined.

Lemma custom_path_moved_store_witness :
  seen (fs (store (set_custom_path moved_window ("/mnt/other", true) moved_gui).2))
       (startup_env "/home/u")
  = seen (fs (store moved_gui)) (startup_env "/home/u")
  /\ forall vm vm',
       (init "/home/u" None (store moved_gui)).1 = Ret vm ->
       (init "/home/u" None
          (store (set_custom_path moved_window ("/mnt/other", true) moved_gui).2)).1
       = Ret vm' ->
       vm' = vm.
Proof.
  apply (custom_path_of_moved_store_is_not_read "/home/u" moved_window
           ("/mnt/other", true) moved_gui).
  - repeat constructor.
  - vm_compute. discriminate.
Defined.

End WindowWitnesses.

(* ================================================================== *)
(** ** The selected lights *)

Section SelectedLights.

Import Scene LightFinderFunctions Selection.
Context `{api St}.

Lemma has_light_shape_true (s : St) shapes :
  has_light_shape s shapes = Ret true ->
  exists shape t, shape ∈ shapes /\ objectType s shape = Ret t
                  /\ Str.contains "light" (Str.lower t) = true.
Proof.
  induction shapes as [|shape rest IH]; simpl; [done|].
  destruct (objectType s shape) as [t|e] eqn:Ht; [|done].
  destruct (Str.contains "light" (Str.lower t)) eqn:Hc.
  - intros _. exists shape, t. split; [by left|done].
  - intros (shape' & t' & Hin & Hrest)%IH. exists shape', t'. split; [by right|done].
Qed.

Lemma has_light_shape_complete (s : St) shapes shape t :
  (forall x, x ∈ shapes -> exists tx, objectType s x = Ret tx) ->
  shape ∈ shapes -> objectType s shape = Ret t ->
  Str.contains "light" (Str.lower t) = true ->
  has_light_shape s shapes = Ret true.
Proof.
  intros Hall Hin Ht Hc. induction shapes as [|x rest IH]; [by apply elem_of_nil in Hin|].
  simpl. destruct (Hall x) as (tx & Hx); [by left|]. rewrite Hx.
  destruct (Str.contains "light" (Str.lower tx)) eqn:Hcx; [done|].
  apply elem_of_cons in Hin as [->|Hin]; [congruence|].
  apply IH; [|done]. intros y Hy. apply Hall. by right.
Qed.

Lemma has_light_shape_returns (s : St) shapes :
  (forall x, x ∈ shapes -> exists tx, objectType s x = Ret tx) ->
  exists b, has_light_shape s shapes = Ret b.
Proof.
  induction shapes as [|x rest IH]; intros Hall; simpl; [by eexists|].
  destruct (Hall x) as (tx & ->); [by left|].
  destruct (Str.contains _ _); [by eexists|].
  apply IH. intros y Hy. apply Hall. by right.
Qed.

(** An object the loop keeps: it has a shape whose type names a light. *)
Lemma selected_lights_ret (s : St) selected acc lights :
  selected_lights s selected acc = Ret lights ->
  exists kept,
    lights = (acc ++ kept)%list
    /\ kept `sublist_of` selected
    /\ (forall obj, obj ∈ kept ->
          exists shapes, listRelatives_shapes s obj = Ret shapes
                         /\ has_light_shape s (or_empty shapes) = Ret true)
    /\ (forall obj shapes, obj ∈ selected ->
          listRelatives_shapes s obj = Ret shapes ->
          has_light_shape s (or_empty shapes) = Ret true -> obj ∈ kept).
Proof.
  revert acc lights. induction selected as [|obj rest IH]; intros acc lights; simpl.
  - intros [= <-]. exists []. rewrite app_nil_r.
    split; [done|]. split; [done|].
    split; [intros obj Hin|intros obj shapes Hin]; by apply elem_of_nil in Hin.
  - destruct (listRelatives_shapes s obj) as [shapes|e] eqn:Hrel; [|done].
    destruct (has_light_shape s (or_empty shapes)) as [[|]|e] eqn:Hhas; [| |done].
    + intros (kept & -> & Hsub & Hsound & Hcomplete)%IH.
      exists (obj :: kept). rewrite <- app_assoc. split; [done|].
      split; [by apply sublist_skip|]. split.
      * intros o [->|Ho]%elem_of_cons; [by exists shapes|by apply Hsound].
      * intros o shapes' [->|Ho]%elem_of_cons Hr Hh; [by left|].
        right. by apply (Hcomplete o shapes').
    + intros (kept & -> & Hsub & Hsound & Hcomplete)%IH.
      exists kept. split; [done|]. split; [by apply sublist_cons|].
      split; [done|].
      intros o shapes' [->|Ho]%elem_of_cons Hr Hh; [congruence|].
      by apply (Hcomplete o shapes').
Qed.

Lemma selected_lights_raises (s : St) selected acc obj e :
  obj ∈ selected -> listRelatives_shapes s obj = Raise e ->
  exists e', selected_lights s selected acc = Raise e'.
Proof.
  revert acc. induction selected as [|x rest IH]; intros acc Hin Hraise;
    [by apply elem_of_nil in Hin|]. simpl.
  destruct (decide (x = obj)) as [->|Hne]; [rewrite Hraise; by eexists|].
  apply elem_of_cons in Hin as [->|Hin]; [done|].
  destruct (listRelatives_shapes s x) as [shapes|e1]; [|by eexists].
  destruct (has_light_shape s (or_empty shapes)) as [[|]|e2]; [| |by eexists];
    by apply IH.
Qed.

Lemma selected_lights_returns (s : St) selected acc :
  (forall obj, obj ∈ selected ->
     exists shapes, listRelatives_shapes s obj = Ret shapes
                    /\ forall x, x ∈ or_empty shapes -> exists tx, objectType s x = Ret tx) ->
  exists lights, selected_lights s selected acc = Ret lights.
Proof.
  revert acc. induction selected as [|x rest IH]; intros acc Hall; simpl; [by eexists|].
  destruct (Hall x) as (shapes & -> & Htypes); [by left|].
  destruct (has_light_shape_returns s (or_empty shapes) Htypes) as ([|] & ->);
    apply IH; intros obj Hobj; apply Hall; by right.
Qed.

(** X11. [get_selected_lights] keeps, in the order of the selection, the
    selected objects that have a shape whose type, in lower case, contains
    [light]; an object without shapes (a selected shape node, say) is never
    kept.  When no query raises it keeps all of them; when the shapes of
    one selected object cannot be listed, nothing at all is returned. *)
Theorem get_selected_lights_keeps_light_transforms (s : St) selection :
  (forall selected, selection = Ret selected ->
     get_selected_lights s selection `sublist_of` selected)
  /\ (forall obj, obj ∈ get_selected_lights s selection ->
        exists shapes shape t,
          listRelatives_shapes s obj = Ret (Some shapes) /\ shape ∈ shapes
          /\ objectType s shape = Ret t
          /\ Str.contains "light" (Str.lower t) = true)
  /\ (forall selected obj e, selection = Ret selected -> obj ∈ selected ->
        listRelatives_shapes s obj = Raise e ->
        get_selected_lights s selection = [])
  /\ (forall selected, selection = Ret selected ->
        (forall obj, obj ∈ selected ->
           exists shapes, listRelatives_shapes s obj = Ret shapes
             /\ forall x, x ∈ or_empty shapes -> exists tx, objectType s x = Ret tx) ->
        forall obj shapes shape t,
          obj ∈ selected -> listRelatives_shapes s obj = Ret (Some shapes) ->
          shape ∈ shapes -> objectType s shape = Ret t ->
          Str.contains "light" (Str.lower t) = true ->
          obj ∈ get_selected_lights s selection).
Proof.
  unfold get_selected_lights. destruct selection as [selected|e0].
  2: { repeat split; try done. intros obj Hin. by apply elem_of_nil in Hin. }
  destruct (selected_lights s selected []) as [lights|e1] eqn:Hrun.
  - destruct (selected_lights_ret s selected [] lights Hrun)
      as (kept & -> & Hsub & Hsound & Hcomplete). simpl.
    split; [by intros ? [= <-]|]. split; [|split].
    + intros obj (shapes & Hrel & Hhas)%Hsound.
      destruct (has_light_shape_true s _ Hhas) as (shape & t & Hin & Ht & Hc).
      destruct shapes as [shapes|]; [|by apply elem_of_nil in Hin].
      by exists shapes, shape, t.
    + intros sel obj e [= <-] Hin Hraise.
      destruct (selected_lights_raises s selected [] obj e Hin Hraise) as (e' & He').
      congruence.
    + intros sel [= <-] Hall obj shapes shape t Hin Hrel Hshape Ht Hc.
      apply (Hcomplete obj (Some shapes) Hin Hrel).
      destruct (Hall obj Hin) as (shapes' & Hrel' & Htypes).
      assert (shapes' = Some shapes) as -> by congruence.
      by apply (has_light_shape_complete s shapes shape t).
  - split; [intros; apply sublist_nil_l|]. split; [|split].
    + intros obj Hin. by apply elem_of_nil in Hin.
    + done.
    + intros sel [= <-] Hall.
      destruct (selected_lights_returns s selected [] Hall) as (lights & Hl). congruence.
Qed.

End SelectedLights.

Section SelectionWitnesses.

Import Scene LightFinderFunctions Selection.
#[local] Existing Instance ToyScene.toy_api.

Lemma get_selected_lights_witness :
  get_selected_lights ToyScene.studio (Ret ["key"; "keyShape"]) `sublist_of` ["key"; "keyShape"]
  /\ "key" ∈ get_selected_lights ToyScene.studio (Ret ["key"; "keyShape"])
  /\ get_selected_lights ToyScene.studio (Ret ["key"; "ghost"]) = [].
Proof.
  destruct (get_selected_lights_keeps_light_transforms
              ToyScene.studio (Ret ["key"; "keyShape"])) as (Hsub & _ & _ & Hall).
  destruct (get_selected_lights_keeps_light_transforms
              ToyScene.studio (Ret ["key"; "ghost"])) as (_ & _ & Hraise & _).
  split; [by apply Hsub|]. split.
  - apply (Hall ["key"; "keyShape"] eq_refl) with (shapes := ["keyShape"])
                                                  (shape := "keyShape") (t := "pointLight").
    + intros obj Hobj.
      apply elem_of_cons in Hobj as [->|Hobj];
        [|apply elem_of_cons in Hobj as [->|Hobj]; [|by apply elem_of_nil in Hobj]].
      * exists (Some ["keyShape"]). split; [vm_compute; reflexivity|].
        intros x Hx. apply elem_of_cons in Hx as [->|Hx]; [|by apply elem_of_nil in Hx].
        exists "pointLight". vm_compute. reflexivity.
      * exists None. split; [vm_compute; reflexivity|].
        intros x Hx. by apply elem_of_nil in Hx.
    + by left.
    + vm_compute. reflexivity.
    + by left.
    + vm_compute. reflexivity.
    + vm_compute. reflexivity.
  - apply (Hraise ["key"; "ghost"] "ghost" (ToyScene.no_object "ghost") eq_refl).
    + right. by left.
    + vm_compute. reflexivity.
Defined.

End SelectionWitnesses.

(* ================================================================== *)
(** ** What a collected entry holds *)

Section CollectedEntries.

Import Scene LightFinderFunctions.
Context `{api St}.

(** A value found after a reading loop was read by the loop or was there
    before. *)
Lemma read_attributes_origin (s : St) node attrs d k v :
  dict_get (read_attributes s node attrs d) k = Some v ->
  (k ∈ attrs /\ exists raw, getAttr s (node ++ "." ++ k)%string = Ret raw
                            /\ v = stored_value raw)
  \/ dict_get d k = Some v.
Proof.
  intros Hget. destruct (decide (k ∈ attrs)) as [Hin|Hout].
  - destruct (getAttr s (node ++ "." ++ k)%string) as [raw|e] eqn:Hraw.
    + left. split; [done|]. exists raw. split; [done|].
      rewrite (read_attributes_wins s node attrs d k raw Hin Hraw) in Hget. congruence.
    + right. by rewrite (read_attributes_failed s node attrs d k e Hraw) in Hget.
  - right. by rewrite (read_attributes_other s node attrs d k Hout) in Hget.
Qed.

Lemma collect_light_entry (s : St) light entry :
  collect_light s light = Some entry ->
  exists shape rest keyable_light keyable_shape,
    listRelatives_shapes s light = Ret (Some (shape :: rest))
    /\ listAttr_keyable s light = Ret keyable_light
    /\ listAttr_keyable s shape = Ret keyable_shape
    /\ le_name entry = light
    /\ objectType s shape = Ret (le_type entry)
    /\ le_transform entry
       = read_attributes s light
           (List.filter is_transform_attr (or_empty keyable_light)) []
    /\ le_attributes entry
       = read_attributes s shape (get_arnold_attributes s (shape :: rest))
           (read_attributes s shape (or_empty keyable_shape) []).
Proof.
  unfold collect_light.
  destruct (listRelatives_shapes s light) as [[[|shape rest]|]|]; try done.
  destruct (objectType s shape) as [t|] eqn:Ht; [|done].
  destruct (listAttr_keyable s light) as [kl|] eqn:Hkl; [|done].
  destruct (listAttr_keyable s shape) as [ks|] eqn:Hks; [|done].
  intros [= <-]. exists shape, rest, kl, ks. simpl. by rewrite ?Hks.
Qed.

(** X12. The entries [collect_light_properties] returns are, in order,
    entries for some of the lights it was given; the type of an entry is
    the type of the first shape; every value under [transform] is the
    normalised value of a keyable attribute of the light whose name
    contains one of the four transform words, and every value under
    [attributes] is the normalised value of an attribute of the first
    shape that is keyable or an Arnold attribute.  A light without shapes
    adds no entry. *)
Theorem collected_entries_are_read_from_the_scene (s : St) lights :
  map le_name (collect_light_properties s lights) `sublist_of` lights
  /\ (forall entry, entry ∈ collect_light_properties s lights ->
        exists shape rest keyable_light keyable_shape,
          listRelatives_shapes s (le_name entry) = Ret (Some (shape :: rest))
          /\ objectType s shape = Ret (le_type entry)
          /\ listAttr_keyable s (le_name entry) = Ret keyable_light
          /\ listAttr_keyable s shape = Ret keyable_shape
          /\ (forall k v, dict_get (le_transform entry) k = Some v ->
                k ∈ or_empty keyable_light /\ is_transform_attr k = true
                /\ exists raw, getAttr s (le_name entry ++ "." ++ k)%string = Ret raw
                               /\ v = stored_value raw)
          /\ (forall k v, dict_get (le_attributes entry) k = Some v ->
                (k ∈ or_empty keyable_shape
                 \/ k ∈ get_arnold_attributes s (shape :: rest))
                /\ exists raw, getAttr s (shape ++ "." ++ k)%string = Ret raw
                               /\ v = stored_value raw))
  /\ (forall light,
        listRelatives_shapes s light = Ret None
        \/ listRelatives_shapes s light = Ret (Some []) ->
        light ∉ map le_name (collect_light_properties s lights)).
Proof.
  unfold collect_light_properties. split; [|split].
  - induction lights as [|light rest IH]; simpl; [done|].
    destruct (collect_light s light) as [entry|] eqn:Hc.
    + destruct (collect_light_entry s light entry Hc)
        as (? & ? & ? & ? & _ & _ & _ & Hname & _).
      simpl. rewrite Hname. by apply sublist_skip.
    + by apply sublist_cons.
  - intros entry (light & Hin & Hc)%list_elem_of_omap.
    destruct (collect_light_entry s light entry Hc)
      as (shape & rest & kl & ks & Hrel & Hkl & Hks & Hname & Htype & Htr & Hattr).
    subst light. exists shape, rest, kl, ks. repeat (split; [done|]). split.
    + intros k v Hget. rewrite Htr in Hget.
      apply read_attributes_origin in Hget as [(Hk & raw & Hraw & ->)|Hget];
        [|done].
      apply list_elem_of_In, filter_In in Hk as [Hk Htrans].
      split; [by apply list_elem_of_In|]. split; [done|]. by exists raw.
    + intros k v Hget. rewrite Hattr in Hget.
      apply read_attributes_origin in Hget as [(Hk & raw & Hraw & ->)|Hget].
      { split; [by right|]. by exists raw. }
      apply read_attributes_origin in Hget as [(Hk & raw & Hraw & ->)|Hget];
        [|done].
      split; [by left|]. by exists raw.
  - intros light Hnone Hin.
    apply list_elem_of_In, in_map_iff in Hin as (entry & Hname & Hin).
    apply list_elem_of_In, list_elem_of_omap in Hin as (light' & _ & Hc).
    destruct (collect_light_entry s light' entry Hc)
      as (shape & rest & ? & ? & Hrel & _ & _ & Hname' & _).
    assert (light' = light) as -> by congruence.
    destruct Hnone as [Hn|Hn]; congruence.
Qed.

End CollectedEntries.

Section CollectedWitness.

Import Scene LightFinderFunctions.
#[local] Existing Instance ToyScene.toy_api.

Lemma collected_entries_witness :
  map le_name (collect_light_properties ToyScene.studio ["key"; "keyShape"])
    `sublist_of` ["key"; "keyShape"]
  /\ "keyShape" ∉ map le_name (collect_light_properties ToyScene.studio ["key"; "keyShape"]).
Proof.
  destruct (collected_entries_are_read_from_the_scene
              ToyScene.studio ["key"; "keyShape"]) as (Hsub & _ & Hskip).
  split; [exact Hsub|]. apply Hskip. left. vm_compute. reflexivity.
Defined.

End CollectedWitness.
